(** * Swap aggregation and execution service

    A shallow embedding of the [SwapService] class of the two service
    variants of the repository,

    - [tee-txn-signer/src/swap/swap.service.ts]  (module [Tee]), and
    - [meta-swap-api]'s copy of the same service (module [Meta]),

    together with the properties of quote selection, provider fan-out,
    parameter normalisation and swap execution.

    Conventions.

    - A call to an external collaborator (a swap provider, the signer, the
      token-metadata helper) is answered by the outside world.  Its answer
      is a function of the state of the world at the moment the call is
      answered, a value of the abstract type [World]; a call either
      returns a value or throws ([result]).
    - [Promise.all(xs.map(async ...))] is modelled by an event loop over
      suspended callbacks ([Task]); the order in which the awaited calls
      complete is an explicit schedule.
    - bignumber.js numbers are rationals ([BigNumber.t]); what the
      constructor makes of an arbitrary string is a number, an infinity
      or [NaN] ([BigNumber.value]), and the constructor itself, like the
      printing functions of the library, is a parameter of the service. *)

From Stdlib Require Import List String Ascii ZArith QArith Lqa Lia Bool Arith.
From Stdlib Require Import Permutation.
Import ListNotations.

Close Scope Q_scope.

Set Implicit Arguments.

(** ** bignumber.js *)

Module BigNumber.

(** The numeric values of bignumber.js: arbitrary-precision decimals.
    The data model has quote amounts and fees as numbers, so the
    non-numeric value [NaN] of the library is not part of [t]. *)
Definition t : Type := Q.

(** What a bignumber.js instance holds when it is built from an arbitrary
    string: a number, one of the two infinities, or [NaN]. *)
Inductive value : Type :=
| Finite (q : t)
| Infinite (negative : bool)
| NaN.

Definition gt (a b : t) : bool := negb (Qle_bool a b).
Definition lt (a b : t) : bool := negb (Qle_bool b a).
Definition eq (a b : t) : bool := Qeq_bool a b.

End BigNumber.

(** ** Results of calls that may throw *)

(** What a collaborator throws: an opaque error with a message. *)
Definition Exn : Type := string.

Inductive result (E A : Type) : Type :=
| Ok (a : A)
| Throws (e : E).

Arguments Ok {E A} a.
Arguments Throws {E A} e.

(** ** Data model *)

(** Modelled from the spec: the declarations of [interfaces/swap.interface]
    are not among the sources.  [ChainId] is the enumeration of chains,
    with the two members the service names. *)
Inductive ChainId : Type := ETHEREUM | SOL.

(** Modelled from the spec: [TokenInfo] of [interfaces/swap.interface], a
    token reference with the fields the service writes. *)
Record TokenInfo : Type := {
  address : string;
  symbol : option string;
  decimals : nat;
  chainId : ChainId
}.

(** Modelled from the spec: [SwapParams] of [interfaces/swap.interface];
    the amount is a bignumber.js value and the recipient is optional. *)
Record SwapParams : Type := {
  fromToken : TokenInfo;
  toToken : TokenInfo;
  amount : BigNumber.value;
  slippageTolerance : Q;
  recipient : option string
}.

(** Modelled from the spec: [SwapQuote] of [interfaces/swap.interface];
    output amount and fee are numbers. *)
Record SwapQuote : Type := {
  outputAmount : BigNumber.t;
  fee : BigNumber.t;
  estimatedGas : option BigNumber.t
}.

(** [interface ProviderQuote extends SwapQuote { provider }]. *)
Record ProviderQuoteOf (P : Type) : Type := {
  quote :> SwapQuote;
  provider : P
}.

(** ** Decimal notation *)

Module Numeral.

Definition isDigit (c : ascii) : bool :=
  (48 <=? nat_of_ascii c)%nat && (nat_of_ascii c <=? 57)%nat.

Definition digitValue (c : ascii) : Z := Z.of_nat (nat_of_ascii c) - 48.

(** The longest prefix of digits, and what follows it. *)
Fixpoint spanDigits (cs : list ascii) : list ascii * list ascii :=
  match cs with
  | c :: cs' =>
      if isDigit c
      then let '(ds, rest) := spanDigits cs' in (c :: ds, rest)
      else ([], cs)
  | [] => ([], [])
  end.

(** The integer written by a string of digits (the empty string is 0). *)
Definition digitsValue (ds : list ascii) : Z :=
  fold_left (fun acc c => 10 * acc + digitValue c)%Z ds 0%Z.

(** A numeral in plain decimal notation: an optional minus sign, digits,
    an optional point, digits, and nothing else.  The three groups are
    the sign, the whole digits and the fraction digits. *)
Definition matchDecimal (s : string) : option (bool * list ascii * list ascii) :=
  let cs := list_ascii_of_string s in
  let '(neg, cs1) :=
    match cs with
    | "-"%char :: r => (true, r)
    | _ => (false, cs)
    end in
  let '(whole, cs2) := spanDigits cs1 in
  let cs3 := match cs2 with "."%char :: r => r | _ => cs2 end in
  let '(frac, cs4) := spanDigits cs3 in
  match cs4 with
  | [] => Some (neg, whole, frac)
  | _ :: _ => None
  end.

(** The number a plain decimal numeral denotes: sign, whole part and
    fraction part, at least one digit in all. *)
Definition decimalValue (s : string) : option Q :=
  match matchDecimal s with
  | Some (neg, whole, frac) =>
      if (List.length whole + List.length frac =? 0)%nat then None
      else
        let magnitude :=
          (inject_Z (digitsValue whole)
           + inject_Z (digitsValue frac) / inject_Z (10 ^ Z.of_nat (List.length frac)))%Q in
        Some (if neg then (- magnitude)%Q else magnitude)
  | None => None
  end.

End Numeral.

(** ** ethers *)

Module ethers.

Import Numeral.

(** Modelled from the spec: [ethers.parseUnits] belongs to the ethers
    library, which is not part of the repository sources.  The
    conversion is the exact fixed-point scaling the normalizer is
    specified to use: the numeral is split into sign, whole and fraction
    digits, the fraction is padded with zeros to [unit] digits, digits
    beyond [unit] must all be zeros, and the integer written by
    sign, whole and the [unit] fraction digits is returned; it must fit
    a signed 512-bit fixed-point number of at most 80 decimals. *)
Definition parseUnits (value : string) (unit : nat) : result Exn Z :=
  match matchDecimal value with
  | None => Throws "invalid FixedNumber string value"%string
  | Some (neg, whole, frac) =>
      if (List.length whole + List.length frac =? 0)%nat
      then Throws "invalid FixedNumber string value"%string
      else if (80 <? unit)%nat
      then Throws "invalid FixedNumber decimals (too large)"%string
      else
        let padded := frac ++ repeat "0"%char (unit - List.length frac) in
        if negb (forallb (Ascii.eqb "0"%char) (skipn unit padded))
        then Throws "too many decimals for format"%string
        else
          let magnitude := digitsValue (whole ++ firstn unit padded) in
          let v := if neg then (- magnitude)%Z else magnitude in
          if ((- 2 ^ 511 <=? v) && (v <? 2 ^ 511))%Z
          then Ok v
          else Throws "overflow"%string
  end.

(** [ethers.parseEther(value)] is [parseUnits(value, 18)]. *)
Definition parseEther (value : string) : result Exn Z := parseUnits value 18.

End ethers.

(** ** Async callbacks and [Promise.all] *)

(** [xs.map(async x => ...)] creates one callback per element.  A callback
    runs until it reaches an [await], where it is suspended until the
    awaited call completes; the callbacks share the array they push to.
    [Promise.all] settles once every callback has settled.  The order in
    which the awaited calls complete is decided by the outside world: it
    is the schedule, a list of callback indices, each entry resuming that
    callback once.  Callbacks still suspended when the schedule is used
    up complete one after the other, in index order. *)

Module Async.
Section Tasks.

Variable E : Type.    (* what a callback can reject with *)
Variable A : Type.    (* the elements of the shared array *)

Inductive Task : Type :=
| Settled (r : result E unit)    (* the callback has returned or thrown *)
| Push (a : A) (k : Task)        (* [arr.push(a)], then [k] *)
| Await (k : Task).              (* suspended; [k] runs on completion *)

(** Runs a callback up to its next suspension point. *)
Fixpoint advance (t : Task) (arr : list A) : Task * list A :=
  match t with
  | Push a k => advance k (arr ++ [a])
  | Settled _ | Await _ => (t, arr)
  end.

(** The awaited call of a suspended callback completes. *)
Definition resume (t : Task) (arr : list A) : Task * list A :=
  match t with
  | Await k => advance k arr
  | Settled _ | Push _ _ => (t, arr)
  end.

(** Runs a callback to its end. *)
Fixpoint finish (t : Task) (arr : list A) : result E unit * list A :=
  match t with
  | Settled r => (r, arr)
  | Push a k => finish k (arr ++ [a])
  | Await k => finish k arr
  end.

(** [Promise.all] rejects with the first rejection it sees. *)
Definition noteRejection (t : Task) (rejection : option E) : option E :=
  match rejection, t with
  | None, Settled (Throws e) => Some e
  | _, _ => rejection
  end.

Fixpoint replaceAt (i : nat) (t : Task) (ts : list Task) : list Task :=
  match ts, i with
  | [], _ => []
  | _ :: ts', O => t :: ts'
  | t0 :: ts', S i' => t0 :: replaceAt i' t ts'
  end.

(** [xs.map(async ...)]: every callback starts, in index order. *)
Fixpoint start (ts : list Task) (arr : list A) (rejection : option E)
  : list Task * list A * option E :=
  match ts with
  | [] => ([], arr, rejection)
  | t :: ts' =>
      let '(t1, arr1) := advance t arr in
      let '(ts1, arr2, rejection2) := start ts' arr1 (noteRejection t1 rejection) in
      (t1 :: ts1, arr2, rejection2)
  end.

Fixpoint eventLoop (schedule : list nat) (ts : list Task) (arr : list A)
    (rejection : option E) : list Task * list A * option E :=
  match schedule with
  | [] => (ts, arr, rejection)
  | i :: schedule' =>
      match nth_error ts i with
      | Some t =>
          let '(t1, arr1) := resume t arr in
          eventLoop schedule' (replaceAt i t1 ts) arr1 (noteRejection t1 rejection)
      | None => eventLoop schedule' ts arr rejection
      end
  end.

Fixpoint drain (ts : list Task) (arr : list A) (rejection : option E)
  : list A * option E :=
  match ts with
  | [] => (arr, rejection)
  | t :: ts' =>
      let '(r, arr1) := finish t arr in
      drain ts' arr1 (noteRejection (Settled r) rejection)
  end.

(** [await Promise.all(callbacks)], with the array the callbacks share,
    empty before the callbacks start. *)
Definition Promise_all (schedule : list nat) (callbacks : list Task)
  : result E unit * list A :=
  let '(ts0, arr0, rejection0) := start callbacks [] None in
  let '(ts1, arr1, rejection1) := eventLoop schedule ts0 arr0 rejection0 in
  let '(arr2, rejection2) := drain ts1 arr1 rejection1 in
  match rejection2 with
  | None => (Ok tt, arr2)
  | Some e => (Throws e, arr2)
  end.

(** Everything a callback pushes, in the order it pushes it. *)
Fixpoint pushes (t : Task) : list A :=
  match t with
  | Settled _ => []
  | Push a k => a :: pushes k
  | Await k => pushes k
  end.

(** A callback that catches every exception never rejects. *)
Fixpoint neverRejects (t : Task) : Prop :=
  match t with
  | Settled (Ok _) => True
  | Settled (Throws _) => False
  | Push _ k => neverRejects k
  | Await k => neverRejects k
  end.

(** A callback that begins with an [await]. *)
Definition suspended (t : Task) : Prop :=
  match t with
  | Await _ => True
  | _ => False
  end.

(** A callback that has settled. *)
Definition settled (t : Task) : Prop :=
  match t with
  | Settled _ => True
  | _ => False
  end.

(** A callback that runs to its end without suspending. *)
Fixpoint awaitFree (t : Task) : Prop :=
  match t with
  | Settled _ => True
  | Push _ k => awaitFree k
  | Await _ => False
  end.

(** A callback with one [await], at its beginning. *)
Definition oneShot (t : Task) : Prop :=
  match t with
  | Await k => awaitFree k
  | _ => False
  end.

End Tasks.

Arguments Settled {E A} r.
Arguments Push {E A} a k.
Arguments Await {E A} k.

End Async.

(** ** The collaborators *)

(** The arguments of [approveERC20IfNot]. *)
Module Approve.
Record t : Type := {
  tokenAddress : string;
  spenderAddress : string;
  amount : string
}.
End Approve.

(** Modelled from the spec: the EVM variant of the unsigned transaction
    (its declaration is not among the sources), with the fields
    [_swapTokens] reads. *)
Record EthUnsignedSwapTransaction : Type := {
  to : string;
  data : string;
  value : option string;
  gasLimit : option string
}.

(** The transaction handed to the signer. *)
Module TransactionRequest.
Record t : Type := {
  to : string;
  data : string;
  value : Z;
  gasLimit : option Z
}.
End TransactionRequest.

(** What [waitForTransaction] resolves to, as far as [_swapTokens] reads it. *)
Record TransactionReceipt : Type := {
  hash : string;
  status : nat
}.

(** What [_swapTokens] returns: [{ transactionHash, status, provider }]. *)
Record SwapResult : Type := {
  transactionHash : string;
  swapStatus : string;
  providerName : string
}.

(** The operations of the signer service, as they are called. *)
Inductive SignerCall : Type :=
| GetWallet
| ApproveERC20IfNot (args : Approve.t)
| BuildAndSendTransaction (unsignedTx : TransactionRequest.t)
| WaitForTransaction (txHash : string).

(** Entries of the DexScreener search response, in the shape the API
    gives them: the body is an object whose [pairs], when present, is an
    array of pair objects.  A body of another shape is outside the
    model. *)
Module DexScreener.
Record Liquidity : Type := { usd : Q }.
Record BaseToken : Type := {
  address : string;            (* the empty string is falsy *)
  symbol : option string
}.
Record Pair : Type := {
  liquidity : option Liquidity;
  baseToken : option BaseToken;
  chainId : string
}.
Record Response : Type := {
  ok : bool;
  statusText : string;
  json : result Exn (option (list Pair))    (* [data.pairs], when present *)
}.
End DexScreener.

(** The chain ids of DexScreener that the service maps.  A chain id that
    is no key of the object maps to nothing (the properties every
    JavaScript object inherits are no chain ids of DexScreener). *)
Definition dexScreenChainIdMap (name : string) : option ChainId :=
  if String.eqb name "solana" then Some SOL
  else if String.eqb name "ethereum" then Some ETHEREUM
  else None.

(** ** A state and exception monad for the async methods *)

Module StateError.
Section Monad.

Variables E H : Type.

Definition M (A : Type) : Type := H -> result E A * H.

Definition ret {A} (a : A) : M A := fun h => (Ok a, h).

Definition throw {A} (e : E) : M A := fun h => (Throws e, h).

Definition bind {A B} (m : M A) (k : A -> M B) : M B :=
  fun h =>
    match m h with
    | (Ok a, h') => k a h'
    | (Throws e, h') => (Throws e, h')
    end.

End Monad.
End StateError.

Arguments StateError.ret {E H A} a.
Arguments StateError.throw {E H A} e.
Arguments StateError.bind {E H A B} m k.

Notation "x <- m ;; k" := (StateError.bind m (fun x => k))
  (at level 61, m at next level, right associativity).
Notation "m ;; k" := (StateError.bind m (fun _ => k))
  (at level 61, right associativity).

(** ** JavaScript [Map] with string keys: entries in insertion order *)

Module JsMap.
Section WithValues.

Variable V : Type.

Definition t : Type := list (string * V).

Definition has (m : t) (key : string) : bool :=
  existsb (fun entry => String.eqb (fst entry) key) m.

(** [set] on a key already present keeps the key's position. *)
Fixpoint set (m : t) (key : string) (v : V) : t :=
  match m with
  | [] => [(key, v)]
  | (k, v0) :: m' =>
      if String.eqb k key then (k, v) :: m' else (k, v0) :: set m' key v
  end.

Definition values (m : t) : list V := map snd m.

End WithValues.
End JsMap.

(** The part of [getTokenInfos] that follows the fetch of the response:
    from the pairs of the response to the tokens returned. *)
Definition uniqueTokens (pairs : list DexScreener.Pair) : list TokenInfo :=
  (* Filter pairs with liquidity over 50k USD *)
  let highLiquidityPairs :=
    filter (fun pair =>
              match DexScreener.liquidity pair with
              | Some liquidity => Qle_bool 50000 (DexScreener.usd liquidity)
              | None => false
              end) pairs in
  (* Extract unique tokens from high liquidity pairs *)
  let tokenMap :=
    fold_left
      (fun (tokenMap : JsMap.t TokenInfo) pair =>
         match DexScreener.baseToken pair with
         | Some baseToken =>
             if negb (String.eqb (DexScreener.address baseToken) "")
                && negb (JsMap.has tokenMap (DexScreener.address baseToken))
             then
               match dexScreenChainIdMap (DexScreener.chainId pair) with
               | Some chainId =>
                   JsMap.set tokenMap (DexScreener.address baseToken)
                     {| address := DexScreener.address baseToken;
                        symbol := DexScreener.symbol baseToken;
                        decimals := 18; (* Most tokens use 18 decimals *)
                        chainId := chainId |}
               | None => tokenMap
               end
             else tokenMap
         | None => tokenMap
         end)
      highLiquidityPairs [] in
  JsMap.values tokenMap.

(** What [getProviders] answers for one provider:
    [{ name, supportedChains }]. *)
Module ProviderInfo.
Record t : Type := {
  name : string;
  supportedChains : list ChainId
}.
End ProviderInfo.

(** ** The service, as far as both variants share it *)

Module Core.
Section Service.

Import Async StateError.

Variable World : Type.
Variable Tx : Type.        (* what [getUnsignedTransaction] resolves to *)
Variable Request : Type.   (* the request DTO of the variant *)

(** Modelled from the spec: the capability interface of a provider
    ([ISwapProvider] of [interfaces/swap.interface], not among the
    sources).  The name and the chains are pure; the other operations
    are calls to the outside world that may throw. *)
Record ISwapProvider : Type := {
  getName : string;
  getSupportedChains : list ChainId;
  isInit : World -> result Exn bool;
  isSwapSupported : World -> TokenInfo -> TokenInfo -> result Exn bool;
  getSwapQuote : World -> SwapParams -> result Exn SwapQuote;
  getUnsignedTransaction : World -> SwapParams -> result Exn Tx
}.

Definition ProviderQuote : Type := ProviderQuoteOf ISwapProvider.

(** Modelled from the spec: the signer service ([signers/eth.service],
    not among the sources), with the four operations [_swapTokens] calls. *)
Record EthService : Type := {
  getWallet : World -> result Exn string;       (* [getWallet().address] *)
  approveERC20IfNot : World -> Approve.t -> result Exn unit;
  buildAndSendTransaction :
    World -> TransactionRequest.t -> result Exn (option string);  (* [signedTx.hash] *)
  waitForTransaction : World -> string -> result Exn (option TransactionReceipt)
}.

(** The payload of [NoValidQuote]: [{ cause: { providers } }]. *)
Inductive NoValidQuoteCause : Type :=
| ProvidersListed (providers : list ISwapProvider)
| ProviderNamesListed (names : list string).

(** What the service throws.  [NoValidQuote] and [NotSupportedSigner] are
    the classes of [errors/error.list]; [Error_] is JavaScript's [Error]
    and [HttpException] that of the framework. *)
Inductive ServiceError : Type :=
| NoValidQuote (cause : NoValidQuoteCause)
| NotSupportedSigner
| Error_ (message : string)
| HttpException (message : string) (code : nat)
| Rethrown (e : Exn).      (* an exception of a collaborator, passed on *)

(** What the outside world does during one request: the state of the
    world and the completion order of concurrent calls at each
    successive [await] of the service. *)
Record Environment : Type := {
  world : nat -> World;
  schedule : nat -> list nat
}.

(** What a request can change: its position in time, the [SwapParams]
    object it has built, and the signer operations it has called. *)
Record Heap : Type := {
  now : nat;
  paramsObj : option SwapParams;
  signerLog : list SignerCall
}.

Definition M : Type -> Type := StateError.M ServiceError Heap.

Variable env : Environment.
Variable providers : list ISwapProvider.
Variable etherService : EthService.
Variable dexScreenerSearch : World -> string -> result Exn DexScreener.Response.

Definition tick (h : Heap) : Heap :=
  {| now := S (now h); paramsObj := paramsObj h; signerLog := signerLog h |}.

(** [await] of one call to a collaborator. *)
Definition call {A} (f : World -> result Exn A) : M A :=
  fun h =>
    (match f (world env (now h)) with
     | Ok a => Ok a
     | Throws e => Throws (Rethrown e)
     end, tick h).

(** A call to the signer service. *)
Definition signer {A} (c : SignerCall) (f : EthService -> World -> result Exn A) : M A :=
  fun h =>
    call (f etherService)
      {| now := now h; paramsObj := paramsObj h; signerLog := signerLog h ++ [c] |}.

(** A call to the signer service that is not awaited. *)
Definition signerSync {A} (c : SignerCall) (f : EthService -> World -> result Exn A) : M A :=
  fun h =>
    (match f etherService (world env (now h)) with
     | Ok a => Ok a
     | Throws e => Throws (Rethrown e)
     end,
     {| now := now h; paramsObj := paramsObj h; signerLog := signerLog h ++ [c] |}).

(** [await Promise.all(xs.map(async ...))], yielding the shared array. *)
Definition fanOut {A} (callbacks : World -> list (Task ServiceError A)) : M (list A) :=
  fun h =>
    let '(r, arr) := Promise_all (schedule env (now h)) (callbacks (world env (now h))) in
    (match r with
     | Ok _ => Ok arr
     | Throws e => Throws e
     end, tick h).

(** The request's [SwapParams] object is created, or assigned to. *)
Definition store (params : SwapParams) : M SwapParams :=
  fun h =>
    (Ok params,
     {| now := now h; paramsObj := Some params; signerLog := signerLog h |}).

Definition getTokenInfos (searchString : string) : M (list TokenInfo) :=
  response <- call (fun w => dexScreenerSearch w searchString) ;;
  if negb (DexScreener.ok response)
  then throw (Error_ ("DexScreener API error: " ++ DexScreener.statusText response))
  else
    data <- call (fun _ => DexScreener.json response) ;;
    let pairs := match data with Some pairs => pairs | None => [] end in
    ret (uniqueTokens pairs).

(** The callback of [getActiveProviders], answered in world [w]. *)
Definition activeCallback (w : World) (provider : ISwapProvider)
  : Task ServiceError ISwapProvider :=
  Await                                           (* await provider.isInit() *)
    (match isInit provider w with
     | Ok initialised =>
         if initialised
         then Push provider (Settled (Ok tt))
         else Settled (Ok tt)
     | Throws error => Settled (Ok tt)            (* caught, logged *)
     end).

Definition getActiveProviders : M (list ISwapProvider) :=
  fanOut (fun w => map (activeCallback w) providers).

(** The callback of [getQuotesFromProviders], answered in world [w]. *)
Definition quoteCallback (w : World) (params : SwapParams) (provider : ISwapProvider)
  : Task ServiceError ProviderQuote :=
  Await                                           (* await provider.isSwapSupported(..) *)
    (match isSwapSupported provider w (fromToken params) (toToken params) with
     | Ok isSupported =>
         if negb isSupported
         then Settled (Ok tt)                     (* logged; return *)
         else
           Await                                  (* await provider.getSwapQuote(params) *)
             (match getSwapQuote provider w params with
              | Ok quote =>
                  Push {| quote := quote; provider := provider |}
                       (Settled (Ok tt))
              | Throws error => Settled (Ok tt)   (* caught, logged *)
              end)
     | Throws error => Settled (Ok tt)            (* caught, logged *)
     end).

Definition getQuotesFromProviders (params : SwapParams) : M (list ProviderQuote) :=
  activeProviders <- getActiveProviders ;;
  fanOut (fun w => map (quoteCallback w params) activeProviders).

(** The reducer of [getBestQuote]. *)
Definition better (best current : ProviderQuote) : ProviderQuote :=
  (* Compare output amounts *)
  if BigNumber.gt (outputAmount current) (outputAmount best)
  then current
  (* If output amounts are equal, compare price impact *)
  else if BigNumber.eq (outputAmount current) (outputAmount best)
          && BigNumber.lt (fee current) (fee best)
  then current
  else best.

Definition getBestQuote (quotes : list ProviderQuote) : option ProviderQuote :=
  match quotes with
  | [] => None
  | first :: rest => Some (fold_left better rest first)    (* quotes.reduce(..) *)
  end.

Definition getProviders : M (list ProviderInfo.t) :=
  activeProviders <- getActiveProviders ;;
  ret (map (fun provider =>
              {| ProviderInfo.name := getName provider;
                 ProviderInfo.supportedChains := getSupportedChains provider |})
           activeProviders).

(** The two methods in which the variants differ. *)
Variable createSwapParams : Request -> M SwapParams.
Variable _swapTokens : ISwapProvider -> SwapParams -> M SwapResult.

Definition swapTokensByProvider (provider : string) (request : Request) : M SwapResult :=
  targetProviders <- getActiveProviders ;;
  match find (fun checkingProvider => String.eqb (getName checkingProvider) provider)
             targetProviders with
  | None => throw (Error_ ("Unsupported provider: " ++ provider))
  | Some targetProvider =>
      params <- createSwapParams request ;;
      _swapTokens targetProvider params
  end.

Definition swapTokens (request : Request) : M SwapResult :=
  params <- createSwapParams request ;;
  quotes <- getQuotesFromProviders params ;;
  match getBestQuote quotes with
  | None =>
      activeProviders <- getActiveProviders ;;
      throw (NoValidQuote (ProvidersListed activeProviders))
  | Some bestQuote => _swapTokens (provider bestQuote) params
  end.

End Service.

Arguments NoValidQuote {World Tx} cause.
Arguments NotSupportedSigner {World Tx}.
Arguments Error_ {World Tx} message.
Arguments HttpException {World Tx} message code.
Arguments Rethrown {World Tx} e.
Arguments ProvidersListed {World Tx} providers.
Arguments ProviderNamesListed {World Tx} names.
Arguments store {World Tx} params.
Arguments call {World Tx} env {A} f.
Arguments signer {World Tx} env etherService {A} c f.
Arguments signerSync {World Tx} env etherService {A} c f.
Arguments fanOut {World Tx} env {A} callbacks.

End Core.

(** The answer of the quote operation. *)
Record QuoteResponse : Type := {
  amountOut : string;
  normalAmountOut : option string;     (* only in the meta-swap-api variant *)
  quoteProvider : string;
  quoteFee : string;
  quoteEstimatedGas : option string
}.

(** [if (!chain) chain = ChainId.ETHEREUM]. *)
Definition orEthereum (chain : option ChainId) : ChainId :=
  match chain with
  | Some c => c
  | None => ETHEREUM
  end.

(** [params.recipient = address]. *)
Definition setRecipient (params : SwapParams) (address : string) : SwapParams :=
  {| fromToken := fromToken params;
     toToken := toToken params;
     amount := amount params;
     slippageTolerance := slippageTolerance params;
     recipient := Some address |}.

(** The approval amount both variants pass to [approveERC20IfNot]. *)
Definition approvalAmount : string :=
  "115792089237316195423570985008687907853269984665640564039457584007913129639935".

(** ** tee-txn-signer *)

Module Tee.
Section Service.

Import StateError.

Variable World : Type.

(** [SwapRequestDto | QuoteRequestDto]: a quote request is a swap request
    without the [slippage] property. *)
Record RequestDto : Type := {
  chainIn : option ChainId;        (* [None]: falsy *)
  tokenIn : string;
  chainOut : option ChainId;
  tokenOut : string;
  amountIn : string;               (* input amount in smallest denomination *)
  slippage : option Q
}.

(** A provider of this variant builds EVM transactions only: [_swapTokens]
    reads [tx.to], [tx.data], [tx.value] and [tx.gasLimit] of what
    [getUnsignedTransaction] resolves to without telling variants apart. *)
Definition Tx : Type := EthUnsignedSwapTransaction.

Definition ISwapProvider : Type := Core.ISwapProvider World Tx.
Definition EthService : Type := Core.EthService World.
Definition Environment : Type := Core.Environment World.
Definition M : Type -> Type := Core.M World Tx.

Variable env : Environment.
Variable providers : list ISwapProvider.
Variable etherService : EthService.
Variable toBigInt : string -> result Exn Z.            (* [ethers.toBigInt] *)
Variable toString : BigNumber.t -> string.              (* [BigNumber.toString] *)
Variable newBigNumber : string -> BigNumber.value.      (* [new BigNumber(s)] *)

(** A library function is called: it returns, or its exception passes on. *)
Definition lib {A} (r : result Exn A) : M A :=
  match r with
  | Ok a => ret a
  | Throws e => throw (Core.Rethrown e)
  end.

Definition createSwapParams (request : RequestDto) : M SwapParams :=
  let chainIn := orEthereum (chainIn request) in
  let chainOut := orEthereum (chainOut request) in
  Core.store
    {| fromToken :=
         {| address := tokenIn request; symbol := None;
            chainId := chainIn; decimals := 18 |};
       toToken :=
         {| address := tokenOut request; symbol := None;
            chainId := chainOut; decimals := 18 |};
       amount := newBigNumber (amountIn request);
       slippageTolerance :=
         match slippage request with Some s => s | None => 0.5%Q end;
       recipient := None |}.

Definition _swapTokens (provider : ISwapProvider) (params : SwapParams) : M SwapResult :=
  (* Inject receipient *)
  walletAddress <- Core.signerSync env etherService GetWallet (@Core.getWallet World) ;;
  params <- Core.store (setRecipient params walletAddress) ;;
  tx <- Core.call env (fun w => Core.getUnsignedTransaction provider w params) ;;
  let approval :=
    {| Approve.tokenAddress := address (fromToken params);
       Approve.spenderAddress := to tx;
       Approve.amount := approvalAmount |} in
  Core.signer env etherService (ApproveERC20IfNot approval)
    (fun s w => Core.approveERC20IfNot s w approval) ;;
  (* Create and sign transaction *)
  txValue <- match value tx with
             | Some v => if negb (String.eqb v "") then lib (ethers.parseEther v) else ret 0%Z
             | None => ret 0%Z
             end ;;
  txGasLimit <- match gasLimit tx with
                | Some g =>
                    if negb (String.eqb g "")
                    then (n <- lib (toBigInt g) ;; ret (Some n))
                    else ret None
                | None => ret None
                end ;;
  let unsignedTx :=
    {| TransactionRequest.to := to tx;
       TransactionRequest.data := data tx;
       TransactionRequest.value := txValue;
       TransactionRequest.gasLimit := txGasLimit |} in
  (* Sign and send transaction *)
  signedTx <- Core.signer env etherService (BuildAndSendTransaction unsignedTx)
                (fun s w => Core.buildAndSendTransaction s w unsignedTx) ;;
  match signedTx with
  | None => throw (Core.HttpException "Cannot send transaction" 404)
  | Some signedTxHash =>
      receipt <- Core.signer env etherService (WaitForTransaction signedTxHash)
                   (fun s w => Core.waitForTransaction s w signedTxHash) ;;
      match receipt with
      | None => throw (Core.HttpException "Cannot find transaction receipt" 404)
      | Some receipt =>
          ret {| transactionHash := hash receipt;
                 swapStatus := if (status receipt =? 1)%nat then "success" else "failed";
                 providerName := Core.getName provider |}
      end
  end.

Definition getActiveProviders : M (list ISwapProvider) :=
  Core.getActiveProviders env providers.

Definition getQuotesFromProviders (params : SwapParams)
  : M (list (Core.ProviderQuote World Tx)) :=
  Core.getQuotesFromProviders env providers params.

Definition swapTokensByProvider (provider : string) (request : RequestDto) : M SwapResult :=
  Core.swapTokensByProvider env providers createSwapParams _swapTokens provider request.

Definition swapTokens (request : RequestDto) : M SwapResult :=
  Core.swapTokens env providers createSwapParams _swapTokens request.

Definition getQuote (request : RequestDto) : M QuoteResponse :=
  params <- createSwapParams request ;;
  quotes <- getQuotesFromProviders params ;;
  match Core.getBestQuote quotes with
  | None =>
      activeProviders <- getActiveProviders ;;
      throw (Core.NoValidQuote
               (Core.ProviderNamesListed
                  (map (fun provider => Core.getName provider) activeProviders)))
  | Some bestQuote =>
      ret {| amountOut := toString (outputAmount bestQuote);
             normalAmountOut := None;
             quoteProvider := Core.getName (provider bestQuote);
             quoteFee := toString (fee bestQuote);
             quoteEstimatedGas := option_map toString (estimatedGas bestQuote) |}
  end.

Definition getProviders : M (list ProviderInfo.t) :=
  Core.getProviders env providers.

End Service.

Arguments createSwapParams {World} newBigNumber request.

End Tee.

(** ** meta-swap-api *)

Module Meta.
Section Service.

Import StateError.

Variable World : Type.

(** Modelled from the spec: the request DTO of this variant is not among
    the sources; its fields are those [createSwapParams] reads. *)
Record RequestDto : Type := {
  chainIn : option ChainId;        (* [None]: falsy *)
  tokenIn : string;
  chainOut : option ChainId;
  tokenOut : string;
  normalAmountIn : string;         (* input amount in whole tokens *)
  slippage : option Q
}.

(** Modelled from the spec: the Solana variant of the unsigned
    transaction, told apart by its [instructions] property. *)
Record SolUnsignedSwapTransaction : Type := {
  instructions : list string
}.

(** A provider of this variant builds an EVM or a Solana transaction. *)
Inductive UnsignedSwapTransaction : Type :=
| Eth (tx : EthUnsignedSwapTransaction)
| Sol (tx : SolUnsignedSwapTransaction).

Definition Tx : Type := UnsignedSwapTransaction.

Definition ISwapProvider : Type := Core.ISwapProvider World Tx.
Definition EthService : Type := Core.EthService World.
Definition Environment : Type := Core.Environment World.
Definition M : Type -> Type := Core.M World Tx.

Variable env : Environment.
Variable providers : list ISwapProvider.
Variable etherService : EthService.
Variable getDecimals : World -> string -> ChainId -> result Exn nat.  (* [EvmHelper.getDecimals] *)
Variable toBigInt : string -> result Exn Z.            (* [ethers.toBigInt] *)

(** A library function is called: it returns, or its exception passes on. *)
Definition lib {A} (r : result Exn A) : M A :=
  match r with
  | Ok a => ret a
  | Throws e => throw (Core.Rethrown e)
  end.

Definition createSwapParams (request : RequestDto) : M SwapParams :=
  let chainIn := orEthereum (chainIn request) in
  let chainOut := orEthereum (chainOut request) in
  tokenInDecimals <- Core.call env (fun w => getDecimals w (tokenIn request) chainIn) ;;
  tokenOutDecimals <- Core.call env (fun w => getDecimals w (tokenOut request) chainOut) ;;
  baseAmount <- lib (ethers.parseUnits (normalAmountIn request) tokenInDecimals) ;;
  Core.store
    {| fromToken :=
         {| address := tokenIn request; symbol := None;
            chainId := chainIn; decimals := tokenInDecimals |};
       toToken :=
         {| address := tokenOut request; symbol := None;
            chainId := chainOut; decimals := tokenOutDecimals |};
       (* the integer is printed in base 10 and read back *)
       amount := BigNumber.Finite (inject_Z baseAmount);
       slippageTolerance :=
         match slippage request with Some s => s | None => 0.5%Q end;
       recipient := None |}.

Definition _swapTokens (provider : ISwapProvider) (params : SwapParams) : M SwapResult :=
  (* Inject receipient *)
  walletAddress <- Core.signerSync env etherService GetWallet (@Core.getWallet World) ;;
  params <- Core.store (setRecipient params walletAddress) ;;
  tx <- Core.call env (fun w => Core.getUnsignedTransaction provider w params) ;;
  match tx with
  | Sol _ =>
      (* Type guard to check if it's a Solana transaction *)
      throw Core.NotSupportedSigner
  | Eth tx =>
      let approval :=
        {| Approve.tokenAddress := address (fromToken params);
           Approve.spenderAddress := to tx;
           Approve.amount := approvalAmount |} in
      Core.signer env etherService (ApproveERC20IfNot approval)
        (fun s w => Core.approveERC20IfNot s w approval) ;;
      (* Create and sign transaction *)
      txValue <- match value tx with
                 | Some v =>
                     if negb (String.eqb v "") then lib (ethers.parseEther v) else ret 0%Z
                 | None => ret 0%Z
                 end ;;
      txGasLimit <- match gasLimit tx with
                    | Some g =>
                        if negb (String.eqb g "")
                        then (n <- lib (toBigInt g) ;; ret (Some n))
                        else ret None
                    | None => ret None
                    end ;;
      let unsignedTx :=
        {| TransactionRequest.to := to tx;
           TransactionRequest.data := data tx;
           TransactionRequest.value := txValue;
           TransactionRequest.gasLimit := txGasLimit |} in
      (* Sign and send transaction *)
      signedTx <- Core.signer env etherService (BuildAndSendTransaction unsignedTx)
                    (fun s w => Core.buildAndSendTransaction s w unsignedTx) ;;
      match signedTx with
      | None => throw (Core.HttpException "Cannot send transaction" 404)
      | Some signedTxHash =>
          receipt <- Core.signer env etherService (WaitForTransaction signedTxHash)
                       (fun s w => Core.waitForTransaction s w signedTxHash) ;;
          match receipt with
          | None => throw (Core.HttpException "Cannot find transaction receipt" 404)
          | Some receipt =>
              ret {| transactionHash := hash receipt;
                     swapStatus := if (status receipt =? 1)%nat then "success" else "failed";
                     providerName := Core.getName provider |}
          end
      end
  end.

Definition getActiveProviders : M (list ISwapProvider) :=
  Core.getActiveProviders env providers.

Definition getQuotesFromProviders (params : SwapParams)
  : M (list (Core.ProviderQuote World Tx)) :=
  Core.getQuotesFromProviders env providers params.

Definition swapTokensByProvider (provider : string) (request : RequestDto) : M SwapResult :=
  Core.swapTokensByProvider env providers createSwapParams _swapTokens provider request.

Definition swapTokens (request : RequestDto) : M SwapResult :=
  Core.swapTokens env providers createSwapParams _swapTokens request.

Variable toString : BigNumber.t -> string.              (* [BigNumber.toString()] *)
Variable toString10 : BigNumber.t -> string.            (* [BigNumber.toString(10)] *)
Variable formatUnits : string -> nat -> result Exn string.   (* [ethers.formatUnits] *)

Definition getQuote (request : RequestDto) : M QuoteResponse :=
  params <- createSwapParams request ;;
  quotes <- getQuotesFromProviders params ;;
  match Core.getBestQuote quotes with
  | None =>
      activeProviders <- getActiveProviders ;;
      throw (Core.NoValidQuote
               (Core.ProviderNamesListed
                  (map (fun provider => Core.getName provider) activeProviders)))
  | Some bestQuote =>
      normalAmountOut <- lib (formatUnits (toString10 (outputAmount bestQuote))
                                          (decimals (toToken params))) ;;
      ret {| amountOut := toString10 (outputAmount bestQuote);
             normalAmountOut := Some normalAmountOut;
             quoteProvider := Core.getName (provider bestQuote);
             quoteFee := toString (fee bestQuote);
             quoteEstimatedGas := option_map toString10 (estimatedGas bestQuote) |}
  end.

Definition getProviders : M (list ProviderInfo.t) :=
  Core.getProviders env providers.

End Service.
End Meta.

(** * Example data *)

Module Example.

Local Open Scope string_scope.

(** The successive states of the world are numbered. *)
Definition World : Type := nat.

Definition start : Core.Heap :=
  {| Core.now := 0; Core.paramsObj := None; Core.signerLog := [] |}.

(** Calls complete in the order in which they were made. *)
Definition inOrder : Core.Environment World :=
  {| Core.world := fun n => n; Core.schedule := fun _ => [] |}.

(** The call of the second provider completes before that of the first. *)
Definition secondFirst : Core.Environment World :=
  {| Core.world := fun n => n; Core.schedule := fun _ => [1; 0] |}.

Definition walletAddress : string := "0x5167e2".

Definition etherService : Core.EthService World :=
  {| Core.getWallet := fun _ => Ok walletAddress;
     Core.approveERC20IfNot := fun _ _ => Ok tt;
     Core.buildAndSendTransaction := fun _ _ => Ok (Some "0x7a11");
     Core.waitForTransaction :=
       fun _ txHash => Ok (Some {| hash := txHash; status := 1 |}) |}.

Definition toBigInt (s : string) : result Exn Z :=
  Ok (Numeral.digitsValue (list_ascii_of_string s)).

Definition toString (q : BigNumber.t) : string := "".

(** The constructor [new BigNumber(s)] as the scenarios use it: their
    amount strings are in plain decimal notation, which the constructor
    reads as the number written. *)
Definition newBigNumber (s : string) : BigNumber.value :=
  match Numeral.decimalValue s with
  | Some q => BigNumber.Finite q
  | None => BigNumber.NaN
  end.

Definition routerTx : EthUnsignedSwapTransaction :=
  {| to := "0x1111111254"; data := "0x12aa3caf"; value := None; gasLimit := None |}.

Module Tee.

(** A provider that is up, supports every pair and quotes [out] for [fee]. *)
Definition quoting (name : string) (out fee : Q) : Tee.ISwapProvider World :=
  {| Core.getName := name;
     Core.getSupportedChains := [ETHEREUM];
     Core.isInit := fun _ => Ok true;
     Core.isSwapSupported := fun _ _ _ => Ok true;
     Core.getSwapQuote :=
       fun _ _ => Ok {| outputAmount := out; fee := fee; estimatedGas := None |};
     Core.getUnsignedTransaction := fun _ _ => Ok routerTx |}.

Definition okx : Tee.ISwapProvider World := quoting "okx" 1000 5.
Definition kyber : Tee.ISwapProvider World := quoting "kyber" 1000 3.

(** A provider whose quote call throws. *)
Definition oneInchV6 : Tee.ISwapProvider World :=
  {| Core.getName := "1inch";
     Core.getSupportedChains := [ETHEREUM];
     Core.isInit := fun _ => Ok true;
     Core.isSwapSupported := fun _ _ _ => Ok true;
     Core.getSwapQuote := fun _ _ => Throws "429 Too Many Requests"%string;
     Core.getUnsignedTransaction := fun _ _ => Ok routerTx |}.

(** A provider that is down in the worlds 0 and 1 and up from world 2 on. *)
Definition openOcean : Tee.ISwapProvider World :=
  {| Core.getName := "openocean";
     Core.getSupportedChains := [ETHEREUM];
     Core.isInit := fun w => Ok (2 <=? w)%nat;
     Core.isSwapSupported := fun _ _ _ => Ok true;
     Core.getSwapQuote :=
       fun _ _ => Ok {| outputAmount := 990%Q; fee := 1%Q; estimatedGas := None |};
     Core.getUnsignedTransaction := fun _ _ => Ok routerTx |}.

Definition request (amountIn : string) : Tee.RequestDto :=
  {| Tee.chainIn := Some ETHEREUM; Tee.tokenIn := "0xa0b86991";
     Tee.chainOut := None; Tee.tokenOut := "0xdac17f95";
     Tee.amountIn := amountIn; Tee.slippage := None |}.

(** The parameters built for [request], when the amount string reads as
    [amount]. *)
Definition built (amount : BigNumber.value) : SwapParams :=
  {| fromToken := {| address := "0xa0b86991"; symbol := None; decimals := 18;
                     chainId := ETHEREUM |};
     toToken := {| address := "0xdac17f95"; symbol := None; decimals := 18;
                   chainId := ETHEREUM |};
     amount := amount;
     slippageTolerance := 0.5%Q;
     recipient := None |}.

Definition okxQuote : Core.ProviderQuote World Tee.Tx :=
  {| quote := {| outputAmount := 1000%Q; fee := 5%Q; estimatedGas := None |};
     provider := okx |}.
Definition kyberQuote : Core.ProviderQuote World Tee.Tx :=
  {| quote := {| outputAmount := 1000%Q; fee := 3%Q; estimatedGas := None |};
     provider := kyber |}.

End Tee.

Module Meta.

(** A provider that builds Solana transactions. *)
Definition jupiter : Meta.ISwapProvider World :=
  {| Core.getName := "jupiter";
     Core.getSupportedChains := [SOL];
     Core.isInit := fun _ => Ok true;
     Core.isSwapSupported := fun _ _ _ => Ok true;
     Core.getSwapQuote :=
       fun _ _ => Ok {| outputAmount := 1000%Q; fee := 5%Q; estimatedGas := None |};
     Core.getUnsignedTransaction :=
       fun _ _ => Ok (Meta.Sol {| Meta.instructions := ["0x02000000"] |}) |}.

(** A provider that builds EVM transactions. *)
Definition kyber : Meta.ISwapProvider World :=
  {| Core.getName := "kyber";
     Core.getSupportedChains := [ETHEREUM];
     Core.isInit := fun _ => Ok true;
     Core.isSwapSupported := fun _ _ _ => Ok true;
     Core.getSwapQuote :=
       fun _ _ => Ok {| outputAmount := 1000%Q; fee := 3%Q; estimatedGas := None |};
     Core.getUnsignedTransaction := fun _ _ => Ok (Meta.Eth routerTx) |}.

Definition getDecimals (w : World) (tokenAddress : string) (chain : ChainId)
  : result Exn nat := Ok 6.

Definition request (normalAmountIn : string) : Meta.RequestDto :=
  {| Meta.chainIn := Some ETHEREUM; Meta.tokenIn := "0xa0b86991";
     Meta.chainOut := None; Meta.tokenOut := "0xdac17f95";
     Meta.normalAmountIn := normalAmountIn; Meta.slippage := None |}.

End Meta.

(** A pair with too little liquidity, and two pairs of one token
    address on two chains. *)
Definition thinPair : DexScreener.Pair :=
  {| DexScreener.liquidity := Some {| DexScreener.usd := 1200%Q |};
     DexScreener.baseToken :=
       Some {| DexScreener.address := "0x95ad61b0"; DexScreener.symbol := Some "SHIB" |};
     DexScreener.chainId := "ethereum" |}.

Definition pepeOnEthereum : DexScreener.Pair :=
  {| DexScreener.liquidity := Some {| DexScreener.usd := 120000%Q |};
     DexScreener.baseToken :=
       Some {| DexScreener.address := "0x69825081"; DexScreener.symbol := Some "PEPE" |};
     DexScreener.chainId := "ethereum" |}.

Definition pepeOnSolana : DexScreener.Pair :=
  {| DexScreener.liquidity := Some {| DexScreener.usd := 80000%Q |};
     DexScreener.baseToken :=
       Some {| DexScreener.address := "0x69825081"; DexScreener.symbol := Some "PEPE" |};
     DexScreener.chainId := "solana" |}.

Definition dexScreenerSearch (w : World) (searchString : string)
  : result Exn DexScreener.Response :=
  Ok {| DexScreener.ok := true;
        DexScreener.statusText := "OK";
        DexScreener.json := Ok (Some [thinPair; pepeOnSolana; pepeOnEthereum]) |}.

Definition pepe : TokenInfo :=
  {| address := "0x69825081"; symbol := Some "PEPE"; decimals := 18; chainId := SOL |}.

Definition params : SwapParams :=
  {| fromToken := {| address := "0xa0b86991"; symbol := None; decimals := 6;
                     chainId := ETHEREUM |};
     toToken := {| address := "0xdac17f95"; symbol := None; decimals := 6;
                   chainId := ETHEREUM |};
     amount := BigNumber.Finite 1500000%Q;
     slippageTolerance := 0.5%Q;
     recipient := None |}.

(** A signer whose approval call throws. *)
Definition refusingService : Core.EthService World :=
  {| Core.getWallet := fun _ => Ok walletAddress;
     Core.approveERC20IfNot := fun _ _ => Throws "insufficient funds for gas";
     Core.buildAndSendTransaction := fun _ _ => Ok (Some "0x7a11");
     Core.waitForTransaction :=
       fun _ txHash => Ok (Some {| hash := txHash; status := 1 |}) |}.

(** A signer whose submission resolves to nothing. *)
Definition droppingService : Core.EthService World :=
  {| Core.getWallet := fun _ => Ok walletAddress;
     Core.approveERC20IfNot := fun _ _ => Ok tt;
     Core.buildAndSendTransaction := fun _ _ => Ok None;
     Core.waitForTransaction :=
       fun _ txHash => Ok (Some {| hash := txHash; status := 1 |}) |}.

(** A signer whose transactions are mined and reverted. *)
Definition revertedService : Core.EthService World :=
  {| Core.getWallet := fun _ => Ok walletAddress;
     Core.approveERC20IfNot := fun _ _ => Ok tt;
     Core.buildAndSendTransaction := fun _ _ => Ok (Some "0x7a11");
     Core.waitForTransaction :=
       fun _ txHash => Ok (Some {| hash := txHash; status := 0 |}) |}.

Definition formatUnits (s : string) (unit : nat) : result Exn string := Ok s.

(** A response that is not successful. *)
Definition rateLimited (w : World) (searchString : string)
  : result Exn DexScreener.Response :=
  Ok {| DexScreener.ok := false;
        DexScreener.statusText := "Too Many Requests";
        DexScreener.json := Ok (Some [pepeOnEthereum]) |}.

End Example.

(** * Specification vocabulary *)

Module Spec.
Section Vocabulary.

Variables World Tx : Type.

Local Abbreviation ISwapProvider := (Core.ISwapProvider World Tx).
Local Abbreviation ProviderQuote := (Core.ProviderQuote World Tx).

(** [isInit()] returns [true] in world [w]. *)
Definition isActive (w : World) (p : ISwapProvider) : bool :=
  match Core.isInit p w with
  | Ok true => true
  | _ => false
  end.

(** The entry of provider [p] in a quote round answered in world [w]:
    its tagged quote when [isSwapSupported] returns [true] and
    [getSwapQuote] succeeds, and nothing otherwise. *)
Definition entryOf (w : World) (params : SwapParams) (p : ISwapProvider)
  : list ProviderQuote :=
  match Core.isSwapSupported p w (fromToken params) (toToken params) with
  | Ok true =>
      match Core.getSwapQuote p w params with
      | Ok q => [ {| quote := q; provider := p |} ]
      | Throws _ => []
      end
  | _ => []
  end.

(** [best], at index [i] of [l], is what the selector is to return on [l]:
    its output is the greatest, its fee the least among the quotes of
    that output, and no earlier quote has the same output and fee. *)
Definition selects (l : list ProviderQuote) (i : nat) (best : ProviderQuote) : Prop :=
  nth_error l i = Some best /\
  (forall q, In q l -> outputAmount q <= outputAmount best)%Q /\
  (forall q, In q l -> outputAmount q == outputAmount best -> fee best <= fee q)%Q /\
  (forall j q, (j < i)%nat -> nth_error l j = Some q ->
     ~ (outputAmount q == outputAmount best /\ fee q == fee best)%Q).

End Vocabulary.

(** The token a pair of the search response stands for: the base token
    of a pair with liquidity of at least 50,000 USD, a base token with
    an address, and a chain name that is mapped. *)
Definition listed (pair : DexScreener.Pair) : option TokenInfo :=
  match DexScreener.liquidity pair, DexScreener.baseToken pair,
        dexScreenChainIdMap (DexScreener.chainId pair) with
  | Some liquidity, Some baseToken, Some chain =>
      if Qle_bool 50000 (DexScreener.usd liquidity)
         && negb (String.eqb (DexScreener.address baseToken) "")
      then Some {| address := DexScreener.address baseToken;
                   symbol := DexScreener.symbol baseToken;
                   decimals := 18;
                   chainId := chain |}
      else None
  | _, _, _ => None
  end.

(** Entering the token of a pair, when it has one, under its address,
    unless the address is entered already. *)
Definition insertListed (tokenMap : JsMap.t TokenInfo) (pair : DexScreener.Pair)
  : JsMap.t TokenInfo :=
  match listed pair with
  | Some token =>
      if JsMap.has tokenMap (address token)
      then tokenMap
      else JsMap.set tokenMap (address token) token
  | None => tokenMap
  end.

(** [token] is the token of the pair at index [i] of [pairs], and of no
    earlier pair of [pairs] has the token the same address. *)
Definition firstListed (pairs : list DexScreener.Pair) (token : TokenInfo) : Prop :=
  exists i pair,
    nth_error pairs i = Some pair /\
    listed pair = Some token /\
    forall j pair' token',
      (j < i)%nat -> nth_error pairs j = Some pair' -> listed pair' = Some token' ->
      address token' <> address token.

(** What holds of the map once the pairs [pre] have been gone through. *)
Definition entered (pre : list DexScreener.Pair) (m : JsMap.t TokenInfo) : Prop :=
  NoDup (map fst m)
  /\ (forall key token, In (key, token) m ->
        key = address token /\ firstListed pre token)
  /\ (forall pair token, In pair pre -> listed pair = Some token ->
        In (address token) (map fst m)).

(** The approval both variants ask of the signer before a swap of
    [params] through the transaction [tx]. *)
Definition approvalOf (params : SwapParams) (tx : EthUnsignedSwapTransaction) : Approve.t :=
  {| Approve.tokenAddress := address (fromToken params);
     Approve.spenderAddress := to tx;
     Approve.amount := approvalAmount |}.

(** A signer operation that submits or confirms the swap transaction. *)
Definition submits (c : SignerCall) : Prop :=
  (exists unsignedTx, c = BuildAndSendTransaction unsignedTx)
  \/ (exists txHash, c = WaitForTransaction txHash).

(** The signer log of an execution that reaches the approval step. *)
Definition approvesOnce (params : SwapParams) (tx : EthUnsignedSwapTransaction)
    (before after : Core.Heap) : Prop :=
  exists rest,
    Core.signerLog after
    = Core.signerLog before ++ [GetWallet; ApproveERC20IfNot (approvalOf params tx)] ++ rest
    /\ Forall submits rest.

(** [after] is [before] but for [recipient]. *)
Definition sameButRecipient (before after : SwapParams) : Prop :=
  fromToken after = fromToken before /\
  toToken after = toToken before /\
  amount after = amount before /\
  slippageTolerance after = slippageTolerance before.

(** [best] is the best quote of the round of [params] that begins in
    [h1]: the round returns [quotes], [getBestQuote] selects [best]
    from them, no quote of the round has a greater output, and the
    provider of [best] is a provider of the registry that was active
    in the round. *)
Definition bestOfRound {World Tx : Type} (env : Core.Environment World)
    (providers : list (Core.ISwapProvider World Tx)) (params : SwapParams)
    (h1 : Core.Heap) (quotes : list (Core.ProviderQuote World Tx))
    (best : Core.ProviderQuote World Tx) : Prop :=
  fst (Core.getQuotesFromProviders env providers params h1) = Ok quotes
  /\ Core.getBestQuote quotes = Some best
  /\ In best quotes
  /\ (forall q, In q quotes -> (outputAmount q <= outputAmount best)%Q)
  /\ In (provider best) providers
  /\ Core.isInit (provider best) (Core.world env (Core.now h1)) = Ok true.

(** Two selections offer the same: both are missing, or both have the
    same output for the same fee. *)
Definition sameOffer {P P' : Type}
    (a : option (ProviderQuoteOf P)) (b : option (ProviderQuoteOf P')) : Prop :=
  match a, b with
  | Some x, Some y =>
      (outputAmount x == outputAmount y)%Q /\ (fee x == fee y)%Q
  | None, None => True
  | _, _ => False
  end.

(** A quote that would not replace [best] in the selection: its output
    is lower, or the same for a fee that is not lower. *)
Definition noBetter {P : Type} (best q : ProviderQuoteOf P) : Prop :=
  (outputAmount q < outputAmount best)%Q
  \/ ((outputAmount q == outputAmount best)%Q /\ (fee best <= fee q)%Q).

(** What [getProviders] answers for the provider [p]. *)
Definition describe {World Tx : Type} (p : Core.ISwapProvider World Tx) : ProviderInfo.t :=
  {| ProviderInfo.name := Core.getName p;
     ProviderInfo.supportedChains := Core.getSupportedChains p |}.

(** The transaction handed to the signer for the provider's [tx]: its
    target and its data, its value read as ether, or zero when the
    provider gives none, and its gas limit, when the provider gives one. *)
Definition signed (toBigInt : string -> result Exn Z)
    (tx : EthUnsignedSwapTransaction) (unsignedTx : TransactionRequest.t) : Prop :=
  TransactionRequest.to unsignedTx = to tx
  /\ TransactionRequest.data unsignedTx = data tx
  /\ match value tx with
     | Some v =>
         if String.eqb v ""
         then TransactionRequest.value unsignedTx = 0%Z
         else ethers.parseEther v = Ok (TransactionRequest.value unsignedTx)
     | None => TransactionRequest.value unsignedTx = 0%Z
     end
  /\ match gasLimit tx with
     | Some g =>
         if String.eqb g ""
         then TransactionRequest.gasLimit unsignedTx = None
         else exists n,
                toBigInt g = Ok n /\ TransactionRequest.gasLimit unsignedTx = Some n
     | None => TransactionRequest.gasLimit unsignedTx = None
     end.

(** The signer operations of one execution that begins in [h], in the
    order of the calls: the wallet is read, then the approval is asked
    for, then, once the approval has returned, the transaction is
    submitted, then, once the submission has returned a hash, the
    receipt of that hash is awaited. *)
Definition inProtocol {World : Type} (env : Core.Environment World)
    (etherService : Core.EthService World) (h : Core.Heap) (calls : list SignerCall)
  : Prop :=
  match calls with
  | [GetWallet] => True
  | [GetWallet; ApproveERC20IfNot _] => True
  | [GetWallet; ApproveERC20IfNot approval; BuildAndSendTransaction _] =>
      Core.approveERC20IfNot etherService (Core.world env (S (Core.now h))) approval
      = Ok tt
  | [GetWallet; ApproveERC20IfNot approval; BuildAndSendTransaction unsignedTx;
     WaitForTransaction txHash] =>
      Core.approveERC20IfNot etherService (Core.world env (S (Core.now h))) approval
      = Ok tt
      /\ Core.buildAndSendTransaction etherService (Core.world env (S (S (Core.now h))))
           unsignedTx
         = Ok (Some txHash)
  | _ => False
  end.

(** [status: receipt.status === 1 ? 'success' : 'failed']. *)
Definition statusOf (receipt : TransactionReceipt) : string :=
  if (status receipt =? 1)%nat then "success" else "failed".

(** Errors of the two variants that are the same error: the same class
    with the same message, code or cause, the providers of a cause
    being compared by name. *)
Definition sameError {World Tx Tx' : Type}
    (e : Core.ServiceError World Tx) (e' : Core.ServiceError World Tx') : Prop :=
  match e, e' with
  | Core.NoValidQuote (Core.ProvidersListed l), Core.NoValidQuote (Core.ProvidersListed l') =>
      map (fun p => Core.getName p) l = map (fun p => Core.getName p) l'
  | Core.NoValidQuote (Core.ProviderNamesListed l),
    Core.NoValidQuote (Core.ProviderNamesListed l') => l = l'
  | Core.NotSupportedSigner, Core.NotSupportedSigner => True
  | Core.Error_ m, Core.Error_ m' => m = m'
  | Core.HttpException m c, Core.HttpException m' c' => m = m' /\ c = c'
  | Core.Rethrown x, Core.Rethrown x' => x = x'
  | _, _ => False
  end.

(** Outcomes of the two variants that are the same outcome. *)
Definition sameOutcome {World Tx Tx' A : Type}
    (r : result (Core.ServiceError World Tx) A)
    (r' : result (Core.ServiceError World Tx') A) : Prop :=
  match r, r' with
  | Ok a, Ok a' => a = a'
  | Throws e, Throws e' => sameError e e'
  | _, _ => False
  end.

End Spec.

(** * Properties *)

Unset Implicit Arguments.

(** ** Comparisons of bignumber.js *)

Module BigNumberFacts.

Lemma gt_true (a b : BigNumber.t) : BigNumber.gt a b = true <-> (b < a)%Q.
Proof.
  unfold BigNumber.gt. rewrite negb_true_iff.
  destruct (Qle_bool a b) eqn:E.
  - apply Qle_bool_iff in E. split; [discriminate | intro; lra].
  - split; [intros _ | reflexivity].
    apply Qnot_le_lt. intro L. apply Qle_bool_iff in L. congruence.
Qed.

Lemma gt_false (a b : BigNumber.t) : BigNumber.gt a b = false <-> (a <= b)%Q.
Proof.
  unfold BigNumber.gt. rewrite negb_false_iff. apply Qle_bool_iff.
Qed.

Lemma lt_true (a b : BigNumber.t) : BigNumber.lt a b = true <-> (a < b)%Q.
Proof. apply (gt_true b a). Qed.

Lemma lt_false (a b : BigNumber.t) : BigNumber.lt a b = false <-> (b <= a)%Q.
Proof. apply (gt_false b a). Qed.

Lemma eq_true (a b : BigNumber.t) : BigNumber.eq a b = true <-> (a == b)%Q.
Proof. apply Qeq_bool_iff. Qed.

Lemma eq_false (a b : BigNumber.t) : BigNumber.eq a b = false <-> ~ (a == b)%Q.
Proof.
  unfold BigNumber.eq. split.
  - intros E H. apply Qeq_bool_iff in H. congruence.
  - intro H. destruct (Qeq_bool a b) eqn:E; [|reflexivity].
    apply Qeq_bool_iff in E. contradiction.
Qed.

End BigNumberFacts.

(** ** Decimal notation and [parseUnits] *)

Module NumeralFacts.

Import Numeral.

Local Open Scope Z_scope.

Lemma fold_digits (ds : list ascii) : forall acc,
  fold_left (fun acc c => 10 * acc + digitValue c) ds acc
  = acc * 10 ^ Z.of_nat (List.length ds) + digitsValue ds.
Proof.
  unfold digitsValue. induction ds as [| c ds IH]; intro acc; cbn [fold_left List.length].
  - cbn. lia.
  - rewrite IH. rewrite (IH (10 * 0 + digitValue c)).
    rewrite Nat2Z.inj_succ, Z.pow_succ_r by lia. ring.
Qed.

Lemma digitsValue_app (a b : list ascii) :
  digitsValue (a ++ b)
  = digitsValue a * 10 ^ Z.of_nat (List.length b) + digitsValue b.
Proof.
  unfold digitsValue at 1. rewrite fold_left_app. now rewrite fold_digits.
Qed.

Lemma digitsValue_zeros (z : list ascii) :
  forallb (Ascii.eqb "0"%char) z = true -> digitsValue z = 0.
Proof.
  induction z as [| c z IH]; [reflexivity |].
  cbn [forallb]. intro H. apply andb_true_iff in H. destruct H as [Hc Hz].
  apply Ascii.eqb_eq in Hc. subst c.
  change ("0"%char :: z) with (["0"%char] ++ z). rewrite digitsValue_app, (IH Hz).
  reflexivity.
Qed.

Lemma zeros_repeat (n : nat) : forallb (Ascii.eqb "0"%char) (repeat "0"%char n) = true.
Proof. induction n; [reflexivity | exact IHn]. Qed.

Lemma digitValue_range (c : ascii) : isDigit c = true -> 0 <= digitValue c <= 9.
Proof.
  unfold isDigit, digitValue. intro H. apply andb_true_iff in H. destruct H as [H1 H2].
  apply Nat.leb_le in H1, H2. lia.
Qed.

Lemma digitsValue_range (ds : list ascii) :
  forallb isDigit ds = true -> 0 <= digitsValue ds < 10 ^ Z.of_nat (List.length ds).
Proof.
  induction ds as [| c ds IH] using rev_ind; [cbn; lia |].
  rewrite forallb_app. cbn [forallb]. intro H.
  apply andb_true_iff in H. destruct H as [Hds Hc]. rewrite andb_true_r in Hc.
  specialize (IH Hds). apply digitValue_range in Hc.
  rewrite digitsValue_app, length_app. cbn [List.length].
  replace (digitsValue [c]) with (digitValue c) by (unfold digitsValue; cbn; lia).
  rewrite Nat2Z.inj_add, Z.pow_add_r by lia. cbn. lia.
Qed.

Lemma spanDigits_digits (cs : list ascii) : forall ds rest,
  spanDigits cs = (ds, rest) -> forallb isDigit ds = true.
Proof.
  induction cs as [| c cs IH]; cbn [spanDigits]; intros ds rest H.
  - inversion H. reflexivity.
  - destruct (isDigit c) eqn:Hc.
    + destruct (spanDigits cs) as [ds' rest']. inversion H; subst.
      cbn [forallb]. rewrite Hc. now apply (IH ds' rest).
    + inversion H. reflexivity.
Qed.

Lemma matchDecimal_digits (s : string) (neg : bool) (whole frac : list ascii) :
  matchDecimal s = Some (neg, whole, frac) ->
  forallb isDigit whole = true /\ forallb isDigit frac = true.
Proof.
  unfold matchDecimal.
  destruct (match list_ascii_of_string s with
            | "-"%char :: r => (true, r)
            | _ => (false, list_ascii_of_string s)
            end) as [neg' cs1].
  destruct (spanDigits cs1) as [whole' cs2] eqn:Hw.
  destruct (spanDigits match cs2 with "."%char :: r => r | _ => cs2 end)
    as [frac' cs4] eqn:Hf.
  destruct cs4; [| discriminate]. intro H. inversion H; subst.
  split; [eapply spanDigits_digits | eapply spanDigits_digits]; eauto.
Qed.



Lemma pow10_pos (n : nat) : 0 < 10 ^ Z.of_nat n.
Proof. apply Z.pow_pos_nonneg; lia. Qed.

(** The digits kept by [parseUnits], against the fraction digits. *)
Lemma kept_fraction (frac : list ascii) (unit : nat) :
  let padded := frac ++ repeat "0"%char (unit - List.length frac) in
  forallb (Ascii.eqb "0"%char) (skipn unit padded) = true ->
  List.length (firstn unit padded) = unit /\
  digitsValue (firstn unit padded) * 10 ^ Z.of_nat (List.length frac)
  = digitsValue frac * 10 ^ Z.of_nat unit.
Proof.
  intros padded Hz.
  assert (List.length padded = (List.length frac + (unit - List.length frac))%nat) as Hlen
    by (unfold padded; now rewrite length_app, repeat_length).
  assert (List.length (firstn unit padded) = unit) as Hk
    by (rewrite length_firstn; lia).
  split; [exact Hk |].
  pose proof (firstn_skipn unit padded) as Hsplit.
  assert (digitsValue padded
          = digitsValue (firstn unit padded)
            * 10 ^ Z.of_nat (List.length (skipn unit padded))) as H1.
  { rewrite <- Hsplit at 1. rewrite digitsValue_app, (digitsValue_zeros _ Hz). lia. }
  assert (digitsValue padded
          = digitsValue frac * 10 ^ Z.of_nat (unit - List.length frac)) as H2.
  { unfold padded. rewrite digitsValue_app, repeat_length.
    rewrite (digitsValue_zeros _ (zeros_repeat _)). lia. }
  assert (List.length (skipn unit padded)
          = (List.length frac + (unit - List.length frac) - unit)%nat) as Hs
    by (rewrite length_skipn; lia).
  set (k := digitsValue (firstn unit padded)) in *.
  set (F := digitsValue frac) in *.
  set (z := List.length (skipn unit padded)) in *.
  assert (k * 10 ^ Z.of_nat z * 10 ^ Z.of_nat (List.length frac)
          = F * 10 ^ Z.of_nat unit * 10 ^ Z.of_nat z) as H3.
  { rewrite <- H1, H2. rewrite <- !Z.mul_assoc, <- !Z.pow_add_r by lia.
    do 2 f_equal. lia. }
  pose proof (pow10_pos z) as Hpos.
  apply (Z.mul_cancel_r _ _ (10 ^ Z.of_nat z)); [lia |]. lia.
Qed.

Lemma scale_exact (W F k : Z) (lf u : nat) :
  k * 10 ^ Z.of_nat lf = F * 10 ^ Z.of_nat u ->
  (inject_Z (W * 10 ^ Z.of_nat u + k)
   == (inject_Z W + inject_Z F / inject_Z (10 ^ Z.of_nat lf)) * inject_Z (10 ^ Z.of_nat u))%Q.
Proof.
  intro H.
  assert (~ (inject_Z (10 ^ Z.of_nat lf) == 0)%Q) as Hnz.
  { intro E. unfold Qeq in E. cbn [Qnum Qden inject_Z] in E.
    pose proof (pow10_pos lf). lia. }
  assert (inject_Z k * inject_Z (10 ^ Z.of_nat lf)
          == inject_Z F * inject_Z (10 ^ Z.of_nat u))%Q as HQ
    by (rewrite <- !inject_Z_mult; now rewrite H).
  rewrite inject_Z_plus, inject_Z_mult.
  setoid_replace (inject_Z k)
    with (inject_Z k * inject_Z (10 ^ Z.of_nat lf) / inject_Z (10 ^ Z.of_nat lf))%Q
    by (field; exact Hnz).
  rewrite HQ. field. exact Hnz.
Qed.

(** [parseUnits] scales exactly. *)
Lemma parseUnits_exact (s : string) (unit : nat) (v : Z) :
  ethers.parseUnits s unit = Ok v ->
  exists q, decimalValue s = Some q
            /\ (inject_Z v == q * inject_Z (10 ^ Z.of_nat unit))%Q.
Proof.
  unfold ethers.parseUnits, decimalValue.
  destruct (matchDecimal s) as [[[neg whole] frac] |]; [| discriminate].
  destruct (List.length whole + List.length frac =? 0)%nat; [discriminate |].
  destruct (80 <? unit)%nat; [discriminate |].
  destruct (forallb (Ascii.eqb "0"%char)
              (skipn unit (frac ++ repeat "0"%char (unit - List.length frac)))) eqn:Hz;
    [| discriminate].
  cbn [negb].
  destruct (kept_fraction frac unit Hz) as [Hk Hval].
  set (kept := firstn unit (frac ++ repeat "0"%char (unit - List.length frac))) in *.
  destruct ((- 2 ^ 511 <=? _) && _); [| discriminate].
  intro H. inversion H; subst v. clear H.
  eexists. split; [reflexivity |].
  rewrite digitsValue_app, Hk.
  pose proof (scale_exact (digitsValue whole) (digitsValue frac) (digitsValue kept)
                (List.length frac) unit Hval) as E.
  destruct neg.
  - rewrite inject_Z_opp, E. ring.
  - exact E.
Qed.

(** [parseUnits] accepts a numeral of at most [unit] fraction digits. *)
Lemma parseUnits_accepts (s : string) (unit : nat) (neg : bool) (whole frac : list ascii) :
  matchDecimal s = Some (neg, whole, frac) ->
  (0 < List.length whole + List.length frac)%nat ->
  (List.length frac <= unit)%nat ->
  (unit <= 80)%nat ->
  (List.length whole + unit <= 153)%nat ->
  exists v, ethers.parseUnits s unit = Ok v.
Proof.
  intros Hm Hd Hf Hu Hw. unfold ethers.parseUnits. rewrite Hm.
  destruct (List.length whole + List.length frac =? 0)%nat eqn:E0;
    [apply Nat.eqb_eq in E0; lia |].
  destruct (80 <? unit)%nat eqn:E80; [apply Nat.ltb_lt in E80; lia |].
  set (padded := frac ++ repeat "0"%char (unit - List.length frac)).
  assert (List.length padded = unit) as Hlen
    by (unfold padded; rewrite length_app, repeat_length; lia).
  rewrite skipn_all2 by lia. cbn [forallb negb].
  rewrite firstn_all2 by lia.
  destruct (matchDecimal_digits s neg whole frac Hm) as [Dw Df].
  assert (forallb isDigit (whole ++ padded) = true) as Dall.
  { unfold padded. rewrite !forallb_app, Dw, Df. cbn [andb].
    clear. induction (unit - List.length frac)%nat; [reflexivity | exact IHn]. }
  pose proof (digitsValue_range _ Dall) as R. rewrite length_app, Hlen in R.
  assert (10 ^ Z.of_nat (List.length whole + unit) <= 10 ^ 153) as P
    by (apply Z.pow_le_mono_r; lia).
  assert (10 ^ 153 < 2 ^ 511) as B by (vm_compute; reflexivity).
  set (m := digitsValue (whole ++ padded)) in *.
  assert ((- 2 ^ 511 <=? (if neg then - m else m)) && ((if neg then - m else m) <? 2 ^ 511)
          = true) as Hr.
  { apply andb_true_iff. split; [apply Z.leb_le | apply Z.ltb_lt]; destruct neg; lia. }
  rewrite Hr. eexists. reflexivity.
Qed.

End NumeralFacts.

(** ** The event loop *)

Module AsyncFacts.
Section Facts.

Import Async.

Variables E A : Type.

Local Abbreviation Task := (Task E A).

Lemma advance_pushes (t : Task) : forall arr t' arr',
  advance t arr = (t', arr') ->
  exists pushed, arr' = arr ++ pushed /\ pushes t = pushed ++ pushes t'.
Proof.
  induction t as [r | a k IH | k IH]; simpl; intros arr t' arr' H.
  - inversion H; subst. exists []. now rewrite app_nil_r.
  - apply IH in H. destruct H as (pushed & -> & ->).
    exists (a :: pushed). split; [now rewrite <- app_assoc | reflexivity].
  - inversion H; subst. exists []. now rewrite app_nil_r.
Qed.

Lemma resume_pushes (t : Task) arr t' arr' :
  resume t arr = (t', arr') ->
  exists pushed, arr' = arr ++ pushed /\ pushes t = pushed ++ pushes t'.
Proof.
  destruct t as [r | a k | k]; simpl; intro H.
  - inversion H; subst. exists []. now rewrite app_nil_r.
  - inversion H; subst. exists []. now rewrite app_nil_r.
  - now apply advance_pushes.
Qed.

Lemma finish_pushes (t : Task) : forall arr,
  snd (finish t arr) = arr ++ pushes t.
Proof.
  induction t as [r | a k IH | k IH]; simpl; intro arr.
  - now rewrite app_nil_r.
  - rewrite IH. now rewrite <- app_assoc.
  - apply IH.
Qed.

Lemma replaceAt_split (ts : list Task) : forall i t t1,
  nth_error ts i = Some t ->
  exists l1 l2, ts = l1 ++ t :: l2 /\ replaceAt i t1 ts = l1 ++ t1 :: l2.
Proof.
  induction ts as [| t0 ts IH]; intros [| i] t t1 H; simpl in *; try discriminate.
  - inversion H; subst. now exists [], ts.
  - destruct (IH _ _ t1 H) as (l1 & l2 & -> & ->).
    now exists (t0 :: l1), l2.
Qed.

Lemma start_perm (ts : list Task) : forall arr rej ts' arr' rej',
  start ts arr rej = (ts', arr', rej') ->
  Permutation (arr' ++ flat_map (@pushes E A) ts') (arr ++ flat_map (@pushes E A) ts).
Proof.
  induction ts as [| t ts IH]; simpl; intros arr rej ts' arr' rej' H.
  - inversion H; subst. reflexivity.
  - destruct (advance t arr) as [t1 arr1] eqn:Ha.
    destruct (start ts arr1 (noteRejection t1 rej)) as [[ts1 arr2] rej2] eqn:Hs.
    inversion H; subst. simpl.
    apply IH in Hs. apply advance_pushes in Ha. destruct Ha as (pushed & -> & ->).
    rewrite <- !app_assoc.
    transitivity (pushes t1 ++ arr' ++ flat_map (@pushes E A) ts1).
    { rewrite app_assoc. rewrite (Permutation_app_comm arr').
      now rewrite <- app_assoc. }
    rewrite Hs. rewrite <- !app_assoc.
    rewrite (app_assoc (pushes t1)). rewrite (Permutation_app_comm (pushes t1)).
    rewrite <- !app_assoc. apply Permutation_app_head.
    rewrite !app_assoc. apply Permutation_app_tail. apply Permutation_app_comm.
Qed.

Lemma eventLoop_perm (schedule : list nat) : forall ts arr rej ts' arr' rej',
  eventLoop schedule ts arr rej = (ts', arr', rej') ->
  Permutation (arr' ++ flat_map (@pushes E A) ts') (arr ++ flat_map (@pushes E A) ts).
Proof.
  induction schedule as [| i schedule IH]; simpl; intros ts arr rej ts' arr' rej' H.
  - inversion H; subst. reflexivity.
  - destruct (nth_error ts i) as [t |] eqn:Hn; [| now apply IH in H].
    destruct (resume t arr) as [t1 arr1] eqn:Hr.
    apply IH in H. rewrite H. clear H IH.
    apply resume_pushes in Hr. destruct Hr as (pushed & -> & Hp).
    destruct (replaceAt_split ts i t t1 Hn) as (l1 & l2 & -> & ->).
    rewrite !flat_map_app. simpl. rewrite Hp.
    rewrite <- !app_assoc. apply Permutation_app_head.
    rewrite !app_assoc. do 2 apply Permutation_app_tail.
    apply Permutation_app_comm.
Qed.

Lemma drain_pushes (ts : list Task) : forall arr rej,
  fst (drain ts arr rej) = arr ++ flat_map (@pushes E A) ts.
Proof.
  induction ts as [| t ts IH]; simpl; intros arr rej.
  - now rewrite app_nil_r.
  - destruct (finish t arr) as [r arr1] eqn:Hf.
    rewrite IH. pose proof (finish_pushes t arr) as Hp. rewrite Hf in Hp.
    simpl in Hp. subst arr1. now rewrite <- app_assoc.
Qed.

(** Whatever the schedule, the array holds what the callbacks push. *)
Lemma Promise_all_perm (schedule : list nat) (callbacks : list Task) :
  Permutation (snd (Promise_all schedule callbacks))
              (flat_map (@pushes E A) callbacks).
Proof.
  unfold Promise_all.
  destruct (start callbacks [] None) as [[ts0 arr0] rej0] eqn:Hs.
  destruct (eventLoop schedule ts0 arr0 rej0) as [[ts1 arr1] rej1] eqn:He.
  destruct (drain ts1 arr1 rej1) as [arr2 rej2] eqn:Hd.
  apply start_perm in Hs. apply eventLoop_perm in He.
  pose proof (drain_pushes ts1 arr1 rej1) as Hp. rewrite Hd in Hp. simpl in Hp.
  assert (Permutation arr2 (flat_map (@pushes E A) callbacks)) as R.
  { subst arr2. rewrite He, Hs. reflexivity. }
  destruct rej2; exact R.
Qed.

Lemma start_suspended (ts : list Task) : forall arr rej,
  Forall (@suspended E A) ts -> start ts arr rej = (ts, arr, rej).
Proof.
  induction ts as [| t ts IH]; simpl; intros arr rej H; [reflexivity |].
  inversion H as [| ? ? Ht Hts]; subst.
  destruct t; simpl in Ht; try contradiction. simpl.
  rewrite IH by assumption.
  destruct rej; reflexivity.
Qed.

(** When the awaited calls complete one callback after the other, in
    index order, the array is filled in index order. *)
Lemma Promise_all_in_order (callbacks : list Task) :
  Forall (@suspended E A) callbacks ->
  snd (Promise_all [] callbacks) = flat_map (@pushes E A) callbacks.
Proof.
  intro H. unfold Promise_all. rewrite start_suspended by assumption. simpl.
  destruct (drain callbacks [] None) as [arr2 rej2] eqn:Hd.
  pose proof (drain_pushes callbacks [] None) as Hp. rewrite Hd in Hp. simpl in Hp.
  destruct rej2; exact Hp.
Qed.

Lemma advance_awaitFree (t : Task) : forall arr,
  awaitFree t -> exists r, advance t arr = (Settled r, arr ++ pushes t).
Proof.
  induction t as [r | a k IH | k IH]; cbn [awaitFree advance pushes]; intros arr H.
  - exists r. now rewrite app_nil_r.
  - destruct (IH (arr ++ [a]) H) as [r Hr]. exists r. rewrite Hr.
    now rewrite <- app_assoc.
  - contradiction.
Qed.

Lemma oneShot_suspended (ts : list Task) :
  Forall (@oneShot E A) ts -> Forall (@suspended E A) ts.
Proof.
  apply Forall_impl. intros [r | a k | k]; cbn; auto.
Qed.

Lemma replaceAt_middle (done todo : list Task) (t t1 : Task) :
  replaceAt (List.length done) t1 (done ++ t :: todo) = done ++ t1 :: todo.
Proof.
  induction done as [| d done IH]; [reflexivity |].
  cbn [List.length app replaceAt]. now rewrite IH.
Qed.

Lemma eventLoop_in_order (todo : list Task) : forall done arr rej,
  Forall (@oneShot E A) todo ->
  exists done' rej',
    eventLoop (seq (List.length done) (List.length todo)) (done ++ todo) arr rej
    = (done ++ done', arr ++ flat_map (@pushes E A) todo, rej')
    /\ Forall (@settled E A) done'.
Proof.
  induction todo as [| t todo IH]; intros done arr rej H.
  - exists [], rej. cbn. rewrite !app_nil_r. split; [reflexivity | constructor].
  - inversion H as [| ? ? Ht Htodo]; subst.
    destruct t as [r | a k | k]; cbn [oneShot] in Ht; try contradiction.
    cbn [List.length seq eventLoop].
    rewrite nth_error_app2 by lia. rewrite Nat.sub_diag. cbn [nth_error resume].
    destruct (advance_awaitFree k arr Ht) as [r Hr]. rewrite Hr.
    rewrite replaceAt_middle.
    destruct (IH (done ++ [Settled r]) (arr ++ pushes k)
                 (noteRejection (A:=A) (Settled r) rej) Htodo) as (done' & rej' & Hrun & Hdone).
    rewrite length_app in Hrun. cbn [List.length] in Hrun.
    rewrite Nat.add_1_r in Hrun. rewrite <- app_assoc in Hrun. cbn [app] in Hrun.
    rewrite Hrun. exists (Settled r :: done'), rej'.
    cbn [flat_map pushes]. rewrite <- !app_assoc. cbn [app].
    split; [reflexivity | constructor; [exact I | exact Hdone]].
Qed.

Lemma settled_pushes (ts : list Task) :
  Forall (@settled E A) ts -> flat_map (@pushes E A) ts = [].
Proof.
  induction 1 as [| t ts Ht _ IH]; [reflexivity |].
  destruct t; cbn [settled] in Ht; try contradiction. exact IH.
Qed.

(** When the awaited calls of callbacks with one [await] each complete
    in index order, the array is filled in index order. *)
Lemma Promise_all_index_order (callbacks : list Task) :
  Forall (@oneShot E A) callbacks ->
  snd (Promise_all (seq 0 (List.length callbacks)) callbacks)
  = flat_map (@pushes E A) callbacks.
Proof.
  intro H. unfold Promise_all.
  rewrite start_suspended by now apply oneShot_suspended.
  destruct (eventLoop_in_order callbacks [] [] None H) as (done' & rej' & Hrun & Hdone).
  cbn [List.length app] in Hrun. rewrite Hrun.
  destruct (drain done' (flat_map (@pushes E A) callbacks) rej') as [arr2 rej2] eqn:Hd.
  pose proof (drain_pushes done' (flat_map (@pushes E A) callbacks) rej') as Hp.
  rewrite Hd in Hp. cbn [fst] in Hp.
  rewrite (settled_pushes done' Hdone), app_nil_r in Hp.
  destruct rej2; exact Hp.
Qed.

Lemma advance_neverRejects (t : Task) : forall arr,
  neverRejects t -> neverRejects (fst (advance t arr)).
Proof.
  induction t as [r | a k IH | k IH]; simpl; intros arr H; auto.
Qed.

Lemma resume_neverRejects (t : Task) arr :
  neverRejects t -> neverRejects (fst (resume t arr)).
Proof.
  destruct t as [r | a k | k]; simpl; auto. apply advance_neverRejects.
Qed.

Lemma noteRejection_neverRejects (t : Task) :
  neverRejects t -> noteRejection t None = None.
Proof.
  destruct t as [[[] | e] | a k | k]; simpl; intro H; auto. contradiction.
Qed.

Lemma finish_neverRejects (t : Task) : forall arr,
  neverRejects t -> fst (finish t arr) = Ok tt.
Proof.
  induction t as [[[] | e] | a k IH | k IH]; simpl; intros arr H; auto.
  contradiction.
Qed.

Lemma replaceAt_Forall (P : Task -> Prop) (ts : list Task) : forall i t,
  Forall P ts -> P t -> Forall P (replaceAt i t ts).
Proof.
  induction ts as [| t0 ts IH]; intros [| i] t H Ht; simpl; auto;
    inversion H; subst; constructor; auto.
Qed.

Lemma start_neverRejects (ts : list Task) : forall arr,
  Forall (@neverRejects E A) ts ->
  Forall (@neverRejects E A) (fst (fst (start ts arr None)))
  /\ snd (start ts arr None) = None.
Proof.
  induction ts as [| t ts IH]; intros arr H; [split; [constructor | reflexivity] |].
  inversion H as [| ? ? Ht Hts]; subst. cbn [start].
  pose proof (advance_neverRejects t arr Ht) as Ha.
  destruct (advance t arr) as [t1 arr1]. cbn [fst] in Ha.
  rewrite (noteRejection_neverRejects _ Ha).
  destruct (IH arr1 Hts) as [IH1 IH2].
  destruct (start ts arr1 None) as [[ts1 arr2] rej2]. simpl in *.
  split; [constructor; assumption | assumption].
Qed.

Lemma eventLoop_neverRejects (schedule : list nat) : forall ts arr,
  Forall (@neverRejects E A) ts ->
  Forall (@neverRejects E A) (fst (fst (eventLoop schedule ts arr None)))
  /\ snd (eventLoop schedule ts arr None) = None.
Proof.
  induction schedule as [| i schedule IH]; intros ts arr H; [split; auto |].
  cbn [eventLoop].
  destruct (nth_error ts i) as [t |] eqn:Hn; [| now apply IH].
  assert (neverRejects t) as Ht.
  { rewrite Forall_forall in H. apply H. eapply nth_error_In; eauto. }
  pose proof (resume_neverRejects t arr Ht) as Hr.
  destruct (resume t arr) as [t1 arr1]. cbn [fst] in Hr.
  rewrite (noteRejection_neverRejects _ Hr).
  apply IH. now apply replaceAt_Forall.
Qed.

Lemma drain_neverRejects (ts : list Task) : forall arr,
  Forall (@neverRejects E A) ts -> snd (drain ts arr None) = None.
Proof.
  induction ts as [| t ts IH]; intros arr H; [reflexivity |].
  inversion H as [| ? ? Ht Hts]; subst. cbn [drain].
  pose proof (finish_neverRejects t arr Ht) as Hf.
  destruct (finish t arr) as [r arr1]. cbn [fst] in Hf. subst r. cbn [noteRejection].
  now apply IH.
Qed.

(** Callbacks that catch every exception make [Promise.all] resolve. *)
Lemma Promise_all_resolves (schedule : list nat) (callbacks : list Task) :
  Forall (@neverRejects E A) callbacks ->
  fst (Promise_all schedule callbacks) = Ok tt.
Proof.
  intro H. unfold Promise_all.
  destruct (start_neverRejects callbacks [] H) as [H1 H2].
  destruct (start callbacks [] None) as [[ts0 arr0] rej0]. simpl in *. subst rej0.
  destruct (eventLoop_neverRejects schedule ts0 arr0 H1) as [H3 H4].
  destruct (eventLoop schedule ts0 arr0 None) as [[ts1 arr1] rej1]. simpl in *. subst rej1.
  pose proof (drain_neverRejects ts1 arr1 H3) as H5.
  destruct (drain ts1 arr1 None) as [arr2 rej2]. simpl in *. now subst rej2.
Qed.

End Facts.
End AsyncFacts.

(** ** Quote selection *)

Module Selection.
Section Facts.

Variables World Tx : Type.

Local Abbreviation ProviderQuote := (Core.ProviderQuote World Tx).

Local Open Scope Q_scope.

Local Abbreviation selects := (Spec.selects (World:=World) (Tx:=Tx)).
Local Abbreviation step := (Core.better (World:=World) (Tx:=Tx)).

Lemma nth_error_snoc_lt (l : list ProviderQuote) (x : ProviderQuote) (j : nat) :
  (j < List.length l)%nat -> nth_error (l ++ [x]) j = nth_error l j.
Proof. intro H. now apply nth_error_app1. Qed.

Lemma nth_error_snoc_last (l : list ProviderQuote) (x : ProviderQuote) :
  nth_error (l ++ [x]) (List.length l) = Some x.
Proof. rewrite nth_error_app2 by lia. now rewrite Nat.sub_diag. Qed.

Lemma selects_step (pre : list ProviderQuote) (i : nat) (best current : ProviderQuote) :
  selects pre i best ->
  exists i', selects (pre ++ [current]) i' (step best current).
Proof.
  intros (Hnth & Hmax & Hfee & Hfirst).
  assert (i < List.length pre)%nat as Hi by (apply nth_error_Some; congruence).
  assert (forall j q, (j < List.length pre)%nat -> nth_error pre j = Some q -> In q pre) as Hin
    by (intros j q _ Hq; eapply nth_error_In; eauto).
  unfold Core.better.
  destruct (BigNumber.gt (outputAmount current) (outputAmount best)) eqn:Hgt.
  - (* a strictly larger output *)
    apply BigNumberFacts.gt_true in Hgt.
    exists (List.length pre). repeat split.
    + apply nth_error_snoc_last.
    + intros q Hq. apply in_app_or in Hq. destruct Hq as [Hq | [<- | []]].
      * specialize (Hmax q Hq). lra.
      * lra.
    + intros q Hq Heq. apply in_app_or in Hq. destruct Hq as [Hq | [<- | []]].
      * specialize (Hmax q Hq). lra.
      * lra.
    + intros j q Hj Hq [Heq _]. rewrite nth_error_snoc_lt in Hq by assumption.
      specialize (Hmax q (Hin j q Hj Hq)). lra.
  - apply BigNumberFacts.gt_false in Hgt.
    destruct (BigNumber.eq (outputAmount current) (outputAmount best)) eqn:Heq;
      [apply BigNumberFacts.eq_true in Heq | apply BigNumberFacts.eq_false in Heq];
      (destruct (BigNumber.lt (fee current) (fee best)) eqn:Hlt;
       [apply BigNumberFacts.lt_true in Hlt | apply BigNumberFacts.lt_false in Hlt]);
      cbn [andb].
    + (* the same output for a strictly lower fee *)
      exists (List.length pre). repeat split.
      * apply nth_error_snoc_last.
      * intros q Hq. apply in_app_or in Hq. destruct Hq as [Hq | [<- | []]].
        -- specialize (Hmax q Hq). lra.
        -- lra.
      * intros q Hq Hqe. apply in_app_or in Hq. destruct Hq as [Hq | [<- | []]].
        -- assert (outputAmount q == outputAmount best) as Hqb by lra.
           specialize (Hfee q Hq Hqb). lra.
        -- lra.
      * intros j q Hj Hq [Hqe Hqf]. rewrite nth_error_snoc_lt in Hq by assumption.
        assert (outputAmount q == outputAmount best) as Hqb by lra.
        specialize (Hfee q (Hin j q Hj Hq) Hqb). lra.
    + exists i. repeat split.
      * rewrite nth_error_snoc_lt; assumption.
      * intros q Hq. apply in_app_or in Hq. destruct Hq as [Hq | [<- | []]]; auto.
      * intros q Hq Hqe. apply in_app_or in Hq. destruct Hq as [Hq | [<- | []]]; auto.
      * intros j q Hj Hq. rewrite nth_error_snoc_lt in Hq by lia. eauto.
    + exists i. repeat split.
      * rewrite nth_error_snoc_lt; assumption.
      * intros q Hq. apply in_app_or in Hq. destruct Hq as [Hq | [<- | []]]; auto.
      * intros q Hq Hqe. apply in_app_or in Hq. destruct Hq as [Hq | [<- | []]]; auto.
        all: contradiction.
      * intros j q Hj Hq. rewrite nth_error_snoc_lt in Hq by lia. eauto.
    + exists i. repeat split.
      * rewrite nth_error_snoc_lt; assumption.
      * intros q Hq. apply in_app_or in Hq. destruct Hq as [Hq | [<- | []]]; auto.
      * intros q Hq Hqe. apply in_app_or in Hq. destruct Hq as [Hq | [<- | []]]; auto.
        all: contradiction.
      * intros j q Hj Hq. rewrite nth_error_snoc_lt in Hq by lia. eauto.
Qed.

Lemma selects_fold (rest : list ProviderQuote) : forall pre i best,
  selects pre i best ->
  exists i', selects (pre ++ rest) i' (fold_left step rest best).
Proof.
  induction rest as [| current rest IH]; intros pre i best H; simpl.
  - exists i. now rewrite app_nil_r.
  - destruct (selects_step pre i best current H) as [i1 H1].
    destruct (IH _ _ _ H1) as [i2 H2].
    exists i2. now rewrite <- app_assoc in H2.
Qed.

Lemma selects_seed (first : ProviderQuote) : selects [first] 0 first.
Proof.
  repeat split.
  - intros q [<- | []]. lra.
  - intros q [<- | []] _. lra.
  - intros j q Hj. lia.
Qed.

(** C1.  On every non-empty list of provider quotes, [getBestQuote]
    returns a quote of the list whose [outputAmount] is greater than or
    equal to that of every quote in the list; among the quotes with
    that [outputAmount] it has the least [fee]; and no quote before it
    in the list has both the same [outputAmount] and the same [fee],
    that is, among the quotes tied on both it is the earliest. *)
Theorem getBestQuote_selects (quotes : list ProviderQuote) :
  quotes <> [] ->
  exists i best,
    Core.getBestQuote quotes = Some best /\
    nth_error quotes i = Some best /\
    (forall q, In q quotes -> outputAmount q <= outputAmount best) /\
    (forall q, In q quotes ->
       outputAmount q == outputAmount best -> fee best <= fee q) /\
    (forall j q, (j < i)%nat -> nth_error quotes j = Some q ->
       ~ (outputAmount q == outputAmount best /\ fee q == fee best)).
Proof.
  destruct quotes as [| first rest]; [congruence | intros _].
  destruct (selects_fold rest [first] 0 first (selects_seed first)) as [i H].
  exists i, (fold_left step rest first).
  split; [reflexivity | exact H].
Qed.

End Facts.
End Selection.

(** ** The provider pool and the quote fan-out *)

Module Aggregation.
Section Facts.

Import Async.

Variables World Tx : Type.

Local Abbreviation ISwapProvider := (Core.ISwapProvider World Tx).
Local Abbreviation ProviderQuote := (Core.ProviderQuote World Tx).
Local Abbreviation ServiceError := (Core.ServiceError World Tx).

Variable env : Core.Environment World.
Variable providers : list ISwapProvider.

Local Abbreviation isActive := (Spec.isActive (World:=World) (Tx:=Tx)).
Local Abbreviation entryOf := (Spec.entryOf (World:=World) (Tx:=Tx)).
Local Abbreviation activeCallback := (Core.activeCallback (World:=World) (Tx:=Tx)).
Local Abbreviation quoteCallback := (Core.quoteCallback (World:=World) (Tx:=Tx)).

Lemma activeCallback_pushes (w : World) (l : list ISwapProvider) :
  flat_map (@pushes _ _) (map (activeCallback w) l) = filter (isActive w) l.
Proof.
  induction l as [| p l IH]; [reflexivity |].
  cbn [map flat_map filter]. rewrite IH. unfold Core.activeCallback, Spec.isActive.
  destruct (Core.isInit p w) as [[] | e]; reflexivity.
Qed.

Lemma activeCallback_neverRejects (w : World) (l : list ISwapProvider) :
  Forall (@neverRejects _ _) (map (activeCallback w) l).
Proof.
  apply Forall_forall. intros t Ht. apply in_map_iff in Ht.
  destruct Ht as (p & <- & _). unfold Core.activeCallback.
  destruct (Core.isInit p w) as [[] | e]; exact I.
Qed.

Lemma activeCallback_suspended (w : World) (l : list ISwapProvider) :
  Forall (@suspended _ _) (map (activeCallback w) l).
Proof.
  apply Forall_forall. intros t Ht. apply in_map_iff in Ht.
  destruct Ht as (p & <- & _). exact I.
Qed.

Lemma activeCallback_oneShot (w : World) (l : list ISwapProvider) :
  Forall (@oneShot _ _) (map (activeCallback w) l).
Proof.
  apply Forall_forall. intros t Ht. apply in_map_iff in Ht.
  destruct Ht as (p & <- & _). unfold Core.activeCallback. cbn [oneShot].
  destruct (Core.isInit p w) as [[] | e]; exact I.
Qed.

Lemma quoteCallback_pushes (w : World) (params : SwapParams) (l : list ISwapProvider) :
  flat_map (@pushes _ _) (map (quoteCallback w params) l)
  = flat_map (entryOf w params) l.
Proof.
  induction l as [| p l IH]; [reflexivity |].
  cbn [map flat_map]. rewrite IH. unfold Core.quoteCallback, Spec.entryOf.
  destruct (Core.isSwapSupported p w (fromToken params) (toToken params)) as [[] | e];
    try reflexivity.
  cbn [negb]. destruct (Core.getSwapQuote p w params); reflexivity.
Qed.

Lemma quoteCallback_neverRejects (w : World) (params : SwapParams) (l : list ISwapProvider) :
  Forall (@neverRejects _ _) (map (quoteCallback w params) l).
Proof.
  apply Forall_forall. intros t Ht. apply in_map_iff in Ht.
  destruct Ht as (p & <- & _). unfold Core.quoteCallback.
  destruct (Core.isSwapSupported p w (fromToken params) (toToken params)) as [[] | e];
    try exact I.
  cbn [negb neverRejects]. destruct (Core.getSwapQuote p w params); exact I.
Qed.

(** A fan-out whose callbacks catch every exception returns the array. *)
Lemma fanOut_resolves (A : Type) (callbacks : World -> list (Task ServiceError A))
    (h : Core.Heap) :
  Forall (@neverRejects _ _) (callbacks (Core.world env (Core.now h))) ->
  exists arr,
    Core.fanOut env callbacks h = (Ok arr, Core.tick h) /\
    arr = snd (Promise_all (Core.schedule env (Core.now h))
                           (callbacks (Core.world env (Core.now h)))).
Proof.
  intro H. unfold Core.fanOut.
  pose proof (AsyncFacts.Promise_all_resolves _ _ (Core.schedule env (Core.now h)) _ H) as R.
  destruct (Promise_all (Core.schedule env (Core.now h))
                        (callbacks (Core.world env (Core.now h)))) as [r arr].
  cbn [fst] in R. subst r. exists arr. split; reflexivity.
Qed.

(** What [getActiveProviders] returns, whatever the completion order. *)
Lemma getActiveProviders_returns (h : Core.Heap) :
  exists activeProviders,
    Core.getActiveProviders env providers h = (Ok activeProviders, Core.tick h) /\
    Permutation activeProviders
                (filter (isActive (Core.world env (Core.now h))) providers) /\
    (Core.schedule env (Core.now h) = []
     \/ Core.schedule env (Core.now h) = seq 0 (List.length providers) ->
     activeProviders = filter (isActive (Core.world env (Core.now h))) providers).
Proof.
  destruct (fanOut_resolves _ (fun w => map (activeCallback w) providers) h
              (activeCallback_neverRejects _ _)) as (arr & Hrun & Harr).
  exists arr. split; [exact Hrun |]. split.
  - rewrite Harr, <- activeCallback_pushes. apply AsyncFacts.Promise_all_perm.
  - intros [Hs | Hs]; rewrite Harr, Hs, <- activeCallback_pushes.
    + apply AsyncFacts.Promise_all_in_order. apply activeCallback_suspended.
    + rewrite <- (length_map (activeCallback (Core.world env (Core.now h))) providers).
      apply AsyncFacts.Promise_all_index_order. apply activeCallback_oneShot.
Qed.

(** What [getQuotesFromProviders] returns, whatever the completion order. *)
Lemma getQuotesFromProviders_returns (params : SwapParams) (h : Core.Heap) :
  exists activeProviders quotes,
    Core.getActiveProviders env providers h = (Ok activeProviders, Core.tick h) /\
    Core.getQuotesFromProviders env providers params h
    = (Ok quotes, Core.tick (Core.tick h)) /\
    Permutation quotes
      (flat_map (entryOf (Core.world env (S (Core.now h))) params) activeProviders).
Proof.
  destruct (getActiveProviders_returns h) as (active & Hact & _).
  destruct (fanOut_resolves _ (fun w => map (quoteCallback w params) active) (Core.tick h)
              (quoteCallback_neverRejects _ _ _)) as (arr & Hrun & Harr).
  exists active, arr. split; [exact Hact |]. split.
  - unfold Core.getQuotesFromProviders, StateError.bind. rewrite Hact. exact Hrun.
  - rewrite Harr, <- quoteCallback_pushes. apply AsyncFacts.Promise_all_perm.
Qed.

(** C2.  For every registry, every world and every completion order,
    [getQuotesFromProviders] returns normally, and what it returns
    holds, up to order, exactly the entries of the active providers of
    the round: for each active provider whose [isSwapSupported] returns
    [true] and whose [getSwapQuote] succeeds, one quote tagged with that
    provider, and nothing for a provider whose [isSwapSupported] throws
    or returns [false] or whose [getSwapQuote] throws.  The entry of a
    provider depends on the answers of that provider alone, so a failing
    provider neither removes nor alters the entry of another. *)
Theorem getQuotesFromProviders_isolates_failures (params : SwapParams) (h : Core.Heap) :
  exists activeProviders quotes,
    Core.getActiveProviders env providers h = (Ok activeProviders, Core.tick h) /\
    Core.getQuotesFromProviders env providers params h
    = (Ok quotes, Core.tick (Core.tick h)) /\
    Permutation quotes
      (flat_map (entryOf (Core.world env (S (Core.now h))) params) activeProviders) /\
    (forall p q,
       In p activeProviders ->
       Core.isSwapSupported p (Core.world env (S (Core.now h)))
         (fromToken params) (toToken params) = Ok true ->
       Core.getSwapQuote p (Core.world env (S (Core.now h))) params = Ok q ->
       In {| quote := q; provider := p |} quotes) /\
    (forall entry,
       In entry quotes ->
       In (provider entry) activeProviders /\
       Core.isSwapSupported (provider entry) (Core.world env (S (Core.now h)))
         (fromToken params) (toToken params) = Ok true /\
       Core.getSwapQuote (provider entry) (Core.world env (S (Core.now h))) params
       = Ok (quote entry)).
Proof.
  destruct (getQuotesFromProviders_returns params h)
    as (active & quotes & Hact & Hrun & Hperm).
  exists active, quotes. split; [exact Hact |]. split; [exact Hrun |].
  split; [exact Hperm |]. split.
  - intros p q Hin Hsup Hquote.
    apply (Permutation_in _ (Permutation_sym Hperm)).
    apply in_flat_map. exists p. split; [exact Hin |].
    unfold Spec.entryOf. rewrite Hsup, Hquote. now left.
  - intros entry Hin. apply (Permutation_in _ Hperm) in Hin.
    apply in_flat_map in Hin. destruct Hin as (p & Hp & Hentry).
    unfold Spec.entryOf in Hentry.
    destruct (Core.isSwapSupported p _ _ _) as [[] | e] eqn:Hsup; try contradiction.
    destruct (Core.getSwapQuote p _ _) as [q | e] eqn:Hquote; [| contradiction].
    destruct Hentry as [<- | []]. cbn [provider quote]. auto.
Qed.

(** C3, amended.  [getActiveProviders] returns normally, and what it
    returns holds exactly the providers of the registry whose [isInit()]
    returns [true] (one whose [isInit()] throws or returns [false] is
    left out).  Its order follows the completion of the [isInit()]
    calls: it is a permutation of the sub-list of the registry, and it is
    that sub-list, in registration order, when the calls complete in
    registration order, be it one after the other once the schedule is
    used up or as a schedule that lists the callbacks in order has it. *)
Theorem getActiveProviders_completion_order (h : Core.Heap) :
  exists activeProviders,
    Core.getActiveProviders env providers h = (Ok activeProviders, Core.tick h) /\
    Permutation activeProviders
                (filter (isActive (Core.world env (Core.now h))) providers) /\
    (forall p, In p activeProviders <->
               In p providers /\ Core.isInit p (Core.world env (Core.now h)) = Ok true) /\
    (Core.schedule env (Core.now h) = [] ->
     activeProviders = filter (isActive (Core.world env (Core.now h))) providers) /\
    (Core.schedule env (Core.now h) = seq 0 (List.length providers) ->
     activeProviders = filter (isActive (Core.world env (Core.now h))) providers).
Proof.
  destruct (getActiveProviders_returns h) as (active & Hrun & Hperm & Horder).
  assert ((Core.schedule env (Core.now h) = [] ->
           active = filter (isActive (Core.world env (Core.now h))) providers) /\
          (Core.schedule env (Core.now h) = seq 0 (List.length providers) ->
           active = filter (isActive (Core.world env (Core.now h))) providers)) as Horders
    by (split; intro Hs; apply Horder; [left | right]; exact Hs).
  clear Horder. rename Horders into Horder.
  exists active. split; [exact Hrun |]. split; [exact Hperm |]. split; [| exact Horder].
  intro p.
  assert (isActive (Core.world env (Core.now h)) p = true
          <-> Core.isInit p (Core.world env (Core.now h)) = Ok true) as Hactive.
  { unfold Spec.isActive.
    destruct (Core.isInit p (Core.world env (Core.now h))) as [[] | e];
      split; congruence. }
  rewrite <- Hactive, <- filter_In. split; intro Hin.
  - exact (Permutation_in _ Hperm Hin).
  - exact (Permutation_in _ (Permutation_sym Hperm) Hin).
Qed.

End Facts.
End Aggregation.

(** Case analysis on the next call of a method body, innermost first. *)
Ltac next_call :=
  match goal with
  | |- context [match ?x with _ => _ end] =>
      lazymatch x with
      | context [match _ with _ => _ end] => fail
      | _ => destruct x eqn:?
      end
  end.

Ltac run_calls :=
  repeat (next_call;
          cbn [fst snd Core.now Core.paramsObj Core.signerLog Core.tick]).

Ltac unfold_monad :=
  unfold StateError.bind, Core.signerSync, Core.signer, Core.call, Core.store,
    StateError.ret, StateError.throw;
  cbn [fst snd Core.now Core.paramsObj Core.signerLog Core.tick].

(** ** Token search *)

Module TokenSearch.

Local Abbreviation Pair := DexScreener.Pair.
Local Abbreviation TokenMap := (JsMap.t TokenInfo).

Lemma fold_left_filter (A B : Type) (f : A -> B -> A) (p : B -> bool) (l : list B) :
  forall a, fold_left f (filter p l) a
            = fold_left (fun a x => if p x then f a x else a) l a.
Proof.
  induction l as [| x l IH]; intro a; [reflexivity |].
  cbn [filter fold_left]. destruct (p x); [cbn [fold_left] |]; apply IH.
Qed.

Lemma fold_left_ext (A B : Type) (f g : A -> B -> A) (l : list B) :
  (forall a x, f a x = g a x) -> forall a, fold_left f l a = fold_left g l a.
Proof.
  intro H. induction l as [| x l IH]; intro a; [reflexivity |].
  cbn [fold_left]. rewrite H. apply IH.
Qed.

Lemma uniqueTokens_fold (pairs : list Pair) :
  uniqueTokens pairs = JsMap.values (fold_left Spec.insertListed pairs []).
Proof.
  unfold uniqueTokens. rewrite fold_left_filter. f_equal.
  apply fold_left_ext. intros m pair.
  unfold Spec.insertListed, Spec.listed.
  destruct (DexScreener.liquidity pair) as [liquidity |]; [| reflexivity].
  destruct (Qle_bool 50000 (DexScreener.usd liquidity)); cbn [andb];
    destruct (DexScreener.baseToken pair) as [baseToken |]; try reflexivity;
    destruct (dexScreenChainIdMap (DexScreener.chainId pair)) as [chain |];
    try reflexivity.
  - destruct (String.eqb (DexScreener.address baseToken) ""); cbn [negb andb address];
      [reflexivity |].
    destruct (JsMap.has m (DexScreener.address baseToken)); reflexivity.
  - destruct (negb (String.eqb (DexScreener.address baseToken) "")
              && negb (JsMap.has m (DexScreener.address baseToken))); reflexivity.
Qed.

Lemma has_keys (m : TokenMap) (key : string) :
  JsMap.has m key = true <-> In key (map fst m).
Proof.
  unfold JsMap.has. rewrite existsb_exists, in_map_iff. split.
  - intros (entry & Hin & Heq). apply String.eqb_eq in Heq. now exists entry.
  - intros (entry & Heq & Hin). exists entry. split; [assumption |].
    now apply String.eqb_eq.
Qed.

Lemma set_absent (m : TokenMap) (key : string) (v : TokenInfo) :
  JsMap.has m key = false -> JsMap.set m key v = m ++ [(key, v)].
Proof.
  induction m as [| [k v0] m IH]; [reflexivity |].
  unfold JsMap.has. cbn [existsb JsMap.set fst]. intro H.
  apply orb_false_iff in H. destruct H as [Hk Hm]. rewrite Hk.
  cbn [app]. f_equal. now apply IH.
Qed.

Local Abbreviation entered := Spec.entered.

Lemma firstListed_snoc (pre : list Pair) (pair : Pair) (token : TokenInfo) :
  Spec.firstListed pre token -> Spec.firstListed (pre ++ [pair]) token.
Proof.
  intros (i & p & Hi & Hl & Hfirst).
  assert (i < List.length pre)%nat as Hlt by (apply nth_error_Some; congruence).
  exists i, p. split; [rewrite nth_error_app1; assumption |]. split; [assumption |].
  intros j p' t' Hj Hn. rewrite nth_error_app1 in Hn by lia. eauto.
Qed.

Lemma entered_step (pre : list Pair) (m : TokenMap) (pair : Pair) :
  entered pre m -> entered (pre ++ [pair]) (Spec.insertListed m pair).
Proof.
  intros (Hnodup & Hentries & Hseen). unfold Spec.insertListed.
  destruct (Spec.listed pair) as [token |] eqn:Hl;
    [destruct (JsMap.has m (address token)) eqn:Hhas |].
  - (* the address is entered already *)
    split; [assumption |]. split.
    + intros k t Hin. destruct (Hentries k t Hin) as [Hk Hf].
      split; [assumption | now apply firstListed_snoc].
    + intros p t Hin Hp. apply in_app_or in Hin. destruct Hin as [Hin | [<- | []]].
      * eauto.
      * rewrite Hl in Hp. inversion Hp; subst. now apply has_keys.
  - (* a new address *)
    rewrite set_absent by assumption.
    assert (~ In (address token) (map fst m)) as Hnew
      by (rewrite <- has_keys; congruence).
    split; [| split].
    + rewrite map_app. cbn [map fst].
      apply NoDup_app; [assumption | repeat constructor; auto |].
      intros k Hk [<- | []]. contradiction.
    + intros k t Hin. apply in_app_or in Hin. destruct Hin as [Hin | [Heq | []]].
      * destruct (Hentries k t Hin) as [Hk Hf].
        split; [assumption | now apply firstListed_snoc].
      * inversion Heq; subst. split; [reflexivity |].
        exists (List.length pre), pair.
        split; [rewrite nth_error_app2 by lia; now rewrite Nat.sub_diag |].
        split; [assumption |].
        intros j p' t' Hj Hn Hp'. rewrite nth_error_app1 in Hn by assumption.
        apply nth_error_In in Hn. intro E. apply Hnew. rewrite <- E. eauto.
    + intros p t Hin Hp. rewrite map_app. apply in_or_app.
      apply in_app_or in Hin. destruct Hin as [Hin | [<- | []]].
      * left. eauto.
      * right. rewrite Hl in Hp. inversion Hp; subst. now left.
  - (* the pair has no token *)
    split; [assumption |]. split.
    + intros k t Hin. destruct (Hentries k t Hin) as [Hk Hf].
      split; [assumption | now apply firstListed_snoc].
    + intros p t Hin Hp. apply in_app_or in Hin. destruct Hin as [Hin | [<- | []]].
      * eauto.
      * congruence.
Qed.

Lemma entered_fold (pairs : list Pair) : forall pre m,
  entered pre m -> entered (pre ++ pairs) (fold_left Spec.insertListed pairs m).
Proof.
  induction pairs as [| pair pairs IH]; intros pre m H; cbn [fold_left].
  - now rewrite app_nil_r.
  - apply (entered_step pre m pair) in H. apply IH in H.
    now rewrite <- app_assoc in H.
Qed.

Lemma entered_empty : entered [] [].
Proof.
  split; [constructor |]. split; [intros k t [] | intros p t []].
Qed.

Lemma listed_decimals (pair : Pair) (token : TokenInfo) :
  Spec.listed pair = Some token -> decimals token = 18%nat.
Proof.
  unfold Spec.listed.
  destruct (DexScreener.liquidity pair), (DexScreener.baseToken pair),
    (dexScreenChainIdMap (DexScreener.chainId pair)); try discriminate.
  destruct (_ && _); [| discriminate]. intro H. inversion H. reflexivity.
Qed.

(** What [uniqueTokens] returns. *)
Lemma uniqueTokens_spec (pairs : list Pair) :
  Forall (fun token => decimals token = 18%nat) (uniqueTokens pairs)
  /\ NoDup (map (fun token => address token) (uniqueTokens pairs))
  /\ (forall token, In token (uniqueTokens pairs) -> Spec.firstListed pairs token)
  /\ (forall pair token, In pair pairs -> Spec.listed pair = Some token ->
        In (address token) (map (fun token => address token) (uniqueTokens pairs))).
Proof.
  rewrite uniqueTokens_fold.
  destruct (entered_fold pairs [] [] entered_empty) as (Hnodup & Hentries & Hseen).
  cbn [app] in *. set (m := fold_left Spec.insertListed pairs []) in *.
  assert (map (fun token => address token) (JsMap.values m) = map fst m) as Hkeys.
  { unfold JsMap.values. rewrite map_map. apply map_ext_in.
    intros [k t] Hin. cbn [fst snd]. destruct (Hentries k t Hin) as [-> _]. reflexivity. }
  assert (forall token, In token (JsMap.values m) -> Spec.firstListed pairs token) as Hfirst.
  { intros t Hin. unfold JsMap.values in Hin. apply in_map_iff in Hin.
    destruct Hin as ([k t'] & Heq & Hin). cbn [snd] in Heq. subst t'.
    now destruct (Hentries k t Hin). }
  split; [| split; [| split]].
  - apply Forall_forall. intros t Hin. destruct (Hfirst t Hin) as (i & p & _ & Hl & _).
    now apply listed_decimals in Hl.
  - now rewrite Hkeys.
  - exact Hfirst.
  - intros p t Hin Hl. rewrite Hkeys. eauto.
Qed.

Section Search.

Variables World Tx : Type.
Variable env : Core.Environment World.
Variable dexScreenerSearch : World -> string -> result Exn DexScreener.Response.

Local Abbreviation getTokenInfos :=
  (Core.getTokenInfos Tx env dexScreenerSearch).

(** The pairs of a response. *)
Lemma getTokenInfos_returns (searchString : string) (h : Core.Heap)
    (tokens : list TokenInfo) :
  fst (getTokenInfos searchString h) = Ok tokens <->
  exists response data,
    dexScreenerSearch (Core.world env (Core.now h)) searchString = Ok response
    /\ DexScreener.ok response = true
    /\ DexScreener.json response = Ok data
    /\ tokens = uniqueTokens (match data with Some pairs => pairs | None => [] end).
Proof.
  unfold Core.getTokenInfos. unfold_monad.
  destruct (dexScreenerSearch (Core.world env (Core.now h)) searchString)
    as [response | e]; cbn [fst].
  - destruct (DexScreener.ok response) eqn:Hok; cbn [negb fst].
    + destruct (DexScreener.json response) as [data | e] eqn:Hjson; cbn [fst].
      * split.
        -- intro H. inversion H. exists response, data. auto.
        -- intros (r & d & Hr & _ & Hd & ->). inversion Hr; subst r.
           rewrite Hjson in Hd. inversion Hd; subst d. reflexivity.
      * split; [discriminate |].
        intros (r & d & Hr & _ & Hd & _). inversion Hr; subst r. congruence.
    + split; [discriminate |].
      intros (r & d & Hr & Ho & _). inversion Hr; subst r. congruence.
  - split; [discriminate |]. intros (r & d & Hr & _). discriminate.
Qed.

(** C10.  Whatever the query and the response, every token
    [getTokenInfos] returns has [decimals] 18, the constant written in
    the method, and no two tokens returned have the same address: a
    token returned is the base token of the first pair of the response
    that has a token of that address, the chain of the pair playing no
    part in the comparison, and every address of such a pair is
    returned.  The method returns them whenever the response is
    successful and its body can be read. *)
Theorem getTokenInfos_decimals_18_unique_address (searchString : string)
    (h : Core.Heap) (tokens : list TokenInfo) :
  fst (getTokenInfos searchString h) = Ok tokens ->
  exists response data,
    dexScreenerSearch (Core.world env (Core.now h)) searchString = Ok response
    /\ DexScreener.json response = Ok data
    /\ Forall (fun token => decimals token = 18%nat) tokens
    /\ NoDup (map (fun token => address token) tokens)
    /\ (forall token, In token tokens ->
          Spec.firstListed (match data with Some pairs => pairs | None => [] end) token)
    /\ (forall pair token,
          In pair (match data with Some pairs => pairs | None => [] end) ->
          Spec.listed pair = Some token ->
          In (address token) (map (fun token => address token) tokens)).
Proof.
  intro H. apply getTokenInfos_returns in H.
  destruct H as (response & data & Hr & _ & Hd & ->).
  exists response, data. split; [exact Hr |]. split; [exact Hd |].
  apply uniqueTokens_spec.
Qed.

End Search.

End TokenSearch.

(** ** The normalizer *)

Module Normalizer.
Section Facts.

Variable World : Type.
Variable env : Core.Environment World.
Variable getDecimals : World -> string -> ChainId -> result Exn nat.
Variable newBigNumber : string -> BigNumber.value.

Local Abbreviation createSwapParams := (Meta.createSwapParams env getDecimals).

Lemma meta_exact (request : Meta.RequestDto) (h h1 : Core.Heap) (params : SwapParams) :
  createSwapParams request h = (Ok params, h1) ->
  exists d q n,
    getDecimals (Core.world env (Core.now h)) (Meta.tokenIn request)
                (orEthereum (Meta.chainIn request)) = Ok d
    /\ decimals (fromToken params) = d
    /\ Numeral.decimalValue (Meta.normalAmountIn request) = Some q
    /\ amount params = BigNumber.Finite (inject_Z n)
    /\ (inject_Z n == q * inject_Z (10 ^ Z.of_nat d))%Q.
Proof.
  unfold Meta.createSwapParams, Meta.lib. unfold_monad. run_calls.
  all: intro H; inversion H; subst; clear H.
  all: match goal with
       | Hp : ethers.parseUnits _ _ = Ok ?v |- _ =>
           destruct (NumeralFacts.parseUnits_exact _ _ _ Hp) as (written & Hq & Hscale);
           eexists _, written, v
       end.
  all: repeat split; eauto.
Qed.

Lemma meta_accepts (request : Meta.RequestDto) (h : Core.Heap) (d dOut : nat)
    (neg : bool) (whole frac : list ascii) :
  getDecimals (Core.world env (Core.now h)) (Meta.tokenIn request)
              (orEthereum (Meta.chainIn request)) = Ok d ->
  getDecimals (Core.world env (S (Core.now h))) (Meta.tokenOut request)
              (orEthereum (Meta.chainOut request)) = Ok dOut ->
  Numeral.matchDecimal (Meta.normalAmountIn request) = Some (neg, whole, frac) ->
  (0 < List.length whole + List.length frac)%nat ->
  (List.length frac <= d)%nat ->
  (d <= 80)%nat ->
  (List.length whole + d <= 153)%nat ->
  exists params h1, createSwapParams request h = (Ok params, h1).
Proof.
  intros Hd Hout Hm H1 H2 H3 H4.
  destruct (NumeralFacts.parseUnits_accepts _ d neg whole frac Hm H1 H2 H3 H4) as [v Hv].
  unfold Meta.createSwapParams, Meta.lib. unfold_monad.
  rewrite Hd. cbn [fst snd Core.now Core.paramsObj Core.signerLog Core.tick].
  rewrite Hout, Hv. eexists _, _. reflexivity.
Qed.

(** C4, amended.  In the meta-swap-api variant, whenever
    [createSwapParams] produces parameters, their amount is the integer
    that equals, exactly, the number written by the amount string times
    10 to the power of the decimals resolved for the source token; it
    produces them for every numeral in plain decimal notation that has
    no more fraction digits than the source token has decimals (within
    the limits of the conversion: at most 80 decimals and 153 digits),
    provided the decimals of both tokens are resolved.  In the
    tee-txn-signer variant [createSwapParams] does not scale: the amount
    is what [new BigNumber] makes of the amount string as it stands, the
    number the string writes, taken to be in the smallest denomination
    already, and the decimals of both tokens are set to 18 without
    being looked up, no call being awaited; so the amount is the number
    written times 10 to the power of the decimals only when that number
    is zero. *)
Theorem createSwapParams_scaling :
  (forall request h h1 params,
     createSwapParams request h = (Ok params, h1) ->
     exists d q n,
       getDecimals (Core.world env (Core.now h)) (Meta.tokenIn request)
                   (orEthereum (Meta.chainIn request)) = Ok d
       /\ decimals (fromToken params) = d
       /\ Numeral.decimalValue (Meta.normalAmountIn request) = Some q
       /\ amount params = BigNumber.Finite (inject_Z n)
       /\ (inject_Z n == q * inject_Z (10 ^ Z.of_nat d))%Q)
  /\
  (forall request h d dOut neg whole frac,
     getDecimals (Core.world env (Core.now h)) (Meta.tokenIn request)
                 (orEthereum (Meta.chainIn request)) = Ok d ->
     getDecimals (Core.world env (S (Core.now h))) (Meta.tokenOut request)
                 (orEthereum (Meta.chainOut request)) = Ok dOut ->
     Numeral.matchDecimal (Meta.normalAmountIn request) = Some (neg, whole, frac) ->
     (0 < List.length whole + List.length frac)%nat ->
     (List.length frac <= d)%nat ->
     (d <= 80)%nat ->
     (List.length whole + d <= 153)%nat ->
     exists params h1, createSwapParams request h = (Ok params, h1))
  /\
  (forall request h,
     exists params h1,
       Tee.createSwapParams (World:=World) newBigNumber request h = (Ok params, h1)
       /\ amount params = newBigNumber (Tee.amountIn request)
       /\ decimals (fromToken params) = 18%nat
       /\ decimals (toToken params) = 18%nat
       /\ Core.now h1 = Core.now h
       /\ (forall q,
             newBigNumber (Tee.amountIn request) = BigNumber.Finite q ->
             amount params = BigNumber.Finite q
             /\ ((q == q * inject_Z (10 ^ Z.of_nat (decimals (fromToken params))))%Q ->
                 (q == 0)%Q))).
Proof.
  split; [exact meta_exact |]. split; [exact meta_accepts |].
  intros request h. eexists _, _.
  split; [reflexivity |]. split; [reflexivity |]. split; [reflexivity |].
  split; [reflexivity |]. split; [reflexivity |].
  intros q Hq. split; [exact Hq |].
  cbn [decimals fromToken].
  change (inject_Z (10 ^ Z.of_nat 18)) with (1000000000000000000 # 1)%Q.
  intro H. lra.
Qed.

End Facts.
End Normalizer.

(** ** Execution *)

Module Execution.
Section Facts.

Variable World : Type.
Variable env : Core.Environment World.
Variable etherService : Core.EthService World.
Variable toBigInt : string -> result Exn Z.

Local Abbreviation tee := (Tee._swapTokens env etherService toBigInt).
Local Abbreviation meta := (Meta._swapTokens env etherService toBigInt).
Local Abbreviation here := (fun h : Core.Heap => Core.world env (Core.now h)).

Lemma submits_send (u : TransactionRequest.t) : Spec.submits (BuildAndSendTransaction u).
Proof. left. now exists u. Qed.

Lemma submits_wait (x : string) : Spec.submits (WaitForTransaction x).
Proof. right. now exists x. Qed.

Local Hint Resolve submits_send submits_wait : core.

Lemma tee_approvesOnce (provider : Tee.ISwapProvider World) (params : SwapParams)
    (h : Core.Heap) (wallet : string) (tx : EthUnsignedSwapTransaction) :
  Core.getWallet etherService (here h) = Ok wallet ->
  Core.getUnsignedTransaction provider (here h) (setRecipient params wallet) = Ok tx ->
  Spec.approvesOnce params tx h (snd (tee provider params h)).
Proof.
  intros Hw Htx. unfold Spec.approvesOnce, Tee._swapTokens, Tee.lib. unfold_monad.
  rewrite Hw. cbn [fst snd Core.now Core.paramsObj Core.signerLog Core.tick].
  rewrite Htx. run_calls.
  all: rewrite <- ?app_assoc; cbn [app].
  all: eexists; split;
    [reflexivity | repeat first [apply Forall_nil | apply Forall_cons]; auto].
Qed.

Lemma meta_approvesOnce (provider : Meta.ISwapProvider World) (params : SwapParams)
    (h : Core.Heap) (wallet : string) (tx : EthUnsignedSwapTransaction) :
  Core.getWallet etherService (here h) = Ok wallet ->
  Core.getUnsignedTransaction provider (here h) (setRecipient params wallet)
  = Ok (Meta.Eth tx) ->
  Spec.approvesOnce params tx h (snd (meta provider params h)).
Proof.
  intros Hw Htx. unfold Spec.approvesOnce, Meta._swapTokens, Meta.lib. unfold_monad.
  rewrite Hw. cbn [fst snd Core.now Core.paramsObj Core.signerLog Core.tick].
  rewrite Htx. run_calls.
  all: rewrite <- ?app_assoc; cbn [app].
  all: eexists; split;
    [reflexivity | repeat first [apply Forall_nil | apply Forall_cons]; auto].
Qed.

(** What an execution does to the [SwapParams] object it is given. *)
Lemma tee_params (provider : Tee.ISwapProvider World) (params : SwapParams) (h : Core.Heap) :
  Core.paramsObj (snd (tee provider params h))
  = match Core.getWallet etherService (here h) with
    | Ok wallet => Some (setRecipient params wallet)
    | Throws _ => Core.paramsObj h
    end.
Proof.
  unfold Tee._swapTokens, Tee.lib. unfold_monad. run_calls. all: reflexivity.
Qed.

Lemma meta_params (provider : Meta.ISwapProvider World) (params : SwapParams) (h : Core.Heap) :
  Core.paramsObj (snd (meta provider params h))
  = match Core.getWallet etherService (here h) with
    | Ok wallet => Some (setRecipient params wallet)
    | Throws _ => Core.paramsObj h
    end.
Proof.
  unfold Meta._swapTokens, Meta.lib. unfold_monad. run_calls. all: reflexivity.
Qed.

(** C5.  When the transaction the chosen provider builds is a Solana
    transaction, which the EVM signer cannot handle, [_swapTokens] of
    the meta-swap-api variant throws [NotSupportedSigner], and the only
    signer operation it has called is reading the wallet address:
    neither [approveERC20IfNot] nor [buildAndSendTransaction] nor
    [waitForTransaction] is called.  (A provider of the tee-txn-signer
    variant builds EVM transactions only.) *)
Theorem _swapTokens_unsupported_signer (provider : Meta.ISwapProvider World)
    (params : SwapParams) (h : Core.Heap) (wallet : string)
    (tx : Meta.SolUnsignedSwapTransaction) :
  Core.getWallet etherService (here h) = Ok wallet ->
  Core.getUnsignedTransaction provider (here h) (setRecipient params wallet)
  = Ok (Meta.Sol tx) ->
  fst (meta provider params h) = Throws Core.NotSupportedSigner /\
  Core.signerLog (snd (meta provider params h)) = Core.signerLog h ++ [GetWallet] /\
  (forall c, In c (Core.signerLog (snd (meta provider params h))) ->
     In c (Core.signerLog h) \/ c = GetWallet).
Proof.
  intros Hw Htx.
  assert (meta provider params h
          = (Throws Core.NotSupportedSigner,
             {| Core.now := S (Core.now h);
                Core.paramsObj := Some (setRecipient params wallet);
                Core.signerLog := Core.signerLog h ++ [GetWallet] |})) as Hrun.
  { unfold Meta._swapTokens. unfold_monad. rewrite Hw.
    cbn [fst snd Core.now Core.paramsObj Core.signerLog Core.tick].
    rewrite Htx. reflexivity. }
  rewrite Hrun. cbn [fst snd Core.signerLog]. repeat split.
  intros c Hc. apply in_app_or in Hc. destruct Hc as [Hc | [<- | []]]; auto.
Qed.

(** C8.  In every execution that reaches the approval step, that is,
    whose wallet lookup succeeds and whose provider builds an EVM
    transaction [tx], [approveERC20IfNot] is called once, for the source
    token, with the target address [tx.to] as spender and with the
    amount 2^256 - 1, whatever the amount of the swap; the other signer
    operations of the execution submit or confirm the transaction. *)
Theorem approval_is_max_uint256
    (teeProvider : Tee.ISwapProvider World) (metaProvider : Meta.ISwapProvider World)
    (params : SwapParams) (h : Core.Heap) (wallet : string)
    (tx : EthUnsignedSwapTransaction) :
  Core.getWallet etherService (here h) = Ok wallet ->
  Core.getUnsignedTransaction teeProvider (here h) (setRecipient params wallet) = Ok tx ->
  Core.getUnsignedTransaction metaProvider (here h) (setRecipient params wallet)
  = Ok (Meta.Eth tx) ->
  Numeral.digitsValue (list_ascii_of_string (Approve.amount (Spec.approvalOf params tx)))
  = (2 ^ 256 - 1)%Z /\
  Approve.spenderAddress (Spec.approvalOf params tx) = to tx /\
  Approve.tokenAddress (Spec.approvalOf params tx) = address (fromToken params) /\
  Spec.approvesOnce params tx h (snd (tee teeProvider params h)) /\
  Spec.approvesOnce params tx h (snd (meta metaProvider params h)).
Proof.
  intros Hw Ht Hm. split; [vm_compute; reflexivity |].
  split; [reflexivity |]. split; [reflexivity |]. split.
  - now apply tee_approvesOnce with (wallet := wallet).
  - now apply meta_approvesOnce with (wallet := wallet).
Qed.

End Facts.
End Execution.

(** ** The orchestrator *)

Module Orchestration.
Section Facts.

Variables World Tx Request : Type.

Local Abbreviation ISwapProvider := (Core.ISwapProvider World Tx).
Local Abbreviation M := (Core.M World Tx).
Local Abbreviation isActive := (Spec.isActive (World:=World) (Tx:=Tx)).

Variable env : Core.Environment World.
Variable providers : list ISwapProvider.
Variable etherService : Core.EthService World.
Variable createSwapParams : Request -> M SwapParams.
Variable _swapTokens : ISwapProvider -> SwapParams -> M SwapResult.

Local Abbreviation getActiveProviders := (Core.getActiveProviders env providers).
Local Abbreviation getQuotesFromProviders := (Core.getQuotesFromProviders env providers).
Local Abbreviation swapTokens :=
  (Core.swapTokens env providers createSwapParams _swapTokens).
Local Abbreviation swapTokensByProvider :=
  (Core.swapTokensByProvider env providers createSwapParams _swapTokens).
Local Abbreviation named :=
  (fun (name : string) (p : ISwapProvider) => String.eqb (Core.getName p) name).

Lemma find_named_none (name : string) (l : list ISwapProvider) :
  (forall p, In p l -> Core.getName p <> name) -> find (named name) l = None.
Proof.
  intro H. destruct (find (named name) l) as [p |] eqn:Hf; [| reflexivity].
  apply find_some in Hf. destruct Hf as [Hin Heq].
  apply String.eqb_eq in Heq. now apply H in Hin.
Qed.

Lemma find_named_some (name : string) (l : list ISwapProvider) :
  (exists p, In p l /\ Core.getName p = name) ->
  exists target, find (named name) l = Some target /\ In target l
                 /\ Core.getName target = name.
Proof.
  intros (p & Hin & Hname).
  destruct (find (named name) l) as [target |] eqn:Hf.
  - exists target. apply find_some in Hf. destruct Hf as [Ht Heq].
    apply String.eqb_eq in Heq. auto.
  - apply (find_none _ _ Hf) in Hin. cbn beta in Hin.
    apply String.eqb_neq in Hin. contradiction.
Qed.

Lemma active_in_registry (w : World) (l : list ISwapProvider) (p : ISwapProvider) :
  Permutation l (filter (isActive w) providers) ->
  In p l <-> In p providers /\ isActive w p = true.
Proof.
  intro H. rewrite <- filter_In. split; intro Hin.
  - eapply Permutation_in; eauto.
  - eapply Permutation_in; [symmetry |]; eauto.
Qed.

Lemma swapTokensByProvider_unknown (name : string) (request : Request) (h : Core.Heap) :
  (forall p, In p providers ->
     isActive (Core.world env (Core.now h)) p = true -> Core.getName p <> name) ->
  swapTokensByProvider name request h
  = (Throws (Core.Error_ ("Unsupported provider: " ++ name)), Core.tick h).
Proof.
  intro H.
  destruct (Aggregation.getActiveProviders_returns World Tx env providers h)
    as (l & Hrun & Hperm & _).
  unfold Core.swapTokensByProvider, StateError.bind. rewrite Hrun.
  rewrite find_named_none; [reflexivity |].
  intros p Hin. apply (active_in_registry _ _ _ Hperm) in Hin. now apply H.
Qed.

Lemma swapTokensByProvider_known (name : string) (request : Request) (h : Core.Heap) :
  (exists p, In p providers
             /\ isActive (Core.world env (Core.now h)) p = true
             /\ Core.getName p = name) ->
  exists target,
    In target providers
    /\ isActive (Core.world env (Core.now h)) target = true
    /\ Core.getName target = name
    /\ swapTokensByProvider name request h
       = StateError.bind (createSwapParams request) (_swapTokens target) (Core.tick h).
Proof.
  intros (p & Hin & Hact & Hname).
  destruct (Aggregation.getActiveProviders_returns World Tx env providers h)
    as (l & Hrun & Hperm & _).
  destruct (find_named_some name l) as (target & Hfind & Ht & Htname).
  { exists p. split; [| assumption]. apply (active_in_registry _ _ _ Hperm). auto. }
  exists target. apply (active_in_registry _ _ _ Hperm) in Ht. destruct Ht as [Ht1 Ht2].
  repeat split; try assumption.
  unfold Core.swapTokensByProvider, StateError.bind at 1. rewrite Hrun, Hfind.
  reflexivity.
Qed.

(** C7.  When no active provider has the requested name, whatever
    providers are active, [swapTokensByProvider] throws the
    unsupported-provider error, and all it has done is the availability
    check: no [SwapParams] object is built and no signer operation is
    called.  When an active provider has the requested name, the method
    goes on, with an active provider of that name, to build the
    parameters and to execute the swap with it.  This holds for both
    variants, whose [createSwapParams] and [_swapTokens] differ. *)
Theorem swapTokensByProvider_checks_the_name (name : string) (request : Request)
    (h : Core.Heap) :
  ((forall p, In p providers ->
      isActive (Core.world env (Core.now h)) p = true -> Core.getName p <> name) ->
   swapTokensByProvider name request h
   = (Throws (Core.Error_ ("Unsupported provider: " ++ name)), Core.tick h))
  /\
  ((exists p, In p providers
              /\ isActive (Core.world env (Core.now h)) p = true
              /\ Core.getName p = name) ->
   exists target,
     In target providers
     /\ isActive (Core.world env (Core.now h)) target = true
     /\ Core.getName target = name
     /\ swapTokensByProvider name request h
        = StateError.bind (createSwapParams request) (_swapTokens target) (Core.tick h)).
Proof.
  split.
  - apply swapTokensByProvider_unknown.
  - apply swapTokensByProvider_known.
Qed.

(** A round without active providers has no quotes. *)
Lemma no_active_no_quotes (params : SwapParams) (h : Core.Heap) :
  filter (isActive (Core.world env (Core.now h))) providers = [] ->
  fst (getQuotesFromProviders params h) = Ok [].
Proof.
  intro H.
  destruct (Aggregation.getQuotesFromProviders_returns World Tx env providers params h)
    as (active & quotes & Hact & Hrun & Hperm).
  destruct (Aggregation.getActiveProviders_returns World Tx env providers h)
    as (l & Hrun' & Hperm' & _).
  rewrite Hrun' in Hact. inversion Hact; subst l. rewrite H in Hperm'.
  apply Permutation_sym, Permutation_nil in Hperm'. subst active.
  cbn [flat_map] in Hperm.
  apply Permutation_sym, Permutation_nil in Hperm. subst quotes. now rewrite Hrun.
Qed.

(** What [swapTokens] does when the round has no quotes. *)
Lemma swapTokens_no_quotes (request : Request) (h h1 : Core.Heap) (params : SwapParams) :
  createSwapParams request h = (Ok params, h1) ->
  fst (getQuotesFromProviders params h1) = Ok [] ->
  exists rechecked,
    getActiveProviders (Core.tick (Core.tick h1))
    = (Ok rechecked, Core.tick (Core.tick (Core.tick h1)))
    /\ Permutation rechecked
         (filter (isActive (Core.world env (S (S (Core.now h1))))) providers)
    /\ swapTokens request h
       = (Throws (Core.NoValidQuote (Core.ProvidersListed rechecked)),
          Core.tick (Core.tick (Core.tick h1))).
Proof.
  intros Hc Hq.
  destruct (Aggregation.getQuotesFromProviders_returns World Tx env providers params h1)
    as (active & quotes & _ & Hrun & _).
  rewrite Hrun in Hq. cbn [fst] in Hq. inversion Hq; subst quotes.
  destruct (Aggregation.getActiveProviders_returns World Tx env providers
              (Core.tick (Core.tick h1))) as (l & Hrun' & Hperm' & _).
  exists l. split; [exact Hrun' |]. split; [exact Hperm' |].
  unfold Core.swapTokens, StateError.bind at 1. rewrite Hc.
  unfold StateError.bind at 1. rewrite Hrun. cbn [Core.getBestQuote].
  unfold StateError.bind. rewrite Hrun'. reflexivity.
Qed.

(** When availability is the same at the round and at the later check,
    the later check finds the providers the round considered. *)
Lemma recheck_stable (h h' : Core.Heap) (considered rechecked : list ISwapProvider) :
  (forall p, In p providers ->
     isActive (Core.world env (Core.now h)) p = isActive (Core.world env (Core.now h')) p) ->
  fst (getActiveProviders h) = Ok considered ->
  fst (getActiveProviders h') = Ok rechecked ->
  Permutation rechecked considered.
Proof.
  intros Hsame Hc Hr.
  destruct (Aggregation.getActiveProviders_returns World Tx env providers h)
    as (l & Hrun & Hperm & _).
  destruct (Aggregation.getActiveProviders_returns World Tx env providers h')
    as (l' & Hrun' & Hperm' & _).
  rewrite Hrun in Hc. rewrite Hrun' in Hr. cbn [fst] in Hc, Hr.
  inversion Hc; inversion Hr; subst.
  rewrite Hperm, Hperm'. erewrite filter_ext_in; [reflexivity |].
  intros p Hp. symmetry. now apply Hsame.
Qed.

(** What [swapTokens] leaves of the [SwapParams] object, for an
    execution step that only sets the recipient: the object as built
    when the round has no quote or the wallet cannot be read, and
    otherwise the object with the wallet address as recipient. *)
Lemma swapTokens_params (request : Request) (h h1 : Core.Heap) (params : SwapParams) :
  (forall provider params h,
     Core.paramsObj (snd (_swapTokens provider params h))
     = match Core.getWallet etherService (Core.world env (Core.now h)) with
       | Ok wallet => Some (setRecipient params wallet)
       | Throws _ => Core.paramsObj h
       end) ->
  createSwapParams request h = (Ok params, h1) ->
  Core.paramsObj h1 = Some params ->
  exists quotes,
    fst (getQuotesFromProviders params h1) = Ok quotes
    /\ Core.paramsObj (snd (getQuotesFromProviders params h1)) = Some params
    /\ Core.paramsObj (snd (swapTokens request h))
       = Some match Core.getBestQuote quotes,
                    Core.getWallet etherService (Core.world env (2 + Core.now h1)) with
              | Some _, Ok wallet => setRecipient params wallet
              | _, _ => params
              end.
Proof.
  intros Hexec Hc Hp.
  destruct (Aggregation.getQuotesFromProviders_returns World Tx env providers params h1)
    as (active & quotes & _ & Hrun & _).
  exists quotes. rewrite Hrun. split; [reflexivity |]. split; [exact Hp |].
  unfold Core.swapTokens, StateError.bind at 1. rewrite Hc.
  unfold StateError.bind at 1. rewrite Hrun.
  destruct (Core.getBestQuote quotes) as [bestQuote |].
  - rewrite Hexec. cbn [Core.tick Core.now Core.paramsObj plus].
    destruct (Core.getWallet etherService _) as [wallet | e]; [reflexivity | exact Hp].
  - destruct (Aggregation.getActiveProviders_returns World Tx env providers
                (Core.tick (Core.tick h1))) as (l & Hrun' & _).
    unfold StateError.bind. rewrite Hrun'. exact Hp.
Qed.

End Facts.
End Orchestration.

(** ** The two variants *)

Module Variants.
Section Facts.

Variable World : Type.

Local Abbreviation isActive := (fun Tx => Spec.isActive (World:=World) (Tx:=Tx)).

Variable env : Core.Environment World.
Variable etherService : Core.EthService World.
Variable toBigInt : string -> result Exn Z.
Variable newBigNumber : string -> BigNumber.value.
Variable toString : BigNumber.t -> string.
Variable getDecimals : World -> string -> ChainId -> result Exn nat.

Lemma tee_created (request : Tee.RequestDto) (h h1 : Core.Heap) (params : SwapParams) :
  Tee.createSwapParams (World:=World) newBigNumber request h = (Ok params, h1) ->
  Core.paramsObj h1 = Some params
  /\ Core.signerLog h1 = Core.signerLog h
  /\ Core.now h1 = Core.now h.
Proof.
  unfold Tee.createSwapParams, Core.store. intro H. inversion H; subst.
  repeat split.
Qed.

Lemma meta_created (request : Meta.RequestDto) (h h1 : Core.Heap) (params : SwapParams) :
  Meta.createSwapParams env getDecimals request h = (Ok params, h1) ->
  Core.paramsObj h1 = Some params
  /\ Core.signerLog h1 = Core.signerLog h.
Proof.
  unfold Meta.createSwapParams, Meta.lib. unfold_monad. run_calls.
  all: intro H; inversion H; subst; repeat split.
Qed.

Lemma tee_unset (request : Tee.RequestDto) (h h1 : Core.Heap) (params : SwapParams) :
  Tee.createSwapParams (World:=World) newBigNumber request h = (Ok params, h1) ->
  recipient params = None.
Proof.
  unfold Tee.createSwapParams, Core.store. intro H. inversion H; subst. reflexivity.
Qed.

Lemma meta_unset (request : Meta.RequestDto) (h h1 : Core.Heap) (params : SwapParams) :
  Meta.createSwapParams env getDecimals request h = (Ok params, h1) ->
  recipient params = None.
Proof.
  unfold Meta.createSwapParams, Meta.lib. unfold_monad. run_calls.
  all: intro H; inversion H; subst; reflexivity.
Qed.

Section Tee.

Variable providers : list (Tee.ISwapProvider World).

Local Abbreviation swapTokens := (Tee.swapTokens env providers etherService toBigInt newBigNumber).
Local Abbreviation getQuote := (Tee.getQuote env providers toString newBigNumber).
Local Abbreviation getQuotesFromProviders := (Tee.getQuotesFromProviders env providers).
Local Abbreviation getActiveProviders := (Tee.getActiveProviders env providers).

Lemma getQuote_no_quotes (request : Tee.RequestDto) (h h1 : Core.Heap)
    (params : SwapParams) (rechecked : list (Tee.ISwapProvider World)) :
  Tee.createSwapParams (World:=World) newBigNumber request h = (Ok params, h1) ->
  fst (getQuotesFromProviders params h1) = Ok [] ->
  getActiveProviders (Core.tick (Core.tick h1))
  = (Ok rechecked, Core.tick (Core.tick (Core.tick h1))) ->
  getQuote request h
  = (Throws (Core.NoValidQuote
               (Core.ProviderNamesListed (map (fun p => Core.getName p) rechecked))),
     Core.tick (Core.tick (Core.tick h1))).
Proof.
  intros Hc Hq Hr.
  destruct (Aggregation.getQuotesFromProviders_returns World Tee.Tx env providers params h1)
    as (active & quotes & _ & Hrun & _).
  unfold Tee.getQuotesFromProviders in Hq.
  rewrite Hrun in Hq. cbn [fst] in Hq. inversion Hq; subst quotes.
  unfold Tee.getQuote, StateError.bind at 1. rewrite Hc.
  unfold StateError.bind at 1. unfold Tee.getQuotesFromProviders. rewrite Hrun.
  cbn [Core.getBestQuote]. unfold StateError.bind. rewrite Hr. reflexivity.
Qed.

(** C6, amended.  When the round of a request has no quotes, in
    particular when no provider is active in it, [swapTokens] and
    [getQuote] of the tee-txn-signer variant throw [NoValidQuote].  Its
    payload is not the empty list of quotes: it is what a further call
    of [getActiveProviders] returns once the round is over, the
    providers themselves for [swapTokens] and their names for
    [getQuote], that is the providers active at that later check.  It
    lists the providers the round considered, up to order, when every
    provider answers [isInit()] at the later check as it did in the
    round; it is empty when no provider is active at the later check.
    No signer operation is called. *)
Theorem no_quotes_lists_rechecked_providers (request : Tee.RequestDto)
    (h h1 : Core.Heap) (params : SwapParams) :
  Tee.createSwapParams (World:=World) newBigNumber request h = (Ok params, h1) ->
  (filter (isActive Tee.Tx (Core.world env (Core.now h1))) providers = [] ->
   fst (getQuotesFromProviders params h1) = Ok [])
  /\
  (fst (getQuotesFromProviders params h1) = Ok [] ->
   exists rechecked,
     getActiveProviders (Core.tick (Core.tick h1))
     = (Ok rechecked, Core.tick (Core.tick (Core.tick h1)))
     /\ Permutation rechecked
          (filter (isActive Tee.Tx (Core.world env (S (S (Core.now h1))))) providers)
     /\ fst (swapTokens request h)
        = Throws (Core.NoValidQuote (Core.ProvidersListed rechecked))
     /\ fst (getQuote request h)
        = Throws (Core.NoValidQuote
                    (Core.ProviderNamesListed (map (fun p => Core.getName p) rechecked)))
     /\ Core.signerLog (snd (swapTokens request h)) = Core.signerLog h
     /\ Core.signerLog (snd (getQuote request h)) = Core.signerLog h
     /\ ((forall p, In p providers ->
            isActive Tee.Tx (Core.world env (Core.now h1)) p
            = isActive Tee.Tx (Core.world env (S (S (Core.now h1)))) p) ->
         forall considered,
           fst (getActiveProviders h1) = Ok considered ->
           Permutation rechecked considered)).
Proof.
  intros Hc. split.
  { apply (Orchestration.no_active_no_quotes World Tee.Tx env providers params h1). }
  intro Hq.
  destruct (Orchestration.swapTokens_no_quotes World Tee.Tx Tee.RequestDto env providers
              (Tee.createSwapParams (World:=World) newBigNumber)
              (Tee._swapTokens env etherService toBigInt)
              request h h1 params Hc Hq) as (rechecked & Hr & Hperm & Hswap).
  pose proof (getQuote_no_quotes request h h1 params rechecked Hc Hq Hr) as Hquote.
  destruct (tee_created request h h1 params Hc) as (_ & Hlog & _).
  exists rechecked. split; [exact Hr |]. split; [exact Hperm |].
  unfold Tee.swapTokens. rewrite Hswap, Hquote. cbn [fst snd Core.tick Core.signerLog].
  repeat split; try assumption.
  intros Hsame considered Hcons.
  apply (Orchestration.recheck_stable World Tee.Tx env providers
           h1 (Core.tick (Core.tick h1)) considered rechecked);
    [exact Hsame | exact Hcons | unfold Tee.getActiveProviders in Hr; now rewrite Hr].
Qed.

End Tee.

(** C9, amended.  Once [createSwapParams] has built the [SwapParams]
    object of a request, with no recipient, the fan-out leaves the
    object as it is, and at the end of [swapTokens] its [fromToken],
    [toToken], [amount] and [slippageTolerance] are what they were.
    Its [recipient] is set by the execution step, to the address
    [getWallet] returns for the signer's wallet: it is that address
    when the round has a quote and the wallet is read, and it is still
    unset when the round has no quote or the wallet cannot be read.
    This holds in both variants. *)
Theorem params_change_in_recipient_only
    (teeProviders : list (Tee.ISwapProvider World))
    (metaProviders : list (Meta.ISwapProvider World)) :
  (forall request h h1 params,
     Tee.createSwapParams (World:=World) newBigNumber request h = (Ok params, h1) ->
     Core.paramsObj h1 = Some params
     /\ recipient params = None
     /\ Core.paramsObj (snd (Tee.getQuotesFromProviders env teeProviders params h1))
        = Some params
     /\ exists quotes final,
          fst (Tee.getQuotesFromProviders env teeProviders params h1) = Ok quotes
          /\ Core.paramsObj
               (snd (Tee.swapTokens env teeProviders etherService toBigInt newBigNumber
                       request h))
             = Some final
          /\ Spec.sameButRecipient params final
          /\ match Core.getBestQuote quotes,
                   Core.getWallet etherService (Core.world env (2 + Core.now h1)) with
             | Some _, Ok wallet => recipient final = Some wallet
             | _, _ => recipient final = None
             end)
  /\
  (forall request h h1 params,
     Meta.createSwapParams env getDecimals request h = (Ok params, h1) ->
     Core.paramsObj h1 = Some params
     /\ recipient params = None
     /\ Core.paramsObj (snd (Meta.getQuotesFromProviders env metaProviders params h1))
        = Some params
     /\ exists quotes final,
          fst (Meta.getQuotesFromProviders env metaProviders params h1) = Ok quotes
          /\ Core.paramsObj
               (snd (Meta.swapTokens env metaProviders etherService getDecimals toBigInt
                       request h))
             = Some final
          /\ Spec.sameButRecipient params final
          /\ match Core.getBestQuote quotes,
                   Core.getWallet etherService (Core.world env (2 + Core.now h1)) with
             | Some _, Ok wallet => recipient final = Some wallet
             | _, _ => recipient final = None
             end).
Proof.
  split; intros request h h1 params Hc.
  - destruct (tee_created request h h1 params Hc) as (Hp & _).
    pose proof (tee_unset request h h1 params Hc) as Hunset.
    destruct (Orchestration.swapTokens_params World Tee.Tx Tee.RequestDto env teeProviders
                etherService (Tee.createSwapParams (World:=World) newBigNumber)
                (Tee._swapTokens env etherService toBigInt) request h h1 params
                (Execution.tee_params World env etherService toBigInt) Hc Hp)
      as (quotes & Hq & Hagg & Hfinal).
    split; [exact Hp |]. split; [exact Hunset |]. split; [exact Hagg |].
    exists quotes. eexists. split; [exact Hq |]. split; [exact Hfinal |].
    destruct (Core.getBestQuote quotes) as [best |];
      [destruct (Core.getWallet etherService _) as [wallet | e] |];
      (split; [repeat split | first [reflexivity | exact Hunset]]).
  - destruct (meta_created request h h1 params Hc) as (Hp & _).
    pose proof (meta_unset request h h1 params Hc) as Hunset.
    destruct (Orchestration.swapTokens_params World Meta.Tx Meta.RequestDto env metaProviders
                etherService (Meta.createSwapParams env getDecimals)
                (Meta._swapTokens env etherService toBigInt) request h h1 params
                (Execution.meta_params World env etherService toBigInt) Hc Hp)
      as (quotes & Hq & Hagg & Hfinal).
    split; [exact Hp |]. split; [exact Hunset |]. split; [exact Hagg |].
    exists quotes. eexists. split; [exact Hq |]. split; [exact Hfinal |].
    destruct (Core.getBestQuote quotes) as [best |];
      [destruct (Core.getWallet etherService _) as [wallet | e] |];
      (split; [repeat split | first [reflexivity | exact Hunset]]).
Qed.

End Facts.
End Variants.

(** ** Selection and the order of the quotes *)

Module SelectionOrder.
Section Facts.

Variables World Tx : Type.

Local Abbreviation ProviderQuote := (Core.ProviderQuote World Tx).
Local Abbreviation getBestQuote := (Core.getBestQuote (World:=World) (Tx:=Tx)).
Local Abbreviation better := (Core.better (World:=World) (Tx:=Tx)).

Local Open Scope Q_scope.

Lemma best_is_selected (quotes : list ProviderQuote) (best : ProviderQuote) :
  getBestQuote quotes = Some best -> exists i, Spec.selects quotes i best.
Proof.
  destruct quotes as [| first rest]; [discriminate |].
  cbn [Core.getBestQuote]. intro H. inversion H; subst best.
  exact (Selection.selects_fold World Tx rest [first] 0%nat first
           (Selection.selects_seed World Tx first)).
Qed.

Lemma best_some (quotes : list ProviderQuote) :
  quotes <> [] -> exists best, getBestQuote quotes = Some best.
Proof. destruct quotes; [congruence | intros _; eexists; reflexivity]. Qed.

Lemma best_in (quotes : list ProviderQuote) (best : ProviderQuote) :
  getBestQuote quotes = Some best ->
  In best quotes
  /\ (forall q, In q quotes -> outputAmount q <= outputAmount best)
  /\ (forall q, In q quotes -> outputAmount q == outputAmount best -> fee best <= fee q).
Proof.
  intro H. destruct (best_is_selected _ _ H) as (i & Hnth & Hmax & Hfee & _).
  split; [eapply nth_error_In; eauto | auto].
Qed.

(** The selections of two lists with the same quotes offer the same. *)
Lemma best_perm (l l' : list ProviderQuote) :
  Permutation l l' -> Spec.sameOffer (getBestQuote l) (getBestQuote l').
Proof.
  intro Hperm.
  destruct (getBestQuote l) as [b |] eqn:Hb, (getBestQuote l') as [b' |] eqn:Hb';
    cbn [Spec.sameOffer].
  - destruct (best_in _ _ Hb) as (Hin & Hmax & Hfee).
    destruct (best_in _ _ Hb') as (Hin' & Hmax' & Hfee').
    assert (In b l') as Hbl' by (eapply Permutation_in; eauto).
    assert (In b' l) as Hb'l by (eapply Permutation_in; [symmetry |]; eauto).
    pose proof (Hmax _ Hb'l) as H1. pose proof (Hmax' _ Hbl') as H2.
    assert (outputAmount b == outputAmount b') as Heq by lra.
    split; [exact Heq |].
    assert (outputAmount b' == outputAmount b) as Heq' by lra.
    pose proof (Hfee _ Hb'l Heq') as H3. pose proof (Hfee' _ Hbl' Heq) as H4. lra.
  - destruct l' as [| q l']; [| discriminate].
    apply Permutation_sym, Permutation_nil in Hperm. subst l. discriminate.
  - destruct l as [| q l]; [| discriminate].
    apply Permutation_nil in Hperm. subst l'. discriminate.
  - exact I.
Qed.

Lemma better_keeps (best q : ProviderQuote) : Spec.noBetter best q -> better best q = best.
Proof.
  unfold Core.better. intros [Hlt | [Heq Hfee]].
  - assert (BigNumber.gt (outputAmount q) (outputAmount best) = false) as ->
      by (apply BigNumberFacts.gt_false; lra).
    assert (BigNumber.eq (outputAmount q) (outputAmount best) = false) as ->
      by (apply BigNumberFacts.eq_false; lra).
    reflexivity.
  - assert (BigNumber.gt (outputAmount q) (outputAmount best) = false) as ->
      by (apply BigNumberFacts.gt_false; lra).
    assert (BigNumber.lt (fee q) (fee best) = false) as ->
      by (apply BigNumberFacts.lt_false; lra).
    now rewrite andb_false_r.
Qed.

Lemma fold_keeps (more : list ProviderQuote) (best : ProviderQuote) :
  Forall (Spec.noBetter best) more -> fold_left better more best = best.
Proof.
  induction 1 as [| q more Hq _ IH]; [reflexivity |].
  cbn [fold_left]. now rewrite better_keeps.
Qed.

Lemma best_app (l more : list ProviderQuote) (best : ProviderQuote) :
  getBestQuote l = Some best ->
  getBestQuote (l ++ more) = Some (fold_left better more best).
Proof.
  destruct l as [| first rest]; [discriminate |].
  cbn [Core.getBestQuote app]. intro H. inversion H. now rewrite fold_left_app.
Qed.

(** X1.  What [getBestQuote] offers does not depend on the order of the
    quotes: on two lists that hold the same quotes in different orders
    it returns nothing on both, or quotes of the same [outputAmount] and
    the same [fee] (the provider may differ when quotes tie on both). *)
Theorem getBestQuote_order_independent (l l' : list ProviderQuote) :
  Permutation l l' -> Spec.sameOffer (getBestQuote l) (getBestQuote l').
Proof. apply best_perm. Qed.

(** X2.  Quotes that arrive after the selected one replace it only when
    they are better: with further quotes appended, [getBestQuote]
    returns a quote whose [outputAmount] is not lower than before, and
    it returns the very same quote when each further quote has a lower
    output, or the same output for a fee that is not lower. *)
Theorem getBestQuote_later_quotes (l more : list ProviderQuote) (best : ProviderQuote) :
  getBestQuote l = Some best ->
  exists best',
    getBestQuote (l ++ more) = Some best'
    /\ outputAmount best <= outputAmount best'
    /\ (Forall (Spec.noBetter best) more -> best' = best).
Proof.
  intro H. exists (fold_left better more best).
  pose proof (best_app l more best H) as Happ.
  split; [exact Happ |]. split.
  - destruct (best_in _ _ Happ) as (_ & Hmax & _).
    apply Hmax, in_or_app. left. now destruct (best_in _ _ H).
  - apply fold_keeps.
Qed.

End Facts.
End SelectionOrder.

(** ** Rounds of the provider pool *)

Module Rounds.
Section Facts.

Variables World Tx : Type.

Local Abbreviation ISwapProvider := (Core.ISwapProvider World Tx).
Local Abbreviation ProviderQuote := (Core.ProviderQuote World Tx).
Local Abbreviation isActive := (Spec.isActive (World:=World) (Tx:=Tx)).
Local Abbreviation entryOf := (Spec.entryOf (World:=World) (Tx:=Tx)).
Local Abbreviation providerOf := (fun q : ProviderQuote => provider q).

Lemma isActive_isInit (w : World) (p : ISwapProvider) :
  isActive w p = true <-> Core.isInit p w = Ok true.
Proof.
  unfold Spec.isActive. destruct (Core.isInit p w) as [[] | e]; split; congruence.
Qed.

Lemma entryOf_length (w : World) (params : SwapParams) (l : list ISwapProvider) :
  (List.length (flat_map (entryOf w params) l) <= List.length l)%nat.
Proof.
  induction l as [| p l IH]; [apply Nat.le_refl |].
  cbn [flat_map]. rewrite length_app. cbn [List.length].
  assert (List.length (entryOf w params p) <= 1)%nat as H.
  { unfold Spec.entryOf.
    destruct (Core.isSwapSupported p w _ _) as [[] | e]; cbn [List.length]; try lia.
    destruct (Core.getSwapQuote p w params); cbn [List.length]; lia. }
  lia.
Qed.

Lemma entryOf_provider (w : World) (params : SwapParams) (p : ISwapProvider)
    (q : ProviderQuote) :
  In q (entryOf w params p) -> provider q = p.
Proof.
  unfold Spec.entryOf.
  destruct (Core.isSwapSupported p w _ _) as [[] | e]; try contradiction.
  destruct (Core.getSwapQuote p w params); [| contradiction].
  intros [<- | []]. reflexivity.
Qed.

Lemma entryOf_NoDup (w : World) (params : SwapParams) (l : list ISwapProvider) :
  NoDup l -> NoDup (map providerOf (flat_map (entryOf w params) l)).
Proof.
  induction 1 as [| p l Hp _ IH]; [constructor |].
  cbn [flat_map]. rewrite map_app. apply NoDup_app.
  - unfold Spec.entryOf.
    destruct (Core.isSwapSupported p w _ _) as [[] | e]; try constructor.
    destruct (Core.getSwapQuote p w params); repeat constructor. intros [].
  - exact IH.
  - intros x Hx Hx'. apply in_map_iff in Hx. destruct Hx as (q & <- & Hq).
    apply entryOf_provider in Hq. cbn beta in Hx'. rewrite Hq in Hx'.
    apply in_map_iff in Hx'. destruct Hx' as (q' & Heq & Hq').
    apply in_flat_map in Hq'. destruct Hq' as (p' & Hp' & Hq').
    apply entryOf_provider in Hq'. cbn beta in Heq. congruence.
Qed.

Section OneEnvironment.

Variable env : Core.Environment World.
Variable providers : list ISwapProvider.

(** The best quote of a round is a quote of an active provider. *)
Lemma round_best (params : SwapParams) (h1 : Core.Heap) (quotes : list ProviderQuote)
    (best : ProviderQuote) :
  fst (Core.getQuotesFromProviders env providers params h1) = Ok quotes ->
  Core.getBestQuote quotes = Some best ->
  Spec.bestOfRound env providers params h1 quotes best.
Proof.
  intros Hq Hb.
  destruct (SelectionOrder.best_in World Tx quotes best Hb) as (Hin & Hmax & _).
  destruct (Aggregation.getQuotesFromProviders_returns World Tx env providers params h1)
    as (active & quotes' & Hact & Hrun & Hperm).
  destruct (Aggregation.getActiveProviders_returns World Tx env providers h1)
    as (l & Hact' & Hperm' & _).
  rewrite Hact in Hact'. inversion Hact'; subst l. clear Hact'.
  rewrite Hrun in Hq. cbn [fst] in Hq. inversion Hq; subst quotes'.
  unfold Spec.bestOfRound. repeat split; try assumption.
  - now rewrite Hrun.
  - apply (Permutation_in _ Hperm) in Hin. apply in_flat_map in Hin.
    destruct Hin as (p & Hp & Hentry). apply entryOf_provider in Hentry.
    rewrite Hentry. apply (Permutation_in _ Hperm') in Hp.
    apply filter_In in Hp. tauto.
  - apply (Permutation_in _ Hperm) in Hin. apply in_flat_map in Hin.
    destruct Hin as (p & Hp & Hentry). apply entryOf_provider in Hentry.
    rewrite Hentry. apply (Permutation_in _ Hperm') in Hp.
    apply filter_In in Hp. now apply isActive_isInit.
Qed.

(** X3.  A quote round never holds more quotes than there are active
    providers, nor more active providers than the registry has
    providers; the provider of every quote is a provider of the
    registry whose [isInit()] returned [true] in the round; and a
    registry without duplicates yields at most one quote for each
    provider. *)
Theorem round_bounds (params : SwapParams) (h : Core.Heap) :
  exists activeProviders quotes,
    Core.getActiveProviders env providers h = (Ok activeProviders, Core.tick h)
    /\ Core.getQuotesFromProviders env providers params h
       = (Ok quotes, Core.tick (Core.tick h))
    /\ (List.length quotes <= List.length activeProviders)%nat
    /\ (List.length activeProviders <= List.length providers)%nat
    /\ (forall q, In q quotes ->
          In (provider q) providers
          /\ Core.isInit (provider q) (Core.world env (Core.now h)) = Ok true)
    /\ (NoDup providers -> NoDup (map providerOf quotes)).
Proof.
  destruct (Aggregation.getQuotesFromProviders_returns World Tx env providers params h)
    as (active & quotes & Hact & Hrun & Hperm).
  destruct (Aggregation.getActiveProviders_returns World Tx env providers h)
    as (l & Hact' & Hperm' & _).
  rewrite Hact in Hact'. inversion Hact'; subst l. clear Hact'.
  exists active, quotes. split; [exact Hact |]. split; [exact Hrun |].
  split; [| split; [| split]].
  - rewrite (Permutation_length Hperm). apply entryOf_length.
  - rewrite (Permutation_length Hperm'). apply filter_length_le.
  - intros q Hq. apply (Permutation_in _ Hperm) in Hq.
    apply in_flat_map in Hq. destruct Hq as (p & Hp & Hq).
    apply entryOf_provider in Hq. rewrite Hq.
    apply (Permutation_in _ Hperm') in Hp. apply filter_In in Hp.
    destruct Hp as [Hp Ha]. split; [exact Hp | now apply isActive_isInit].
  - intro Hnodup.
    apply (Permutation_NoDup (Permutation_map providerOf (Permutation_sym Hperm))).
    apply entryOf_NoDup.
    apply (Permutation_NoDup (Permutation_sym Hperm')).
    now apply NoDup_filter.
Qed.

(** X4.  [getProviders] never throws: it answers with the name and the
    supported chains of exactly the providers of the registry whose
    [isInit()] returns [true], one entry for each, in the order in which
    the availability checks complete; it calls no signer operation and
    builds no parameters. *)
Theorem getProviders_lists_the_active (h : Core.Heap) :
  exists infos,
    Core.getProviders env providers h = (Ok infos, Core.tick h)
    /\ Permutation infos
         (map Spec.describe (filter (isActive (Core.world env (Core.now h))) providers))
    /\ (forall info, In info infos <->
          exists p, In p providers
                    /\ Core.isInit p (Core.world env (Core.now h)) = Ok true
                    /\ info = Spec.describe p)
    /\ (Core.schedule env (Core.now h) = [] ->
        infos = map Spec.describe
                  (filter (isActive (Core.world env (Core.now h))) providers)).
Proof.
  destruct (Aggregation.getActiveProviders_returns World Tx env providers h)
    as (active & Hrun & Hperm & Horder).
  exists (map Spec.describe active).
  split; [| split; [| split]].
  - unfold Core.getProviders, StateError.bind. rewrite Hrun. reflexivity.
  - now apply Permutation_map.
  - intro info. rewrite in_map_iff. split.
    + intros (p & <- & Hp). exists p. apply (Permutation_in _ Hperm) in Hp.
      apply filter_In in Hp. destruct Hp as [Hp Ha].
      split; [exact Hp |]. split; [now apply isActive_isInit | reflexivity].
    + intros (p & Hp & Ha & ->). exists p. split; [reflexivity |].
      apply (Permutation_in _ (Permutation_sym Hperm)), filter_In.
      split; [exact Hp | now apply isActive_isInit].
  - intro Hs. f_equal. apply Horder. now left.
Qed.

End OneEnvironment.

(** X5.  The completion order of the provider calls changes neither
    which quotes a round holds nor what is selected from them: in two
    environments whose worlds are the same and whose schedules differ,
    [getQuotesFromProviders] returns the same quotes up to order, and
    [getBestQuote] selects from them quotes of the same [outputAmount]
    and the same [fee]. *)
Theorem round_schedule_independent (env env' : Core.Environment World)
    (providers : list ISwapProvider) (params : SwapParams) (h : Core.Heap) :
  (forall n, Core.world env n = Core.world env' n) ->
  exists quotes quotes',
    fst (Core.getQuotesFromProviders env providers params h) = Ok quotes
    /\ fst (Core.getQuotesFromProviders env' providers params h) = Ok quotes'
    /\ Permutation quotes quotes'
    /\ Spec.sameOffer (Core.getBestQuote quotes) (Core.getBestQuote quotes').
Proof.
  intro Hw.
  destruct (Aggregation.getQuotesFromProviders_returns World Tx env providers params h)
    as (active & quotes & Hact & Hrun & Hperm).
  destruct (Aggregation.getQuotesFromProviders_returns World Tx env' providers params h)
    as (active' & quotes' & Hact' & Hrun' & Hperm').
  destruct (Aggregation.getActiveProviders_returns World Tx env providers h)
    as (l & Hl & Hpl & _).
  destruct (Aggregation.getActiveProviders_returns World Tx env' providers h)
    as (l' & Hl' & Hpl' & _).
  rewrite Hact in Hl. rewrite Hact' in Hl'. inversion Hl; inversion Hl'; subst l l'.
  rewrite <- !Hw in *.
  assert (Permutation quotes quotes') as Hq.
  { rewrite Hperm, Hperm'. apply Permutation_flat_map.
    rewrite Hpl, Hpl'. reflexivity. }
  exists quotes, quotes'. rewrite Hrun, Hrun'. cbn [fst].
  split; [reflexivity |]. split; [reflexivity |]. split; [exact Hq |].
  now apply SelectionOrder.best_perm.
Qed.

End Facts.
End Rounds.

(** ** The steps of an execution *)

Lemma not_empty (s : string) (b : bool) :
  negb (String.eqb s "") = b -> String.eqb s "" = negb b.
Proof. intros <-. now rewrite negb_involutive. Qed.

(** The fields of the transaction handed to the signer, from the case
    analysis of a method body. *)
Ltac signed_field :=
  repeat match goal with
    | H : value _ = _ |- _ => rewrite H; clear H
    | H : gasLimit _ = _ |- _ => rewrite H; clear H
    end;
  repeat match goal with
    | H : negb (String.eqb _ "") = _ |- _ =>
        apply not_empty in H; cbn [negb] in H; rewrite H; clear H
    end;
  cbn [TransactionRequest.value TransactionRequest.gasLimit]; eauto.

Ltac status_field :=
  unfold Spec.statusOf;
  match goal with
  | H : (status _ =? 1)%nat = _ |- _ => rewrite H; reflexivity
  end.

Ltac no_unit := repeat match goal with u : unit |- _ => destruct u end.

Module Protocol.
Section Facts.

Variable World : Type.
Variable env : Core.Environment World.
Variable etherService : Core.EthService World.
Variable toBigInt : string -> result Exn Z.

Local Abbreviation tee := (Tee._swapTokens env etherService toBigInt).
Local Abbreviation meta := (Meta._swapTokens env etherService toBigInt).
Local Abbreviation here := (fun h : Core.Heap => Core.world env (Core.now h)).
Local Abbreviation after :=
  (fun (n : nat) (h : Core.Heap) => Core.world env (n + Core.now h)).

(** The heap an execution leaves after [awaits] awaited calls and the
    signer operations [calls] that follow the reading of the wallet. *)
Local Abbreviation reached :=
  (fun (awaits : nat) (h : Core.Heap) (params : SwapParams) (wallet : string)
       (calls : list SignerCall) =>
     {| Core.now := awaits + Core.now h;
        Core.paramsObj := Some (setRecipient params wallet);
        Core.signerLog := Core.signerLog h ++ GetWallet :: calls |}).

Lemma tee_success (provider : Tee.ISwapProvider World) (params : SwapParams)
    (h h' : Core.Heap) (result : SwapResult) :
  tee provider params h = (Ok result, h') ->
  exists wallet tx unsignedTx txHash receipt,
    Core.getWallet etherService (here h) = Ok wallet
    /\ Core.getUnsignedTransaction provider (here h) (setRecipient params wallet) = Ok tx
    /\ Spec.signed toBigInt tx unsignedTx
    /\ Core.approveERC20IfNot etherService (after 1 h) (Spec.approvalOf params tx) = Ok tt
    /\ Core.buildAndSendTransaction etherService (after 2 h) unsignedTx = Ok (Some txHash)
    /\ Core.waitForTransaction etherService (after 3 h) txHash = Ok (Some receipt)
    /\ result = {| transactionHash := hash receipt;
                   swapStatus := Spec.statusOf receipt;
                   providerName := Core.getName provider |}
    /\ h' = reached 4 h params wallet
              [ApproveERC20IfNot (Spec.approvalOf params tx);
               BuildAndSendTransaction unsignedTx;
               WaitForTransaction txHash].
Proof.
  unfold Tee._swapTokens, Tee.lib. unfold_monad. run_calls.
  all: intro H; inversion H; subst; clear H.
  all: no_unit.
  all: rewrite <- ?app_assoc; cbn [app].
  all: eexists _, _, _, _, _.
  all: repeat split; cbn [plus]; eauto.
  all: try solve [signed_field].
  all: solve [status_field].
Qed.

Lemma meta_success (provider : Meta.ISwapProvider World) (params : SwapParams)
    (h h' : Core.Heap) (result : SwapResult) :
  meta provider params h = (Ok result, h') ->
  exists wallet tx unsignedTx txHash receipt,
    Core.getWallet etherService (here h) = Ok wallet
    /\ Core.getUnsignedTransaction provider (here h) (setRecipient params wallet)
       = Ok (Meta.Eth tx)
    /\ Spec.signed toBigInt tx unsignedTx
    /\ Core.approveERC20IfNot etherService (after 1 h) (Spec.approvalOf params tx) = Ok tt
    /\ Core.buildAndSendTransaction etherService (after 2 h) unsignedTx = Ok (Some txHash)
    /\ Core.waitForTransaction etherService (after 3 h) txHash = Ok (Some receipt)
    /\ result = {| transactionHash := hash receipt;
                   swapStatus := Spec.statusOf receipt;
                   providerName := Core.getName provider |}
    /\ h' = reached 4 h params wallet
              [ApproveERC20IfNot (Spec.approvalOf params tx);
               BuildAndSendTransaction unsignedTx;
               WaitForTransaction txHash].
Proof.
  unfold Meta._swapTokens, Meta.lib. unfold_monad. run_calls.
  all: intro H; inversion H; subst; clear H.
  all: no_unit.
  all: rewrite <- ?app_assoc; cbn [app].
  all: eexists _, _, _, _, _.
  all: repeat split; cbn [plus]; eauto.
  all: try solve [signed_field].
  all: solve [status_field].
Qed.

(** X6.  When [_swapTokens] returns, in either variant, every step of
    the execution has succeeded in turn: the wallet address was read
    and written into the parameters as recipient; the provider built
    an EVM transaction for these parameters; the approval for its
    target returned; the transaction handed to the signer has the
    target and the data of the provider's, its value read as ether (0
    when none is given) and its gas limit when one is given; the
    submission returned a hash, and the receipt awaited is that of this
    hash.  The result carries the hash of the receipt, the status
    ['success'] when the status of the receipt is 1 and ['failed']
    otherwise, and the name of the provider; the four signer operations
    were called once each, in this order. *)
Theorem _swapTokens_returns_after_every_step :
  (forall (provider : Tee.ISwapProvider World) params h h' result,
     tee provider params h = (Ok result, h') ->
     exists wallet tx unsignedTx txHash receipt,
       Core.getWallet etherService (here h) = Ok wallet
       /\ Core.getUnsignedTransaction provider (here h) (setRecipient params wallet)
          = Ok tx
       /\ Spec.signed toBigInt tx unsignedTx
       /\ Core.approveERC20IfNot etherService (after 1 h) (Spec.approvalOf params tx)
          = Ok tt
       /\ Core.buildAndSendTransaction etherService (after 2 h) unsignedTx
          = Ok (Some txHash)
       /\ Core.waitForTransaction etherService (after 3 h) txHash = Ok (Some receipt)
       /\ result = {| transactionHash := hash receipt;
                      swapStatus := Spec.statusOf receipt;
                      providerName := Core.getName provider |}
       /\ h' = reached 4 h params wallet
                 [ApproveERC20IfNot (Spec.approvalOf params tx);
                  BuildAndSendTransaction unsignedTx;
                  WaitForTransaction txHash])
  /\
  (forall (provider : Meta.ISwapProvider World) params h h' result,
     meta provider params h = (Ok result, h') ->
     exists wallet tx unsignedTx txHash receipt,
       Core.getWallet etherService (here h) = Ok wallet
       /\ Core.getUnsignedTransaction provider (here h) (setRecipient params wallet)
          = Ok (Meta.Eth tx)
       /\ Spec.signed toBigInt tx unsignedTx
       /\ Core.approveERC20IfNot etherService (after 1 h) (Spec.approvalOf params tx)
          = Ok tt
       /\ Core.buildAndSendTransaction etherService (after 2 h) unsignedTx
          = Ok (Some txHash)
       /\ Core.waitForTransaction etherService (after 3 h) txHash = Ok (Some receipt)
       /\ result = {| transactionHash := hash receipt;
                      swapStatus := Spec.statusOf receipt;
                      providerName := Core.getName provider |}
       /\ h' = reached 4 h params wallet
                 [ApproveERC20IfNot (Spec.approvalOf params tx);
                  BuildAndSendTransaction unsignedTx;
                  WaitForTransaction txHash]).
Proof. split; [exact tee_success | exact meta_success]. Qed.

Lemma tee_protocol (provider : Tee.ISwapProvider World) (params : SwapParams)
    (h : Core.Heap) :
  exists calls,
    Core.signerLog (snd (tee provider params h)) = Core.signerLog h ++ calls
    /\ Spec.inProtocol env etherService h calls.
Proof.
  unfold Tee._swapTokens, Tee.lib. unfold_monad. run_calls.
  all: no_unit.
  all: rewrite <- ?app_assoc; cbn [app].
  all: eexists; split; [reflexivity |].
  all: cbn [Spec.inProtocol]; auto.
Qed.

Lemma meta_protocol (provider : Meta.ISwapProvider World) (params : SwapParams)
    (h : Core.Heap) :
  exists calls,
    Core.signerLog (snd (meta provider params h)) = Core.signerLog h ++ calls
    /\ Spec.inProtocol env etherService h calls.
Proof.
  unfold Meta._swapTokens, Meta.lib. unfold_monad. run_calls.
  all: no_unit.
  all: rewrite <- ?app_assoc; cbn [app].
  all: eexists; split; [reflexivity |].
  all: cbn [Spec.inProtocol]; auto.
Qed.

(** X7.  Whatever the collaborators answer, the signer operations of an
    execution are an initial part of one fixed sequence, each called at
    most once: the wallet is read; then the approval is asked for; then
    the transaction is submitted, and only once the approval has
    returned normally; then the receipt is awaited, only once the
    submission has returned a hash, and for that hash.  This holds in
    both variants. *)
Theorem _swapTokens_signer_protocol
    (teeProvider : Tee.ISwapProvider World) (metaProvider : Meta.ISwapProvider World)
    (params : SwapParams) (h : Core.Heap) :
  (exists calls,
     Core.signerLog (snd (tee teeProvider params h)) = Core.signerLog h ++ calls
     /\ Spec.inProtocol env etherService h calls)
  /\
  (exists calls,
     Core.signerLog (snd (meta metaProvider params h)) = Core.signerLog h ++ calls
     /\ Spec.inProtocol env etherService h calls).
Proof. split; [apply tee_protocol | apply meta_protocol]. Qed.

Local Abbreviation cannotSend :=
  (fun Tx => Core.HttpException (World:=World) (Tx:=Tx) "Cannot send transaction" 404).
Local Abbreviation noReceipt :=
  (fun Tx => Core.HttpException (World:=World) (Tx:=Tx) "Cannot find transaction receipt" 404).

Lemma tee_errors (provider : Tee.ISwapProvider World) (params : SwapParams)
    (h : Core.Heap) (e : Core.ServiceError World Tee.Tx) :
  fst (tee provider params h) = Throws e ->
  (exists x, e = Core.Rethrown x)
  \/ (e = cannotSend Tee.Tx
      /\ exists approval unsignedTx,
           Core.buildAndSendTransaction etherService (after 2 h) unsignedTx = Ok None
           /\ Core.signerLog (snd (tee provider params h))
              = Core.signerLog h
                ++ [GetWallet; ApproveERC20IfNot approval;
                    BuildAndSendTransaction unsignedTx])
  \/ (e = noReceipt Tee.Tx
      /\ exists approval unsignedTx txHash,
           Core.waitForTransaction etherService (after 3 h) txHash = Ok None
           /\ Core.signerLog (snd (tee provider params h))
              = Core.signerLog h
                ++ [GetWallet; ApproveERC20IfNot approval;
                    BuildAndSendTransaction unsignedTx; WaitForTransaction txHash]).
Proof.
  unfold Tee._swapTokens, Tee.lib. unfold_monad. run_calls.
  all: intro H; inversion H; subst; clear H.
  all: rewrite <- ?app_assoc; cbn [app plus].
  all: try solve [left; eexists; reflexivity].
  all: try solve [right; left; split; [reflexivity |]; eexists _, _; split;
                  [eassumption | reflexivity]].
  all: solve [right; right; split; [reflexivity |]; eexists _, _, _; split;
              [eassumption | reflexivity]].
Qed.

Lemma meta_errors (provider : Meta.ISwapProvider World) (params : SwapParams)
    (h : Core.Heap) (e : Core.ServiceError World Meta.Tx) :
  fst (meta provider params h) = Throws e ->
  (exists x, e = Core.Rethrown x)
  \/ (e = Core.NotSupportedSigner
      /\ exists wallet tx,
           Core.getWallet etherService (here h) = Ok wallet
           /\ Core.getUnsignedTransaction provider (here h) (setRecipient params wallet)
              = Ok (Meta.Sol tx)
           /\ Core.signerLog (snd (meta provider params h))
              = Core.signerLog h ++ [GetWallet])
  \/ (e = cannotSend Meta.Tx
      /\ exists approval unsignedTx,
           Core.buildAndSendTransaction etherService (after 2 h) unsignedTx = Ok None
           /\ Core.signerLog (snd (meta provider params h))
              = Core.signerLog h
                ++ [GetWallet; ApproveERC20IfNot approval;
                    BuildAndSendTransaction unsignedTx])
  \/ (e = noReceipt Meta.Tx
      /\ exists approval unsignedTx txHash,
           Core.waitForTransaction etherService (after 3 h) txHash = Ok None
           /\ Core.signerLog (snd (meta provider params h))
              = Core.signerLog h
                ++ [GetWallet; ApproveERC20IfNot approval;
                    BuildAndSendTransaction unsignedTx; WaitForTransaction txHash]).
Proof.
  unfold Meta._swapTokens, Meta.lib. unfold_monad. run_calls.
  all: intro H; inversion H; subst; clear H.
  all: rewrite <- ?app_assoc; cbn [app plus].
  all: try solve [left; eexists; reflexivity].
  all: try solve [right; left; split; [reflexivity |]; eexists _, _; split;
                  [reflexivity |]; split; [eassumption | reflexivity]].
  all: try solve [right; right; left; split; [reflexivity |]; eexists _, _; split;
                  [eassumption | reflexivity]].
  all: solve [right; right; right; split; [reflexivity |]; eexists _, _, _; split;
              [eassumption | reflexivity]].
Qed.

(** X8.  The errors of [_swapTokens] are these and no others.  An
    exception of a collaborator (the signer, the provider, the
    conversions of ethers) passes on unchanged.  [HttpException] with
    the message 'Cannot send transaction' and the code 404 is thrown
    exactly after a submission that resolved to nothing, and then no
    receipt is awaited; [HttpException] with the message 'Cannot find
    transaction receipt' and the code 404 after a wait that resolved to
    nothing.  In the meta-swap-api variant [NotSupportedSigner] is
    thrown, only for a Solana transaction, before any approval.  No
    execution throws [NoValidQuote] or a plain [Error]. *)
Theorem _swapTokens_errors :
  (forall (provider : Tee.ISwapProvider World) params h e,
     fst (tee provider params h) = Throws e ->
     (exists x, e = Core.Rethrown x)
     \/ (e = cannotSend Tee.Tx
         /\ exists approval unsignedTx,
              Core.buildAndSendTransaction etherService (after 2 h) unsignedTx = Ok None
              /\ Core.signerLog (snd (tee provider params h))
                 = Core.signerLog h
                   ++ [GetWallet; ApproveERC20IfNot approval;
                       BuildAndSendTransaction unsignedTx])
     \/ (e = noReceipt Tee.Tx
         /\ exists approval unsignedTx txHash,
              Core.waitForTransaction etherService (after 3 h) txHash = Ok None
              /\ Core.signerLog (snd (tee provider params h))
                 = Core.signerLog h
                   ++ [GetWallet; ApproveERC20IfNot approval;
                       BuildAndSendTransaction unsignedTx; WaitForTransaction txHash]))
  /\
  (forall (provider : Meta.ISwapProvider World) params h e,
     fst (meta provider params h) = Throws e ->
     (exists x, e = Core.Rethrown x)
     \/ (e = Core.NotSupportedSigner
         /\ exists wallet tx,
              Core.getWallet etherService (here h) = Ok wallet
              /\ Core.getUnsignedTransaction provider (here h)
                   (setRecipient params wallet)
                 = Ok (Meta.Sol tx)
              /\ Core.signerLog (snd (meta provider params h))
                 = Core.signerLog h ++ [GetWallet])
     \/ (e = cannotSend Meta.Tx
         /\ exists approval unsignedTx,
              Core.buildAndSendTransaction etherService (after 2 h) unsignedTx = Ok None
              /\ Core.signerLog (snd (meta provider params h))
                 = Core.signerLog h
                   ++ [GetWallet; ApproveERC20IfNot approval;
                       BuildAndSendTransaction unsignedTx])
     \/ (e = noReceipt Meta.Tx
         /\ exists approval unsignedTx txHash,
              Core.waitForTransaction etherService (after 3 h) txHash = Ok None
              /\ Core.signerLog (snd (meta provider params h))
                 = Core.signerLog h
                   ++ [GetWallet; ApproveERC20IfNot approval;
                       BuildAndSendTransaction unsignedTx; WaitForTransaction txHash])).
Proof. split; [exact tee_errors | exact meta_errors]. Qed.

(** X9.  A step that throws stops the execution, and its exception is
    what [_swapTokens] throws.  When the provider cannot build the
    transaction, no approval is asked for; when the approval throws, no
    transaction is submitted.  In both cases the recipient has been
    written into the parameters already.  This holds in both variants. *)
Theorem _swapTokens_stops_at_the_failing_step
    (teeProvider : Tee.ISwapProvider World) (metaProvider : Meta.ISwapProvider World)
    (params : SwapParams) (h : Core.Heap) (wallet : string) (e : Exn) :
  Core.getWallet etherService (here h) = Ok wallet ->
  (Core.getUnsignedTransaction teeProvider (here h) (setRecipient params wallet)
   = Throws e ->
   tee teeProvider params h = (Throws (Core.Rethrown e), reached 1 h params wallet []))
  /\
  (Core.getUnsignedTransaction metaProvider (here h) (setRecipient params wallet)
   = Throws e ->
   meta metaProvider params h = (Throws (Core.Rethrown e), reached 1 h params wallet []))
  /\
  (forall tx,
     Core.getUnsignedTransaction teeProvider (here h) (setRecipient params wallet)
     = Ok tx ->
     Core.approveERC20IfNot etherService (after 1 h) (Spec.approvalOf params tx)
     = Throws e ->
     tee teeProvider params h
     = (Throws (Core.Rethrown e),
        reached 2 h params wallet [ApproveERC20IfNot (Spec.approvalOf params tx)]))
  /\
  (forall tx,
     Core.getUnsignedTransaction metaProvider (here h) (setRecipient params wallet)
     = Ok (Meta.Eth tx) ->
     Core.approveERC20IfNot etherService (after 1 h) (Spec.approvalOf params tx)
     = Throws e ->
     meta metaProvider params h
     = (Throws (Core.Rethrown e),
        reached 2 h params wallet [ApproveERC20IfNot (Spec.approvalOf params tx)])).
Proof.
  intro Hw. split; [| split; [| split]].
  - intro Htx. unfold Tee._swapTokens. unfold_monad. rewrite Hw.
    cbn [fst snd Core.now Core.paramsObj Core.signerLog Core.tick].
    rewrite Htx. reflexivity.
  - intro Htx. unfold Meta._swapTokens. unfold_monad. rewrite Hw.
    cbn [fst snd Core.now Core.paramsObj Core.signerLog Core.tick].
    rewrite Htx. reflexivity.
  - intros tx Htx Ha. unfold Tee._swapTokens. unfold_monad. rewrite Hw.
    cbn [fst snd Core.now Core.paramsObj Core.signerLog Core.tick].
    rewrite Htx. cbn [fst snd Core.now Core.paramsObj Core.signerLog Core.tick].
    unfold Spec.approvalOf in Ha. cbn [plus] in Ha. cbn [fromToken setRecipient].
    rewrite Ha. rewrite <- app_assoc. reflexivity.
  - intros tx Htx Ha. unfold Meta._swapTokens. unfold_monad. rewrite Hw.
    cbn [fst snd Core.now Core.paramsObj Core.signerLog Core.tick].
    rewrite Htx. cbn [fst snd Core.now Core.paramsObj Core.signerLog Core.tick].
    unfold Spec.approvalOf in Ha. cbn [plus] in Ha. cbn [fromToken setRecipient].
    rewrite Ha. rewrite <- app_assoc. reflexivity.
Qed.

(** X10.  On a provider that builds EVM transactions the two variants
    execute alike: when a provider of the meta-swap-api variant has the
    name of a provider of the tee-txn-signer variant and answers
    [getUnsignedTransaction] with the same transaction or the same
    exception, the two [_swapTokens] have the same outcome, the same
    result or the same error, and leave the same parameters and the
    same signer operations. *)
Theorem _swapTokens_variants_agree
    (teeProvider : Tee.ISwapProvider World) (metaProvider : Meta.ISwapProvider World)
    (params : SwapParams) (h : Core.Heap) :
  Core.getName metaProvider = Core.getName teeProvider ->
  (forall p,
     Core.getUnsignedTransaction metaProvider (here h) p
     = match Core.getUnsignedTransaction teeProvider (here h) p with
       | Ok tx => Ok (Meta.Eth tx)
       | Throws e => Throws e
       end) ->
  Spec.sameOutcome (fst (tee teeProvider params h)) (fst (meta metaProvider params h))
  /\ snd (tee teeProvider params h) = snd (meta metaProvider params h).
Proof.
  intros Hname Htx. cbn beta in Htx.
  unfold Tee._swapTokens, Meta._swapTokens, Tee.lib, Meta.lib. unfold_monad.
  rewrite Hname.
  destruct (Core.getWallet etherService (Core.world env (Core.now h))) as [wallet | e];
    cbn [fst snd Core.now Core.paramsObj Core.signerLog Core.tick];
    [| split; reflexivity].
  rewrite Htx. run_calls.
  all: cbn [Spec.sameOutcome Spec.sameError]; auto.
Qed.

End Facts.
End Protocol.

(** ** From a request to its answer *)

Module Pipeline.

Section Shared.

Variables World Tx Request : Type.

Local Abbreviation ISwapProvider := (Core.ISwapProvider World Tx).
Local Abbreviation ProviderQuote := (Core.ProviderQuote World Tx).
Local Abbreviation M := (Core.M World Tx).

Variable env : Core.Environment World.
Variable providers : list ISwapProvider.
Variable createSwapParams : Request -> M SwapParams.
Variable _swapTokens : ISwapProvider -> SwapParams -> M SwapResult.

Local Abbreviation getQuotesFromProviders := (Core.getQuotesFromProviders env providers).
Local Abbreviation swapTokens :=
  (Core.swapTokens env providers createSwapParams _swapTokens).
Local Abbreviation swapTokensByProvider :=
  (Core.swapTokensByProvider env providers createSwapParams _swapTokens).

Local Abbreviation bestOfRound := (Spec.bestOfRound env providers).

(** [swapTokens], once the parameters are built and the round is over. *)
Lemma swapTokens_run (request : Request) (h h1 : Core.Heap) (params : SwapParams) :
  createSwapParams request h = (Ok params, h1) ->
  exists quotes,
    getQuotesFromProviders params h1 = (Ok quotes, Core.tick (Core.tick h1))
    /\ swapTokens request h
       = match Core.getBestQuote quotes with
         | Some bestQuote =>
             _swapTokens (provider bestQuote) params (Core.tick (Core.tick h1))
         | None =>
             (Throws (Core.NoValidQuote
                        (Core.ProvidersListed
                           (snd (Async.Promise_all
                                   (Core.schedule env (S (S (Core.now h1))))
                                   (map (Core.activeCallback
                                           (Core.world env (S (S (Core.now h1)))))
                                        providers))))),
              Core.tick (Core.tick (Core.tick h1)))
         end.
Proof.
  intro Hc.
  destruct (Aggregation.getQuotesFromProviders_returns World Tx env providers params h1)
    as (active & quotes & _ & Hrun & _).
  exists quotes. split; [exact Hrun |].
  unfold Core.swapTokens, StateError.bind at 1. rewrite Hc.
  unfold StateError.bind at 1. rewrite Hrun.
  destruct (Core.getBestQuote quotes) as [bestQuote |]; [reflexivity |].
  destruct (Aggregation.fanOut_resolves World Tx env _
              (fun w => map (Core.activeCallback w) providers)
              (Core.tick (Core.tick h1))
              (Aggregation.activeCallback_neverRejects World Tx _ _))
    as (arr & Hre & Harr).
  unfold StateError.bind, Core.getActiveProviders. rewrite Hre.
  cbn [Core.now Core.tick] in Harr. rewrite Harr. reflexivity.
Qed.

Lemma swapTokens_built (request : Request) (h : Core.Heap) (result : SwapResult) :
  fst (swapTokens request h) = Ok result ->
  exists params h1, createSwapParams request h = (Ok params, h1).
Proof.
  unfold Core.swapTokens, StateError.bind at 1.
  destruct (createSwapParams request h) as [[params | e] h1]; [| discriminate].
  intros _. now exists params, h1.
Qed.

Lemma swapTokens_ok (request : Request) (h : Core.Heap) (result : SwapResult) :
  (forall p params h r,
     fst (_swapTokens p params h) = Ok r -> providerName r = Core.getName p) ->
  fst (swapTokens request h) = Ok result ->
  exists params h1 quotes best,
    createSwapParams request h = (Ok params, h1)
    /\ bestOfRound params h1 quotes best
    /\ providerName result = Core.getName (provider best).
Proof.
  intros Hexec Hok.
  destruct (swapTokens_built request h result Hok) as (params & h1 & Hc).
  destruct (swapTokens_run request h h1 params Hc) as (quotes & Hrun & Hswap).
  rewrite Hswap in Hok.
  destruct (Core.getBestQuote quotes) as [best |] eqn:Hb; [| discriminate].
  exists params, h1, quotes, best. split; [exact Hc |]. split.
  - apply (Rounds.round_best World Tx env providers params h1 quotes best);
      [rewrite Hrun; reflexivity | exact Hb].
  - now apply Hexec in Hok.
Qed.

Lemma swapTokens_no_valid_quote (request : Request) (h h1 : Core.Heap)
    (params : SwapParams) :
  (forall p params h cause,
     fst (_swapTokens p params h) <> Throws (Core.NoValidQuote cause)) ->
  createSwapParams request h = (Ok params, h1) ->
  ((exists cause, fst (swapTokens request h) = Throws (Core.NoValidQuote cause))
   <-> fst (getQuotesFromProviders params h1) = Ok [])
  /\ (fst (getQuotesFromProviders params h1) = Ok [] ->
      Core.signerLog (snd (swapTokens request h)) = Core.signerLog h1
      /\ Core.paramsObj (snd (swapTokens request h)) = Core.paramsObj h1).
Proof.
  intros Hexec Hc.
  destruct (swapTokens_run request h h1 params Hc) as (quotes & Hrun & Hswap).
  rewrite Hswap, Hrun. cbn [fst]. split; [split |].
  - intros (cause & Hthrow).
    destruct (Core.getBestQuote quotes) as [best |] eqn:Hb.
    + now apply Hexec in Hthrow.
    + destruct quotes; [reflexivity | discriminate].
  - intro Hq. inversion Hq; subst quotes. cbn [Core.getBestQuote fst].
    eexists. reflexivity.
  - intro Hq. inversion Hq; subst quotes. cbn [Core.getBestQuote snd].
    split; reflexivity.
Qed.

Lemma swapTokensByProvider_ok (name : string) (request : Request) (h : Core.Heap)
    (result : SwapResult) :
  (forall p params h r,
     fst (_swapTokens p params h) = Ok r -> providerName r = Core.getName p) ->
  fst (swapTokensByProvider name request h) = Ok result ->
  providerName result = name
  /\ exists target,
       In target providers
       /\ Core.isInit target (Core.world env (Core.now h)) = Ok true
       /\ Core.getName target = name.
Proof.
  intros Hexec.
  destruct (Aggregation.getActiveProviders_returns World Tx env providers h)
    as (l & Hrun & Hperm & _).
  unfold Core.swapTokensByProvider, StateError.bind at 1. rewrite Hrun.
  destruct (find _ l) as [target |] eqn:Hfind; [| discriminate].
  apply find_some in Hfind. destruct Hfind as [Hin Hname].
  apply String.eqb_eq in Hname.
  apply (Permutation_in _ Hperm), filter_In in Hin. destruct Hin as [Hin Hact].
  unfold StateError.bind.
  destruct (createSwapParams request (Core.tick h)) as [[params | e] h1]; [| discriminate].
  intro Hok. apply Hexec in Hok. split; [congruence |].
  exists target. split; [exact Hin |]. split; [| exact Hname].
  now apply Rounds.isActive_isInit.
Qed.

End Shared.

Section Variants.

Variable World : Type.
Variable env : Core.Environment World.
Variable etherService : Core.EthService World.
Variable toBigInt : string -> result Exn Z.
Variable newBigNumber : string -> BigNumber.value.
Variable getDecimals : World -> string -> ChainId -> result Exn nat.
Variable toString toString10 : BigNumber.t -> string.
Variable formatUnits : string -> nat -> result Exn string.

Local Abbreviation tee := (Tee._swapTokens env etherService toBigInt).
Local Abbreviation meta := (Meta._swapTokens env etherService toBigInt).

Lemma tee_names (p : Tee.ISwapProvider World) (params : SwapParams) (h : Core.Heap)
    (r : SwapResult) :
  fst (tee p params h) = Ok r -> providerName r = Core.getName p.
Proof.
  intro H. destruct (tee p params h) as [res h'] eqn:Hrun. cbn [fst] in H. subst res.
  destruct (Protocol.tee_success World env etherService toBigInt p params h h' r Hrun)
    as (wallet & tx & u & x & receipt & _ & _ & _ & _ & _ & _ & -> & _).
  reflexivity.
Qed.

Lemma meta_names (p : Meta.ISwapProvider World) (params : SwapParams) (h : Core.Heap)
    (r : SwapResult) :
  fst (meta p params h) = Ok r -> providerName r = Core.getName p.
Proof.
  intro H. destruct (meta p params h) as [res h'] eqn:Hrun. cbn [fst] in H. subst res.
  destruct (Protocol.meta_success World env etherService toBigInt p params h h' r Hrun)
    as (wallet & tx & u & x & receipt & _ & _ & _ & _ & _ & _ & -> & _).
  reflexivity.
Qed.

Lemma tee_quoted (p : Tee.ISwapProvider World) (params : SwapParams) (h : Core.Heap)
    (cause : Core.NoValidQuoteCause World Tee.Tx) :
  fst (tee p params h) <> Throws (Core.NoValidQuote cause).
Proof.
  intro H. apply Protocol.tee_errors in H.
  destruct H as [(x & H) | [(H & _) | (H & _)]]; discriminate.
Qed.

Lemma meta_quoted (p : Meta.ISwapProvider World) (params : SwapParams) (h : Core.Heap)
    (cause : Core.NoValidQuoteCause World Meta.Tx) :
  fst (meta p params h) <> Throws (Core.NoValidQuote cause).
Proof.
  intro H. apply Protocol.meta_errors in H.
  destruct H as [(x & H) | [(H & _) | [(H & _) | (H & _)]]]; discriminate.
Qed.

Variable teeProviders : list (Tee.ISwapProvider World).
Variable metaProviders : list (Meta.ISwapProvider World).

Local Abbreviation teeSwapTokens :=
  (Tee.swapTokens env teeProviders etherService toBigInt newBigNumber).
Local Abbreviation metaSwapTokens :=
  (Meta.swapTokens env metaProviders etherService getDecimals toBigInt).
Local Abbreviation teeGetQuote := (Tee.getQuote env teeProviders toString newBigNumber).
Local Abbreviation metaGetQuote :=
  (Meta.getQuote env metaProviders getDecimals toString toString10 formatUnits).
Local Abbreviation metaCreateSwapParams := (Meta.createSwapParams env getDecimals).

(** X11.  When [swapTokens] returns, in either variant, the swap was
    executed with the provider of the best quote of the round: the
    [provider] of the result is the name of the provider whose quote
    [getBestQuote] selected from the quotes of the round, a quote that
    no quote of the round exceeds in output, and that provider is a
    provider of the registry that was active in the round. *)
Theorem swapTokens_executes_the_best_quote :
  (forall request h result,
     fst (teeSwapTokens request h) = Ok result ->
     exists params h1 quotes best,
       Tee.createSwapParams (World:=World) newBigNumber request h = (Ok params, h1)
       /\ Spec.bestOfRound env teeProviders params h1 quotes best
       /\ providerName result = Core.getName (provider best))
  /\
  (forall request h result,
     fst (metaSwapTokens request h) = Ok result ->
     exists params h1 quotes best,
       metaCreateSwapParams request h = (Ok params, h1)
       /\ Spec.bestOfRound env metaProviders params h1 quotes best
       /\ providerName result = Core.getName (provider best)).
Proof.
  split; intros request h result H.
  - exact (swapTokens_ok World Tee.Tx Tee.RequestDto env teeProviders
             (Tee.createSwapParams (World:=World) newBigNumber) tee request h result tee_names H).
  - exact (swapTokens_ok World Meta.Tx Meta.RequestDto env metaProviders
             metaCreateSwapParams meta request h result meta_names H).
Qed.

(** X12.  Once the parameters of a request are built, [swapTokens]
    throws [NoValidQuote] exactly when the round returns no quote; with
    a quote in the round its errors are those of the execution.  When
    the round returns no quote, no signer operation is called and the
    parameters stay as built.  This holds in both variants. *)
Theorem swapTokens_no_valid_quote_iff_no_quote :
  (forall request h h1 params,
     Tee.createSwapParams (World:=World) newBigNumber request h = (Ok params, h1) ->
     ((exists cause, fst (teeSwapTokens request h) = Throws (Core.NoValidQuote cause))
      <-> fst (Tee.getQuotesFromProviders env teeProviders params h1) = Ok [])
     /\ (fst (Tee.getQuotesFromProviders env teeProviders params h1) = Ok [] ->
         Core.signerLog (snd (teeSwapTokens request h)) = Core.signerLog h1
         /\ Core.paramsObj (snd (teeSwapTokens request h)) = Core.paramsObj h1))
  /\
  (forall request h h1 params,
     metaCreateSwapParams request h = (Ok params, h1) ->
     ((exists cause, fst (metaSwapTokens request h) = Throws (Core.NoValidQuote cause))
      <-> fst (Meta.getQuotesFromProviders env metaProviders params h1) = Ok [])
     /\ (fst (Meta.getQuotesFromProviders env metaProviders params h1) = Ok [] ->
         Core.signerLog (snd (metaSwapTokens request h)) = Core.signerLog h1
         /\ Core.paramsObj (snd (metaSwapTokens request h)) = Core.paramsObj h1)).
Proof.
  split; intros request h h1 params Hc.
  - exact (swapTokens_no_valid_quote World Tee.Tx Tee.RequestDto env teeProviders
             (Tee.createSwapParams (World:=World) newBigNumber) tee request h h1 params tee_quoted Hc).
  - exact (swapTokens_no_valid_quote World Meta.Tx Meta.RequestDto env metaProviders
             metaCreateSwapParams meta request h h1 params meta_quoted Hc).
Qed.

(** X13.  When [swapTokensByProvider] returns, in either variant, the
    [provider] of the result is the requested name, and a provider of
    the registry with that name was active when the request began. *)
Theorem swapTokensByProvider_names_the_requested_provider :
  (forall name request h result,
     fst (Tee.swapTokensByProvider env teeProviders etherService toBigInt newBigNumber name request h)
     = Ok result ->
     providerName result = name
     /\ exists target,
          In target teeProviders
          /\ Core.isInit target (Core.world env (Core.now h)) = Ok true
          /\ Core.getName target = name)
  /\
  (forall name request h result,
     fst (Meta.swapTokensByProvider env metaProviders etherService getDecimals toBigInt
            name request h)
     = Ok result ->
     providerName result = name
     /\ exists target,
          In target metaProviders
          /\ Core.isInit target (Core.world env (Core.now h)) = Ok true
          /\ Core.getName target = name).
Proof.
  split; intros name request h result H.
  - exact (swapTokensByProvider_ok World Tee.Tx Tee.RequestDto env teeProviders
             (Tee.createSwapParams (World:=World) newBigNumber) tee name request h result tee_names H).
  - exact (swapTokensByProvider_ok World Meta.Tx Meta.RequestDto env metaProviders
             metaCreateSwapParams meta name request h result meta_names H).
Qed.

(** [getQuote] of the tee-txn-signer variant, once the round is over. *)
Lemma tee_getQuote_run (request : Tee.RequestDto) (h : Core.Heap) :
  exists params h1 quotes,
    Tee.createSwapParams (World:=World) newBigNumber request h = (Ok params, h1)
    /\ Core.signerLog h1 = Core.signerLog h
    /\ Core.paramsObj h1 = Some params
    /\ recipient params = None
    /\ Core.getQuotesFromProviders env teeProviders params h1
       = (Ok quotes, Core.tick (Core.tick h1))
    /\ teeGetQuote request h
       = match Core.getBestQuote quotes with
         | Some bestQuote =>
             (Ok {| amountOut := toString (outputAmount bestQuote);
                    normalAmountOut := None;
                    quoteProvider := Core.getName (provider bestQuote);
                    quoteFee := toString (fee bestQuote);
                    quoteEstimatedGas := option_map toString (estimatedGas bestQuote) |},
              Core.tick (Core.tick h1))
         | None =>
             (Throws (Core.NoValidQuote
                        (Core.ProviderNamesListed
                           (map (fun p => Core.getName p)
                              (snd (Async.Promise_all
                                      (Core.schedule env (S (S (Core.now h1))))
                                      (map (Core.activeCallback
                                              (Core.world env (S (S (Core.now h1)))))
                                           teeProviders)))))),
              Core.tick (Core.tick (Core.tick h1)))
         end.
Proof.
  assert (exists params h1,
            Tee.createSwapParams (World:=World) newBigNumber request h = (Ok params, h1)
            /\ Core.signerLog h1 = Core.signerLog h
            /\ Core.paramsObj h1 = Some params
            /\ recipient params = None) as (params & h1 & Hc & Hlog & Hobj & Hrec)
    by (eexists _, _; repeat split).
  destruct (Aggregation.getQuotesFromProviders_returns World Tee.Tx env teeProviders
              params h1) as (active & quotes & _ & Hrun & _).
  exists params, h1, quotes. repeat split; try assumption.
  unfold Tee.getQuote, StateError.bind at 1. rewrite Hc.
  unfold StateError.bind at 1. unfold Tee.getQuotesFromProviders. rewrite Hrun.
  destruct (Core.getBestQuote quotes) as [bestQuote |]; [reflexivity |].
  destruct (Aggregation.fanOut_resolves World Tee.Tx env _
              (fun w => map (Core.activeCallback w) teeProviders)
              (Core.tick (Core.tick h1))
              (Aggregation.activeCallback_neverRejects World Tee.Tx _ _))
    as (arr & Hre & Harr).
  unfold StateError.bind, Tee.getActiveProviders, Core.getActiveProviders. rewrite Hre.
  cbn [Core.now Core.tick] in Harr. rewrite Harr. reflexivity.
Qed.

Lemma meta_createSwapParams_built (request : Meta.RequestDto) (h h1 : Core.Heap)
    (params : SwapParams) :
  metaCreateSwapParams request h = (Ok params, h1) ->
  Core.signerLog h1 = Core.signerLog h
  /\ Core.paramsObj h1 = Some params
  /\ recipient params = None
  /\ getDecimals (Core.world env (S (Core.now h))) (Meta.tokenOut request)
       (orEthereum (Meta.chainOut request))
     = Ok (decimals (toToken params)).
Proof.
  unfold Meta.createSwapParams, Meta.lib. unfold_monad. run_calls.
  all: intro H; inversion H; subst; clear H.
  all: repeat split.
Qed.

Lemma meta_createSwapParams_fails (request : Meta.RequestDto) (h : Core.Heap)
    (e : Core.ServiceError World Meta.Tx) :
  fst (metaCreateSwapParams request h) = Throws e ->
  Core.signerLog (snd (metaCreateSwapParams request h)) = Core.signerLog h
  /\ Core.paramsObj (snd (metaCreateSwapParams request h)) = Core.paramsObj h
  /\ exists x,
       e = Core.Rethrown x
       /\ (getDecimals (Core.world env (Core.now h)) (Meta.tokenIn request)
             (orEthereum (Meta.chainIn request)) = Throws x
           \/ exists tokenInDecimals,
                getDecimals (Core.world env (Core.now h)) (Meta.tokenIn request)
                  (orEthereum (Meta.chainIn request)) = Ok tokenInDecimals
                /\ (getDecimals (Core.world env (S (Core.now h))) (Meta.tokenOut request)
                      (orEthereum (Meta.chainOut request)) = Throws x
                    \/ ethers.parseUnits (Meta.normalAmountIn request) tokenInDecimals
                       = Throws x)).
Proof.
  unfold Meta.createSwapParams, Meta.lib. unfold_monad. run_calls.
  all: intro H; inversion H; subst; clear H.
  all: split; [reflexivity |]; split; [reflexivity |]; eexists; split; [reflexivity |].
  - right. eexists. split; [reflexivity |]. now right.
  - right. eexists. split; [reflexivity |]. now left.
  - now left.
Qed.

(** [getQuote] of the meta-swap-api variant, once the parameters are
    built and the round is over. *)
Lemma meta_getQuote_run (request : Meta.RequestDto) (h h1 : Core.Heap)
    (params : SwapParams) :
  metaCreateSwapParams request h = (Ok params, h1) ->
  exists quotes,
    Core.getQuotesFromProviders env metaProviders params h1
    = (Ok quotes, Core.tick (Core.tick h1))
    /\ metaGetQuote request h
       = match Core.getBestQuote quotes with
         | Some bestQuote =>
             (match formatUnits (toString10 (outputAmount bestQuote))
                                (decimals (toToken params)) with
              | Ok normalAmountOut =>
                  Ok {| amountOut := toString10 (outputAmount bestQuote);
                        normalAmountOut := Some normalAmountOut;
                        quoteProvider := Core.getName (provider bestQuote);
                        quoteFee := toString (fee bestQuote);
                        quoteEstimatedGas :=
                          option_map toString10 (estimatedGas bestQuote) |}
              | Throws x => Throws (Core.Rethrown x)
              end,
              Core.tick (Core.tick h1))
         | None =>
             (Throws (Core.NoValidQuote
                        (Core.ProviderNamesListed
                           (map (fun p => Core.getName p)
                              (snd (Async.Promise_all
                                      (Core.schedule env (S (S (Core.now h1))))
                                      (map (Core.activeCallback
                                              (Core.world env (S (S (Core.now h1)))))
                                           metaProviders)))))),
              Core.tick (Core.tick (Core.tick h1)))
         end.
Proof.
  intro Hc.
  destruct (Aggregation.getQuotesFromProviders_returns World Meta.Tx env metaProviders
              params h1) as (active & quotes & _ & Hrun & _).
  exists quotes. split; [exact Hrun |].
  unfold Meta.getQuote, StateError.bind at 1. rewrite Hc.
  unfold StateError.bind at 1. unfold Meta.getQuotesFromProviders. rewrite Hrun.
  destruct (Core.getBestQuote quotes) as [bestQuote |].
  - unfold StateError.bind, Meta.lib.
    destruct (formatUnits _ _); reflexivity.
  - destruct (Aggregation.fanOut_resolves World Meta.Tx env _
                (fun w => map (Core.activeCallback w) metaProviders)
                (Core.tick (Core.tick h1))
                (Aggregation.activeCallback_neverRejects World Meta.Tx _ _))
      as (arr & Hre & Harr).
    unfold StateError.bind, Meta.getActiveProviders, Core.getActiveProviders.
    rewrite Hre. cbn [Core.now Core.tick] in Harr. rewrite Harr. reflexivity.
Qed.

(** X14.  When [getQuote] returns, in either variant, its answer is
    read off the best quote of the round: the output amount, the fee
    and the estimated gas, when there is one, printed, and the name of
    the provider of that quote.  In the meta-swap-api variant the answer
    has, in addition, the output amount in whole tokens, which
    [formatUnits] makes of the printed amount and of the decimals
    resolved for the target token. *)
Theorem getQuote_answers_with_the_best_quote :
  (forall request h response,
     fst (teeGetQuote request h) = Ok response ->
     exists params h1 quotes best,
       Tee.createSwapParams (World:=World) newBigNumber request h = (Ok params, h1)
       /\ Spec.bestOfRound env teeProviders params h1 quotes best
       /\ response
          = {| amountOut := toString (outputAmount best);
               normalAmountOut := None;
               quoteProvider := Core.getName (provider best);
               quoteFee := toString (fee best);
               quoteEstimatedGas := option_map toString (estimatedGas best) |})
  /\
  (forall request h response,
     fst (metaGetQuote request h) = Ok response ->
     exists params h1 quotes best normal,
       metaCreateSwapParams request h = (Ok params, h1)
       /\ Spec.bestOfRound env metaProviders params h1 quotes best
       /\ getDecimals (Core.world env (S (Core.now h))) (Meta.tokenOut request)
            (orEthereum (Meta.chainOut request))
          = Ok (decimals (toToken params))
       /\ formatUnits (toString10 (outputAmount best)) (decimals (toToken params))
          = Ok normal
       /\ response
          = {| amountOut := toString10 (outputAmount best);
               normalAmountOut := Some normal;
               quoteProvider := Core.getName (provider best);
               quoteFee := toString (fee best);
               quoteEstimatedGas := option_map toString10 (estimatedGas best) |}).
Proof.
  split; intros request h response Hok.
  - destruct (tee_getQuote_run request h)
      as (params & h1 & quotes & Hc & _ & _ & _ & Hrun & Hquote).
    rewrite Hquote in Hok.
    destruct (Core.getBestQuote quotes) as [best |] eqn:Hb; [| discriminate].
    cbn [fst] in Hok. inversion Hok; subst response.
    exists params, h1, quotes, best. split; [exact Hc |]. split; [| reflexivity].
    apply (Rounds.round_best World Tee.Tx env teeProviders params h1 quotes best);
      [rewrite Hrun; reflexivity | exact Hb].
  - destruct (metaCreateSwapParams request h) as [[params | e] h1] eqn:Hc.
    + destruct (meta_createSwapParams_built request h h1 params Hc)
        as (_ & _ & _ & Hdec).
      destruct (meta_getQuote_run request h h1 params Hc) as (quotes & Hrun & Hquote).
      rewrite Hquote in Hok.
      destruct (Core.getBestQuote quotes) as [best |] eqn:Hb; [| discriminate].
      cbn [fst] in Hok.
      destruct (formatUnits _ _) as [normal | x] eqn:Hf; [| discriminate].
      inversion Hok; subst response.
      exists params, h1, quotes, best, normal. split; [reflexivity |].
      split; [apply (Rounds.round_best World Meta.Tx env metaProviders params h1 quotes best);
              [rewrite Hrun; reflexivity | exact Hb] |].
      split; [exact Hdec |]. split; [exact Hf | reflexivity].
    + unfold Meta.getQuote, StateError.bind at 1 in Hok. rewrite Hc in Hok.
      discriminate.
Qed.

(** X15.  [getQuote] calls no signer operation, whatever its outcome,
    and the parameters it builds never get a recipient.  This holds in
    both variants; in the meta-swap-api variant no parameters are built
    when the decimals cannot be resolved or the amount cannot be
    converted. *)
Theorem getQuote_calls_no_signer :
  (forall request h,
     Core.signerLog (snd (teeGetQuote request h)) = Core.signerLog h
     /\ exists params,
          Core.paramsObj (snd (teeGetQuote request h)) = Some params
          /\ recipient params = None)
  /\
  (forall request h,
     Core.signerLog (snd (metaGetQuote request h)) = Core.signerLog h
     /\ (Core.paramsObj (snd (metaGetQuote request h)) = Core.paramsObj h
         \/ exists params,
              Core.paramsObj (snd (metaGetQuote request h)) = Some params
              /\ recipient params = None)).
Proof.
  split; intros request h.
  - destruct (tee_getQuote_run request h)
      as (params & h1 & quotes & _ & Hlog & Hobj & Hrec & _ & Hquote).
    rewrite Hquote.
    destruct (Core.getBestQuote quotes);
      cbn [snd Core.tick Core.signerLog Core.paramsObj];
      (split; [exact Hlog | exists params; split; assumption]).
  - destruct (metaCreateSwapParams request h) as [[params | e] h1] eqn:Hc.
    + destruct (meta_createSwapParams_built request h h1 params Hc)
        as (Hlog & Hobj & Hrec & _).
      destruct (meta_getQuote_run request h h1 params Hc) as (quotes & _ & Hquote).
      rewrite Hquote.
      destruct (Core.getBestQuote quotes);
        cbn [snd Core.tick Core.signerLog Core.paramsObj];
        (split; [exact Hlog | right; exists params; split; assumption]).
    + destruct (meta_createSwapParams_fails request h e) as (Hlog & Hobj & _);
        [now rewrite Hc |].
      assert (metaGetQuote request h = (Throws e, h1)) as Hquote
        by (unfold Meta.getQuote, StateError.bind at 1; now rewrite Hc).
      rewrite Hquote. rewrite Hc in *.
      cbn [snd] in *. split; [exact Hlog | left; exact Hobj].
Qed.


End Variants.

End Pipeline.

(** ** The token list *)

Module TokenList.

Local Abbreviation Pair := DexScreener.Pair.
Local Abbreviation TokenMap := (JsMap.t TokenInfo).

Lemma insertListed_extends (m : TokenMap) (pair : Pair) :
  exists more,
    Spec.insertListed m pair = m ++ more /\ (List.length more <= 1)%nat.
Proof.
  unfold Spec.insertListed.
  destruct (Spec.listed pair) as [token |];
    [destruct (JsMap.has m (address token)) eqn:Hhas |].
  - exists []. rewrite app_nil_r. split; [reflexivity | cbn; lia].
  - exists [(address token, token)]. rewrite TokenSearch.set_absent by assumption.
    split; [reflexivity | cbn; lia].
  - exists []. rewrite app_nil_r. split; [reflexivity | cbn; lia].
Qed.

Lemma fold_extends (pairs : list Pair) : forall m : TokenMap,
  exists more,
    fold_left Spec.insertListed pairs m = m ++ more
    /\ (List.length more <= List.length pairs)%nat.
Proof.
  induction pairs as [| pair pairs IH]; intro m; cbn [fold_left].
  - exists []. rewrite app_nil_r. split; [reflexivity | cbn; lia].
  - destruct (insertListed_extends m pair) as (one & -> & Hone).
    destruct (IH (m ++ one)) as (more & -> & Hmore).
    exists (one ++ more). rewrite app_assoc. split; [reflexivity |].
    rewrite length_app. cbn [List.length]. lia.
Qed.

(** X17.  The list of tokens grows with the response and keeps its
    order: the tokens listed for the first pairs of a response are
    listed first, as they are and in the same order, when further pairs
    follow, so a token is listed at the place of the first pair that
    has it; and there are never more tokens than pairs. *)
Theorem uniqueTokens_keeps_earlier_tokens (pairs later : list Pair) :
  (exists more, uniqueTokens (pairs ++ later) = uniqueTokens pairs ++ more)
  /\ (List.length (uniqueTokens pairs) <= List.length pairs)%nat.
Proof.
  rewrite !TokenSearch.uniqueTokens_fold. split.
  - rewrite fold_left_app.
    destruct (fold_extends later (fold_left Spec.insertListed pairs []))
      as (more & -> & _).
    exists (JsMap.values more). unfold JsMap.values. now rewrite map_app.
  - destruct (fold_extends pairs []) as (more & -> & Hmore).
    unfold JsMap.values. now rewrite length_map.
Qed.

Section Search.

Variables World Tx : Type.
Variable env : Core.Environment World.
Variable dexScreenerSearch : World -> string -> result Exn DexScreener.Response.

Local Abbreviation getTokenInfos :=
  (Core.getTokenInfos Tx env dexScreenerSearch).

(** X18.  [getTokenInfos] rethrows what it catches, and stops at the
    step that throws.  When the fetch throws, it throws that exception.
    When the response is not successful, it throws an [Error] whose
    message is 'DexScreener API error: ' followed by the status text,
    and the body is not read.  When reading the body throws, it throws
    that exception.  A body whose [pairs] is missing gives the empty
    list.  On each of these paths no signer operation is called and no
    parameters are built. *)
Theorem getTokenInfos_failures (searchString : string) (h : Core.Heap) :
  (forall x,
     dexScreenerSearch (Core.world env (Core.now h)) searchString = Throws x ->
     getTokenInfos searchString h = (Throws (Core.Rethrown x), Core.tick h))
  /\ (forall response,
        dexScreenerSearch (Core.world env (Core.now h)) searchString = Ok response ->
        DexScreener.ok response = false ->
        getTokenInfos searchString h
        = (Throws (Core.Error_
                     ("DexScreener API error: " ++ DexScreener.statusText response)),
           Core.tick h))
  /\ (forall response x,
        dexScreenerSearch (Core.world env (Core.now h)) searchString = Ok response ->
        DexScreener.ok response = true ->
        DexScreener.json response = Throws x ->
        getTokenInfos searchString h
        = (Throws (Core.Rethrown x), Core.tick (Core.tick h)))
  /\ (forall response,
        dexScreenerSearch (Core.world env (Core.now h)) searchString = Ok response ->
        DexScreener.ok response = true ->
        DexScreener.json response = Ok None ->
        getTokenInfos searchString h = (Ok [], Core.tick (Core.tick h))).
Proof.
  unfold Core.getTokenInfos. unfold_monad.
  split; [| split; [| split]].
  - intros x Hx. rewrite Hx. reflexivity.
  - intros response Hr Hok. rewrite Hr. cbn [fst snd]. rewrite Hok. reflexivity.
  - intros response x Hr Hok Hjson. rewrite Hr. cbn [fst snd]. rewrite Hok.
    cbn [negb]. rewrite Hjson. reflexivity.
  - intros response Hr Hok Hjson. rewrite Hr. cbn [fst snd]. rewrite Hok.
    cbn [negb]. rewrite Hjson. reflexivity.
Qed.

End Search.

End TokenList.

(** ** A request from end to end *)

Module EndToEnd.

Section Shared.

Variables World Tx Request : Type.

Local Abbreviation ISwapProvider := (Core.ISwapProvider World Tx).
Local Abbreviation M := (Core.M World Tx).

Variable env : Core.Environment World.
Variable providers : list ISwapProvider.
Variable etherService : Core.EthService World.
Variable createSwapParams : Request -> M SwapParams.
Variable _swapTokens : ISwapProvider -> SwapParams -> M SwapResult.

Hypothesis createSwapParams_log : forall request h,
  Core.signerLog (snd (createSwapParams request h)) = Core.signerLog h.

Hypothesis _swapTokens_log : forall provider params h,
  exists calls,
    Core.signerLog (snd (_swapTokens provider params h)) = Core.signerLog h ++ calls
    /\ Spec.inProtocol env etherService h calls.

Lemma swapTokens_log (request : Request) (h : Core.Heap) :
  exists calls,
    Core.signerLog (snd (Core.swapTokens env providers createSwapParams _swapTokens
                           request h))
    = Core.signerLog h ++ calls
    /\ (calls = [] \/ exists h2, Spec.inProtocol env etherService h2 calls).
Proof.
  pose proof (createSwapParams_log request h) as Hlog.
  destruct (createSwapParams request h) as [[params | e] h1] eqn:Hc; cbn [snd] in Hlog.
  - destruct (Pipeline.swapTokens_run World Tx Request env providers createSwapParams
                _swapTokens request h h1 params Hc) as (quotes & _ & ->).
    destruct (Core.getBestQuote quotes) as [best |].
    + destruct (_swapTokens_log (provider best) params (Core.tick (Core.tick h1)))
        as (calls & Hcalls & Hprotocol).
      exists calls. rewrite Hcalls. cbn [Core.tick Core.signerLog]. rewrite Hlog.
      split; [reflexivity | right; eauto].
    + exists []. cbn [snd Core.tick Core.signerLog]. rewrite Hlog, app_nil_r. auto.
  - exists []. unfold Core.swapTokens, StateError.bind at 1. rewrite Hc.
    cbn [snd]. rewrite Hlog, app_nil_r. auto.
Qed.

Lemma swapTokensByProvider_log (name : string) (request : Request) (h : Core.Heap) :
  exists calls,
    Core.signerLog (snd (Core.swapTokensByProvider env providers createSwapParams
                           _swapTokens name request h))
    = Core.signerLog h ++ calls
    /\ (calls = [] \/ exists h2, Spec.inProtocol env etherService h2 calls).
Proof.
  destruct (Aggregation.getActiveProviders_returns World Tx env providers h)
    as (l & Hrun & _).
  unfold Core.swapTokensByProvider, StateError.bind at 1. rewrite Hrun.
  destruct (find _ l) as [target |].
  - pose proof (createSwapParams_log request (Core.tick h)) as Hlog.
    unfold StateError.bind.
    destruct (createSwapParams request (Core.tick h)) as [[params | e] h1];
      cbn [snd Core.tick Core.signerLog] in Hlog.
    + destruct (_swapTokens_log target params h1) as (calls & Hcalls & Hprotocol).
      exists calls. rewrite Hcalls, Hlog. split; [reflexivity | right; eauto].
    + exists []. cbn [snd]. rewrite Hlog, app_nil_r. auto.
  - exists []. cbn [snd Core.tick Core.signerLog]. rewrite app_nil_r. auto.
Qed.

End Shared.

Section Environments.

Variables World Tx : Type.
Variables env env' : Core.Environment World.
Variable providers : list (Core.ISwapProvider World Tx).

Hypothesis same_worlds : forall n, Core.world env n = Core.world env' n.

(** Rounds answered alike hold the same quotes, in whatever order the
    calls complete. *)
Lemma rounds_alike (params : SwapParams) (h : Core.Heap)
    (quotes quotes' : list (Core.ProviderQuote World Tx)) :
  fst (Core.getQuotesFromProviders env providers params h) = Ok quotes ->
  fst (Core.getQuotesFromProviders env' providers params h) = Ok quotes' ->
  Permutation quotes quotes'.
Proof.
  intros Hq Hq'.
  destruct (Aggregation.getQuotesFromProviders_returns World Tx env providers params h)
    as (active & l & Hact & Hrun & Hperm).
  destruct (Aggregation.getQuotesFromProviders_returns World Tx env' providers params h)
    as (active' & l' & Hact' & Hrun' & Hperm').
  destruct (Aggregation.getActiveProviders_returns World Tx env providers h)
    as (a & Ha & Hpa & _).
  destruct (Aggregation.getActiveProviders_returns World Tx env' providers h)
    as (a' & Ha' & Hpa' & _).
  rewrite Hact in Ha. rewrite Hact' in Ha'. inversion Ha; inversion Ha'; subst a a'.
  rewrite Hrun in Hq. rewrite Hrun' in Hq'. cbn [fst] in Hq, Hq'.
  inversion Hq; inversion Hq'; subst l l'.
  rewrite <- !same_worlds in *.
  rewrite Hperm, Hperm'. apply Permutation_flat_map. rewrite Hpa, Hpa'. reflexivity.
Qed.

Lemma call_alike (A : Type) (f : World -> result Exn A) (h : Core.Heap) :
  Core.call (Tx:=Tx) env f h = Core.call (Tx:=Tx) env' f h.
Proof. unfold Core.call. now rewrite same_worlds. Qed.

Hypothesis same_schedules : forall n, Core.schedule env n = Core.schedule env' n.

Lemma fanOut_same (A : Type) (callbacks : World -> list (Async.Task _ A)) (h : Core.Heap) :
  Core.fanOut (Tx:=Tx) env callbacks h = Core.fanOut (Tx:=Tx) env' callbacks h.
Proof. unfold Core.fanOut. now rewrite same_worlds, same_schedules. Qed.

(** Rounds answered alike, whose calls complete in the same order, are
    the same. *)
Lemma rounds_same (params : SwapParams) (h : Core.Heap) :
  Core.getQuotesFromProviders env providers params h
  = Core.getQuotesFromProviders env' providers params h.
Proof.
  unfold Core.getQuotesFromProviders, Core.getActiveProviders, StateError.bind.
  rewrite fanOut_same.
  destruct (Core.fanOut env' _ h) as [[active | e] h1]; [| reflexivity].
  apply fanOut_same.
Qed.

End Environments.

Section Variants.

Variable World : Type.
Variable env : Core.Environment World.
Variable etherService : Core.EthService World.
Variable toBigInt : string -> result Exn Z.
Variable newBigNumber : string -> BigNumber.value.
Variable getDecimals : World -> string -> ChainId -> result Exn nat.
Variable toString toString10 : BigNumber.t -> string.
Variable formatUnits : string -> nat -> result Exn string.
Variable teeProviders : list (Tee.ISwapProvider World).
Variable metaProviders : list (Meta.ISwapProvider World).

Local Abbreviation tee := (Tee._swapTokens env etherService toBigInt).
Local Abbreviation meta := (Meta._swapTokens env etherService toBigInt).
Local Abbreviation teeSwapTokens :=
  (Tee.swapTokens env teeProviders etherService toBigInt newBigNumber).
Local Abbreviation metaSwapTokens :=
  (Meta.swapTokens env metaProviders etherService getDecimals toBigInt).
Local Abbreviation teeGetQuote := (Tee.getQuote env teeProviders toString newBigNumber).
Local Abbreviation metaGetQuote :=
  (Meta.getQuote env metaProviders getDecimals toString toString10 formatUnits).
Local Abbreviation metaCreateSwapParams := (Meta.createSwapParams env getDecimals).

Lemma tee_source_token (request : Tee.RequestDto) (h h1 : Core.Heap)
    (params : SwapParams) :
  Tee.createSwapParams (World:=World) newBigNumber request h = (Ok params, h1) ->
  address (fromToken params) = Tee.tokenIn request
  /\ Core.signerLog h1 = Core.signerLog h.
Proof.
  unfold Tee.createSwapParams, Core.store. intro H. inversion H; subst.
  split; reflexivity.
Qed.

Lemma meta_source_token (request : Meta.RequestDto) (h h1 : Core.Heap)
    (params : SwapParams) :
  metaCreateSwapParams request h = (Ok params, h1) ->
  address (fromToken params) = Meta.tokenIn request
  /\ Core.signerLog h1 = Core.signerLog h.
Proof.
  unfold Meta.createSwapParams, Meta.lib. unfold_monad. run_calls.
  all: intro H; inversion H; subst; clear H.
  all: split; reflexivity.
Qed.

(** X19.  A swap that succeeds is the composition of its steps, in both
    variants: the parameters are built from the request; the round is
    run and its best quote selected; the address [getWallet] returns
    is written into the parameters as recipient; the provider of the
    best quote builds the transaction for these parameters; the
    approval of the source token of the request, [tokenIn], for the
    target of that transaction returns; the submission returns a hash;
    and the receipt of that hash is found.  The signer is asked for
    these four operations, in this order, and for nothing else.  The
    result carries the hash and the status of that receipt and the
    name of that provider. *)
Theorem swapTokens_end_to_end :
  (forall request h h' result,
     teeSwapTokens request h = (Ok result, h') ->
     exists params h1 quotes best wallet tx unsignedTx txHash receipt,
       Tee.createSwapParams (World:=World) newBigNumber request h = (Ok params, h1)
       /\ Spec.bestOfRound env teeProviders params h1 quotes best
       /\ Core.getWallet etherService (Core.world env (2 + Core.now h1)) = Ok wallet
       /\ Core.getUnsignedTransaction (provider best)
            (Core.world env (2 + Core.now h1)) (setRecipient params wallet)
          = Ok tx
       /\ Core.approveERC20IfNot etherService (Core.world env (3 + Core.now h1))
            {| Approve.tokenAddress := Tee.tokenIn request;
               Approve.spenderAddress := to tx;
               Approve.amount := approvalAmount |}
          = Ok tt
       /\ Spec.signed toBigInt tx unsignedTx
       /\ Core.buildAndSendTransaction etherService (Core.world env (4 + Core.now h1))
            unsignedTx
          = Ok (Some txHash)
       /\ Core.waitForTransaction etherService (Core.world env (5 + Core.now h1)) txHash
          = Ok (Some receipt)
       /\ result = {| transactionHash := hash receipt;
                      swapStatus := Spec.statusOf receipt;
                      providerName := Core.getName (provider best) |}
       /\ Core.signerLog h'
          = Core.signerLog h
            ++ [GetWallet;
                ApproveERC20IfNot
                  {| Approve.tokenAddress := Tee.tokenIn request;
                     Approve.spenderAddress := to tx;
                     Approve.amount := approvalAmount |};
                BuildAndSendTransaction unsignedTx;
                WaitForTransaction txHash]
       /\ Core.paramsObj h' = Some (setRecipient params wallet))
  /\
  (forall request h h' result,
     metaSwapTokens request h = (Ok result, h') ->
     exists params h1 quotes best wallet tx unsignedTx txHash receipt,
       metaCreateSwapParams request h = (Ok params, h1)
       /\ Spec.bestOfRound env metaProviders params h1 quotes best
       /\ Core.getWallet etherService (Core.world env (2 + Core.now h1)) = Ok wallet
       /\ Core.getUnsignedTransaction (provider best)
            (Core.world env (2 + Core.now h1)) (setRecipient params wallet)
          = Ok (Meta.Eth tx)
       /\ Core.approveERC20IfNot etherService (Core.world env (3 + Core.now h1))
            {| Approve.tokenAddress := Meta.tokenIn request;
               Approve.spenderAddress := to tx;
               Approve.amount := approvalAmount |}
          = Ok tt
       /\ Spec.signed toBigInt tx unsignedTx
       /\ Core.buildAndSendTransaction etherService (Core.world env (4 + Core.now h1))
            unsignedTx
          = Ok (Some txHash)
       /\ Core.waitForTransaction etherService (Core.world env (5 + Core.now h1)) txHash
          = Ok (Some receipt)
       /\ result = {| transactionHash := hash receipt;
                      swapStatus := Spec.statusOf receipt;
                      providerName := Core.getName (provider best) |}
       /\ Core.signerLog h'
          = Core.signerLog h
            ++ [GetWallet;
                ApproveERC20IfNot
                  {| Approve.tokenAddress := Meta.tokenIn request;
                     Approve.spenderAddress := to tx;
                     Approve.amount := approvalAmount |};
                BuildAndSendTransaction unsignedTx;
                WaitForTransaction txHash]
       /\ Core.paramsObj h' = Some (setRecipient params wallet)).
Proof.
  split; intros request h h' result H.
  - unfold Tee.swapTokens in H.
    destruct (Pipeline.swapTokens_built World Tee.Tx Tee.RequestDto env teeProviders
                (Tee.createSwapParams (World:=World) newBigNumber) tee request h result)
      as (params & h1 & Hc); [now rewrite H |].
    destruct (Pipeline.swapTokens_run World Tee.Tx Tee.RequestDto env teeProviders
                (Tee.createSwapParams (World:=World) newBigNumber) tee request h h1
                params Hc)
      as (quotes & Hrun & Hswap).
    rewrite Hswap in H.
    destruct (Core.getBestQuote quotes) as [best |] eqn:Hb; [| discriminate].
    destruct (Protocol.tee_success World env etherService toBigInt _ _ _ _ _ H)
      as (wallet & tx & unsignedTx & txHash & receipt
          & Hwallet & Htx & Hsigned & Happrove & Hsend & Hwait & Hresult & Hheap).
    destruct (tee_source_token request h h1 params Hc) as [Htoken Hlog].
    unfold Spec.approvalOf in Happrove, Hheap. rewrite Htoken in Happrove, Hheap.
    exists params, h1, quotes, best, wallet, tx, unsignedTx, txHash, receipt.
    split; [exact Hc |].
    split; [apply (Rounds.round_best World Tee.Tx env teeProviders params h1 quotes best);
            [rewrite Hrun; reflexivity | exact Hb] |].
    split; [exact Hwallet |]. split; [exact Htx |]. split; [exact Happrove |].
    split; [exact Hsigned |]. split; [exact Hsend |]. split; [exact Hwait |].
    split; [exact Hresult |]. rewrite Hheap.
    cbn [Core.signerLog Core.paramsObj Core.tick]. rewrite Hlog. split; reflexivity.
  - unfold Meta.swapTokens in H.
    destruct (Pipeline.swapTokens_built World Meta.Tx Meta.RequestDto env metaProviders
                metaCreateSwapParams meta request h result)
      as (params & h1 & Hc); [now rewrite H |].
    destruct (Pipeline.swapTokens_run World Meta.Tx Meta.RequestDto env metaProviders
                metaCreateSwapParams meta request h h1 params Hc)
      as (quotes & Hrun & Hswap).
    rewrite Hswap in H.
    destruct (Core.getBestQuote quotes) as [best |] eqn:Hb; [| discriminate].
    destruct (Protocol.meta_success World env etherService toBigInt _ _ _ _ _ H)
      as (wallet & tx & unsignedTx & txHash & receipt
          & Hwallet & Htx & Hsigned & Happrove & Hsend & Hwait & Hresult & Hheap).
    destruct (meta_source_token request h h1 params Hc) as [Htoken Hlog].
    unfold Spec.approvalOf in Happrove, Hheap. rewrite Htoken in Happrove, Hheap.
    exists params, h1, quotes, best, wallet, tx, unsignedTx, txHash, receipt.
    split; [exact Hc |].
    split; [apply (Rounds.round_best World Meta.Tx env metaProviders params h1 quotes best);
            [rewrite Hrun; reflexivity | exact Hb] |].
    split; [exact Hwallet |]. split; [exact Htx |]. split; [exact Happrove |].
    split; [exact Hsigned |]. split; [exact Hsend |]. split; [exact Hwait |].
    split; [exact Hresult |]. rewrite Hheap.
    cbn [Core.signerLog Core.paramsObj Core.tick]. rewrite Hlog. split; reflexivity.
Qed.

Lemma meta_createSwapParams_alike (env' : Core.Environment World)
    (request : Meta.RequestDto) (h : Core.Heap) :
  (forall n, Core.world env n = Core.world env' n) ->
  metaCreateSwapParams request h = Meta.createSwapParams env' getDecimals request h.
Proof.
  intro Hw. unfold Meta.createSwapParams, StateError.bind.
  rewrite (call_alike World Meta.Tx env env' Hw).
  destruct (Core.call env' _ h) as [[tokenInDecimals | e] h1]; [| reflexivity].
  rewrite (call_alike World Meta.Tx env env' Hw). reflexivity.
Qed.

(** X20.  A quote and a swap of one request, answered alike by the
    collaborators, agree in both variants, whatever the order in which
    the calls of each complete: [getQuote] throws [NoValidQuote]
    exactly when [swapTokens] does; and when both return, the quote
    that [getQuote] reports and the quote whose provider [swapTokens]
    executes with are the best quotes of two rounds that hold the same
    quotes, and they have the same output and the same fee.  They name
    the same provider when the calls of both complete in the same
    order; with another order they may name different providers whose
    quotes tie on output and fee. *)
Theorem getQuote_and_swapTokens_agree (env' : Core.Environment World) :
  (forall n, Core.world env n = Core.world env' n) ->
  (forall request h,
     (forall response result,
        fst (teeGetQuote request h) = Ok response ->
        fst (Tee.swapTokens env' teeProviders etherService toBigInt newBigNumber
               request h) = Ok result ->
        exists params h1 quotes quotes' best best',
          Tee.createSwapParams (World:=World) newBigNumber request h = (Ok params, h1)
          /\ Spec.bestOfRound env teeProviders params h1 quotes best
          /\ Spec.bestOfRound env' teeProviders params h1 quotes' best'
          /\ Permutation quotes quotes'
          /\ quoteProvider response = Core.getName (provider best)
          /\ providerName result = Core.getName (provider best')
          /\ (outputAmount best == outputAmount best')%Q
          /\ (fee best == fee best')%Q
          /\ ((forall n, Core.schedule env n = Core.schedule env' n) ->
              providerName result = quoteProvider response))
     /\ ((exists cause, fst (teeGetQuote request h) = Throws (Core.NoValidQuote cause))
         <-> (exists cause,
                fst (Tee.swapTokens env' teeProviders etherService toBigInt newBigNumber
                       request h)
                = Throws (Core.NoValidQuote cause))))
  /\
  (forall request h,
     (forall response result,
        fst (metaGetQuote request h) = Ok response ->
        fst (Meta.swapTokens env' metaProviders etherService getDecimals toBigInt
               request h) = Ok result ->
        exists params h1 quotes quotes' best best',
          metaCreateSwapParams request h = (Ok params, h1)
          /\ Spec.bestOfRound env metaProviders params h1 quotes best
          /\ Spec.bestOfRound env' metaProviders params h1 quotes' best'
          /\ Permutation quotes quotes'
          /\ quoteProvider response = Core.getName (provider best)
          /\ providerName result = Core.getName (provider best')
          /\ (outputAmount best == outputAmount best')%Q
          /\ (fee best == fee best')%Q
          /\ ((forall n, Core.schedule env n = Core.schedule env' n) ->
              providerName result = quoteProvider response))
     /\ ((exists cause, fst (metaGetQuote request h) = Throws (Core.NoValidQuote cause))
         <-> (exists cause,
                fst (Meta.swapTokens env' metaProviders etherService getDecimals toBigInt
                       request h)
                = Throws (Core.NoValidQuote cause)))).
Proof.
  intro Hw. split; intros request h.
  - destruct (Pipeline.tee_getQuote_run World env newBigNumber toString teeProviders
                request h)
      as (params & h1 & quotes & Hc & _ & _ & _ & Hrun & Hquote).
    destruct (Pipeline.swapTokens_run World Tee.Tx Tee.RequestDto env' teeProviders
                (Tee.createSwapParams (World:=World) newBigNumber)
                (Tee._swapTokens env' etherService toBigInt) request h h1 params Hc)
      as (quotes' & Hrun' & Hswap).
    assert (Permutation quotes quotes') as Hperm
      by (apply (rounds_alike World Tee.Tx env env' teeProviders Hw params h1);
          [now rewrite Hrun | now rewrite Hrun']).
    pose proof (SelectionOrder.best_perm World Tee.Tx quotes quotes' Hperm) as Hoffer.
    unfold Tee.swapTokens. rewrite Hquote, Hswap.
    destruct (Core.getBestQuote quotes) as [best |] eqn:Hb;
      destruct (Core.getBestQuote quotes') as [best' |] eqn:Hb';
      cbn [Spec.sameOffer] in Hoffer; try contradiction; cbn [fst]; split.
    + intros response result Hr Hs. inversion Hr; subst response. cbn [quoteProvider].
      apply (Pipeline.tee_names World env' etherService toBigInt) in Hs.
      exists params, h1, quotes, quotes', best, best'.
      split; [exact Hc |].
      split; [apply (Rounds.round_best World Tee.Tx env teeProviders params h1 quotes best);
              [now rewrite Hrun | exact Hb] |].
      split; [apply (Rounds.round_best World Tee.Tx env' teeProviders params h1
                       quotes' best'); [now rewrite Hrun' | exact Hb'] |].
      split; [exact Hperm |]. split; [reflexivity |]. split; [exact Hs |].
      split; [apply Hoffer |]. split; [apply Hoffer |].
      intro Hsched.
      rewrite (rounds_same World Tee.Tx env env' teeProviders Hw Hsched) in Hrun.
      rewrite Hrun in Hrun'. inversion Hrun'; subst quotes'.
      rewrite Hb in Hb'. inversion Hb'; subst best'. exact Hs.
    + split; intros (cause & Hthrow); [discriminate |].
      now apply (Pipeline.tee_quoted World env' etherService toBigInt) in Hthrow.
    + intros response result Hr. discriminate.
    + split; intros _; eexists; reflexivity.
  - pose proof (meta_createSwapParams_alike env' request h Hw) as Hsame.
    destruct (metaCreateSwapParams request h) as [[params | e] h1] eqn:Hc.
    + symmetry in Hsame.
      destruct (Pipeline.meta_getQuote_run World env getDecimals toString toString10
                  formatUnits metaProviders request h h1 params Hc)
        as (quotes & Hrun & Hquote).
      destruct (Pipeline.swapTokens_run World Meta.Tx Meta.RequestDto env' metaProviders
                  (Meta.createSwapParams env' getDecimals)
                  (Meta._swapTokens env' etherService toBigInt) request h h1 params Hsame)
        as (quotes' & Hrun' & Hswap).
      assert (Permutation quotes quotes') as Hperm
        by (apply (rounds_alike World Meta.Tx env env' metaProviders Hw params h1);
            [now rewrite Hrun | now rewrite Hrun']).
      pose proof (SelectionOrder.best_perm World Meta.Tx quotes quotes' Hperm) as Hoffer.
      unfold Meta.swapTokens. rewrite Hquote, Hswap.
      destruct (Core.getBestQuote quotes) as [best |] eqn:Hb;
        destruct (Core.getBestQuote quotes') as [best' |] eqn:Hb';
        cbn [Spec.sameOffer] in Hoffer; try contradiction; cbn [fst]; split.
      * intros response result Hr Hs.
        destruct (formatUnits _ _); [| discriminate].
        inversion Hr; subst response. cbn [quoteProvider].
        apply (Pipeline.meta_names World env' etherService toBigInt) in Hs.
        exists params, h1, quotes, quotes', best, best'.
        split; [reflexivity |].
        split; [apply (Rounds.round_best World Meta.Tx env metaProviders params h1
                         quotes best); [now rewrite Hrun | exact Hb] |].
        split; [apply (Rounds.round_best World Meta.Tx env' metaProviders params h1
                         quotes' best'); [now rewrite Hrun' | exact Hb'] |].
        split; [exact Hperm |]. split; [reflexivity |]. split; [exact Hs |].
        split; [apply Hoffer |]. split; [apply Hoffer |].
        intro Hsched.
        rewrite (rounds_same World Meta.Tx env env' metaProviders Hw Hsched) in Hrun.
        rewrite Hrun in Hrun'. inversion Hrun'; subst quotes'.
        rewrite Hb in Hb'. inversion Hb'; subst best'. exact Hs.
      * split; intros (cause & Hthrow).
        -- destruct (formatUnits _ _); discriminate.
        -- now apply (Pipeline.meta_quoted World env' etherService toBigInt) in Hthrow.
      * intros response result Hr. discriminate.
      * split; intros _; eexists; reflexivity.
    + destruct (Pipeline.meta_createSwapParams_fails World env getDecimals request h e)
        as (_ & _ & x & -> & _); [now rewrite Hc |].
      assert (Meta.swapTokens env' metaProviders etherService getDecimals toBigInt
                request h = (Throws (Core.Rethrown x), h1)) as ->
        by (unfold Meta.swapTokens, Core.swapTokens, StateError.bind at 1;
            now rewrite <- Hsame).
      assert (metaGetQuote request h = (Throws (Core.Rethrown x), h1)) as ->
        by (unfold Meta.getQuote, StateError.bind at 1; now rewrite Hc).
      cbn [fst]. split; [discriminate |].
      split; intros (cause & Hthrow); discriminate.
Qed.

Lemma tee_createSwapParams_log (request : Tee.RequestDto) (h : Core.Heap) :
  Core.signerLog (snd (Tee.createSwapParams (World:=World) newBigNumber request h))
  = Core.signerLog h.
Proof. reflexivity. Qed.

Lemma meta_createSwapParams_log (request : Meta.RequestDto) (h : Core.Heap) :
  Core.signerLog (snd (metaCreateSwapParams request h)) = Core.signerLog h.
Proof.
  unfold Meta.createSwapParams, Meta.lib. unfold_monad. run_calls.
  all: reflexivity.
Qed.

(** X21.  A request submits at most one transaction, whatever happens:
    over a whole [swapTokens] or [swapTokensByProvider], in both
    variants, the signer is either not called at all or called along
    the sequence of one execution, each operation at most once (wallet,
    approval, submission once the approval has returned, receipt of the
    hash the submission returned).  No second provider is tried when
    the execution with the chosen one fails. *)
Theorem one_execution_per_request :
  (forall request h,
     exists calls,
       Core.signerLog (snd (teeSwapTokens request h)) = Core.signerLog h ++ calls
       /\ (calls = [] \/ exists h2, Spec.inProtocol env etherService h2 calls))
  /\
  (forall name request h,
     exists calls,
       Core.signerLog
         (snd (Tee.swapTokensByProvider env teeProviders etherService toBigInt newBigNumber
                 name request h))
       = Core.signerLog h ++ calls
       /\ (calls = [] \/ exists h2, Spec.inProtocol env etherService h2 calls))
  /\
  (forall request h,
     exists calls,
       Core.signerLog (snd (metaSwapTokens request h)) = Core.signerLog h ++ calls
       /\ (calls = [] \/ exists h2, Spec.inProtocol env etherService h2 calls))
  /\
  (forall name request h,
     exists calls,
       Core.signerLog
         (snd (Meta.swapTokensByProvider env metaProviders etherService getDecimals
                 toBigInt name request h))
       = Core.signerLog h ++ calls
       /\ (calls = [] \/ exists h2, Spec.inProtocol env etherService h2 calls)).
Proof.
  split; [| split; [| split]].
  - exact (swapTokens_log World Tee.Tx Tee.RequestDto env teeProviders etherService
             (Tee.createSwapParams (World:=World) newBigNumber) tee tee_createSwapParams_log
             (Protocol.tee_protocol World env etherService toBigInt)).
  - exact (swapTokensByProvider_log World Tee.Tx Tee.RequestDto env teeProviders
             etherService (Tee.createSwapParams (World:=World) newBigNumber) tee
             tee_createSwapParams_log
             (Protocol.tee_protocol World env etherService toBigInt)).
  - exact (swapTokens_log World Meta.Tx Meta.RequestDto env metaProviders etherService
             metaCreateSwapParams meta meta_createSwapParams_log
             (Protocol.meta_protocol World env etherService toBigInt)).
  - exact (swapTokensByProvider_log World Meta.Tx Meta.RequestDto env metaProviders
             etherService metaCreateSwapParams meta meta_createSwapParams_log
             (Protocol.meta_protocol World env etherService toBigInt)).
Qed.

End Variants.
End EndToEnd.

(** * Scenarios *)

Module Scenarios.

(** *** Selection, the pool and the fan-out *)

Import Example.

(** C1 on the two quotes of the selection scenario. *)
Lemma getBestQuote_selects_witness :
  [Tee.okxQuote; Tee.kyberQuote] <> [] /\
  exists i best,
    Core.getBestQuote [Tee.okxQuote; Tee.kyberQuote] = Some best /\
    nth_error [Tee.okxQuote; Tee.kyberQuote] i = Some best /\
    (forall q, In q [Tee.okxQuote; Tee.kyberQuote] ->
       outputAmount q <= outputAmount best)%Q /\
    (forall q, In q [Tee.okxQuote; Tee.kyberQuote] ->
       outputAmount q == outputAmount best -> fee best <= fee q)%Q /\
    (forall j q, (j < i)%nat -> nth_error [Tee.okxQuote; Tee.kyberQuote] j = Some q ->
       ~ (outputAmount q == outputAmount best /\ fee q == fee best)%Q).
Proof.
  split; [discriminate |].
  apply (Selection.getBestQuote_selects World Tee.Tx [Tee.okxQuote; Tee.kyberQuote]).
  discriminate.
Defined.

(** The selection scenario: of two quotes with output 1000 and fees 5
    and 3, the second is selected. *)
Example getBestQuote_lower_fee :
  Core.getBestQuote [Tee.okxQuote; Tee.kyberQuote] = Some Tee.kyberQuote.
Proof. reflexivity. Qed.

(** The fan-out scenario: of three providers one throws in
    [getSwapQuote]; the two others are in the result. *)
Example getQuotesFromProviders_two_of_three :
  fst (Core.getQuotesFromProviders inOrder [Tee.okx; Tee.oneInchV6; Tee.kyber] params start)
  = Ok [Tee.okxQuote; Tee.kyberQuote].
Proof. reflexivity. Qed.

(** C3 as stated fails: with two active providers, the second of which
    answers first, the returned list is not in registration order. *)
Lemma getActiveProviders_order_counterexample :
  fst (Core.getActiveProviders secondFirst [Tee.okx; Tee.kyber] start)
  = Ok [Tee.kyber; Tee.okx] /\
  filter (Spec.isActive (Core.world secondFirst (Core.now start))) [Tee.okx; Tee.kyber]
  = [Tee.okx; Tee.kyber] /\
  fst (Core.getActiveProviders secondFirst [Tee.okx; Tee.kyber] start)
  <> Ok (filter (Spec.isActive (Core.world secondFirst (Core.now start)))
                [Tee.okx; Tee.kyber]).
Proof.
  split; [reflexivity |]. split; [reflexivity |].
  intro H. apply (f_equal (fun r => match r with
                                    | Ok l => map (fun p => Core.getName p) l
                                    | Throws _ => []
                                    end)) in H.
  discriminate H.
Qed.

(** C3, amended, where the calls complete in registration order. *)
Lemma getActiveProviders_completion_order_witness :
  Core.schedule inOrder (Core.now start) = [] /\
  fst (Core.getActiveProviders inOrder [Tee.okx; Tee.openOcean; Tee.kyber] start)
  = Ok (filter (Spec.isActive (Core.world inOrder (Core.now start)))
               [Tee.okx; Tee.openOcean; Tee.kyber]).
Proof.
  split; [reflexivity |].
  destruct (Aggregation.getActiveProviders_completion_order World Tee.Tx inOrder
              [Tee.okx; Tee.openOcean; Tee.kyber] start) as (l & Hrun & _ & _ & Hord & _).
  rewrite Hrun. cbn [fst]. f_equal. apply Hord. reflexivity.
Defined.

(** *** The normalizer *)

(** The two conversions of the normalizer scenario. *)
Example createSwapParams_one_and_a_half :
  exists params h1,
    Meta.createSwapParams inOrder Meta.getDecimals (Meta.request "1.5") start
    = (Ok params, h1)
    /\ amount params = BigNumber.Finite (inject_Z 1500000).
Proof. eexists _, _. split; vm_compute; reflexivity. Qed.

Example createSwapParams_one_millionth :
  exists params h1,
    Meta.createSwapParams inOrder Meta.getDecimals (Meta.request "0.000001") start
    = (Ok params, h1)
    /\ amount params = BigNumber.Finite (inject_Z 1).
Proof. eexists _, _. split; vm_compute; reflexivity. Qed.

(** A numeral with more fraction digits than the token has decimals is
    refused. *)
Example createSwapParams_too_many_decimals :
  fst (Meta.createSwapParams inOrder Meta.getDecimals (Meta.request "0.0000001") start)
  = Throws (Core.Rethrown "too many decimals for format"%string).
Proof. vm_compute. reflexivity. Qed.

(** C4 as stated fails in the tee-txn-signer variant: for the amount
    string 1.5 the amount of the parameters is 1.5, with source-token
    decimals 18, and not 1.5 times 10^18. *)
Lemma createSwapParams_unscaled_counterexample :
  fst (Tee.createSwapParams (World:=World) newBigNumber (Tee.request "1.5") start)
  = Ok (Tee.built (BigNumber.Finite (15 # 10)%Q))
  /\ Numeral.decimalValue "1.5" = Some (15 # 10)%Q
  /\ decimals (fromToken (Tee.built (BigNumber.Finite (15 # 10)%Q))) = 18%nat
  /\ amount (Tee.built (BigNumber.Finite (15 # 10)%Q)) = BigNumber.Finite (15 # 10)%Q
  /\ ~ ((15 # 10) == (15 # 10) * inject_Z (10 ^ 18))%Q.
Proof.
  split; [vm_compute; reflexivity |]. split; [vm_compute; reflexivity |].
  split; [reflexivity |]. split; [reflexivity |].
  intro H. vm_compute in H. discriminate H.
Qed.

(** C4, amended, on the amount string 1.5 and a token of 6 decimals. *)
Lemma createSwapParams_scaling_witness :
  (exists params h1 q n,
     Meta.createSwapParams inOrder Meta.getDecimals (Meta.request "1.5") start
     = (Ok params, h1)
     /\ Numeral.decimalValue "1.5" = Some q
     /\ amount params = BigNumber.Finite (inject_Z n)
     /\ (inject_Z n == q * inject_Z (10 ^ Z.of_nat 6))%Q)
  /\ newBigNumber "1.5" = BigNumber.Finite (15 # 10)%Q
  /\ (exists params h1,
        Tee.createSwapParams (World:=World) newBigNumber (Tee.request "1.5") start
        = (Ok params, h1)
        /\ amount params = BigNumber.Finite (15 # 10)%Q
        /\ decimals (fromToken params) = 18%nat).
Proof.
  destruct (Normalizer.createSwapParams_scaling World inOrder Meta.getDecimals
              newBigNumber)
    as (Hexact & Haccepts & Htee).
  split; [| split; [vm_compute; reflexivity |]].
  2: { destruct (Htee (Tee.request "1.5") start)
         as (params & h1 & Hrun & _ & Hdec & _ & _ & Hread).
       exists params, h1. split; [exact Hrun |].
       split; [apply (Hread (15 # 10)%Q); vm_compute; reflexivity | exact Hdec]. }
  destruct (Haccepts (Meta.request "1.5") start 6%nat 6%nat false
              ["1"%char] ["5"%char] eq_refl eq_refl eq_refl)
    as (params & h1 & Hrun); [cbn; lia | cbn; lia | lia | cbn; lia |].
  destruct (Hexact _ _ _ _ Hrun) as (d & q & n & Hd & _ & Hq & Ha & Hs).
  inversion Hd; subst d.
  exists params, h1, q, n. repeat split; assumption.
Defined.

(** *** Execution *)

(** C5 on a provider that builds a Solana transaction. *)
Lemma _swapTokens_unsupported_signer_witness :
  Core.getWallet etherService (Core.world inOrder (Core.now start)) = Ok walletAddress
  /\ Core.getUnsignedTransaction Meta.jupiter (Core.world inOrder (Core.now start))
       (setRecipient params walletAddress)
     = Ok (Meta.Sol {| Meta.instructions := ["0x02000000"%string] |})
  /\ fst (Meta._swapTokens inOrder etherService toBigInt Meta.jupiter params start)
     = Throws Core.NotSupportedSigner
  /\ Core.signerLog (snd (Meta._swapTokens inOrder etherService toBigInt
                            Meta.jupiter params start))
     = [GetWallet].
Proof.
  split; [reflexivity |]. split; [reflexivity |].
  destruct (Execution._swapTokens_unsupported_signer World inOrder etherService toBigInt
              Meta.jupiter params start walletAddress
              {| Meta.instructions := ["0x02000000"%string] |} eq_refl eq_refl)
    as (Hthrows & Hlog & _).
  split; [exact Hthrows | exact Hlog].
Defined.

(** C8 on a swap through the router transaction. *)
Lemma approval_is_max_uint256_witness :
  Core.getWallet etherService (Core.world inOrder (Core.now start)) = Ok walletAddress
  /\ Core.getUnsignedTransaction Tee.okx (Core.world inOrder (Core.now start))
       (setRecipient params walletAddress) = Ok routerTx
  /\ Core.getUnsignedTransaction Meta.kyber (Core.world inOrder (Core.now start))
       (setRecipient params walletAddress) = Ok (Meta.Eth routerTx)
  /\ Numeral.digitsValue
       (list_ascii_of_string (Approve.amount (Spec.approvalOf params routerTx)))
     = (2 ^ 256 - 1)%Z
  /\ Spec.approvesOnce params routerTx start
       (snd (Tee._swapTokens inOrder etherService toBigInt Tee.okx params start))
  /\ Spec.approvesOnce params routerTx start
       (snd (Meta._swapTokens inOrder etherService toBigInt Meta.kyber params start)).
Proof.
  split; [reflexivity |]. split; [reflexivity |]. split; [reflexivity |].
  destruct (Execution.approval_is_max_uint256 World inOrder etherService toBigInt
              Tee.okx Meta.kyber params start walletAddress routerTx
              eq_refl eq_refl eq_refl) as (Hmax & _ & _ & Htee & Hmeta).
  split; [exact Hmax |]. split; [exact Htee | exact Hmeta].
Defined.

(** *** The orchestrator *)

(** C7 on an unknown name and on the name of an active provider. *)
Lemma swapTokensByProvider_checks_the_name_witness :
  (forall p, In p [Tee.okx; Tee.kyber] ->
     Spec.isActive (Core.world inOrder (Core.now start)) p = true ->
     Core.getName p <> "uniswap"%string)
  /\ Tee.swapTokensByProvider inOrder [Tee.okx; Tee.kyber] etherService toBigInt newBigNumber
       "uniswap" (Tee.request "1000") start
     = (Throws (Core.Error_ "Unsupported provider: uniswap"), Core.tick start)
  /\ (exists p, In p [Tee.okx; Tee.kyber]
                /\ Spec.isActive (Core.world inOrder (Core.now start)) p = true
                /\ Core.getName p = "kyber"%string)
  /\ (exists target,
        Core.getName target = "kyber"%string
        /\ Tee.swapTokensByProvider inOrder [Tee.okx; Tee.kyber] etherService toBigInt newBigNumber
             "kyber" (Tee.request "1000") start
           = StateError.bind (Tee.createSwapParams newBigNumber (Tee.request "1000"))
               (Tee._swapTokens inOrder etherService toBigInt target) (Core.tick start)).
Proof.
  assert (forall p, In p [Tee.okx; Tee.kyber] ->
            Spec.isActive (Core.world inOrder (Core.now start)) p = true ->
            Core.getName p <> "uniswap"%string) as Hunknown
    by (intros p [<- | [<- | []]] _; discriminate).
  assert (exists p, In p [Tee.okx; Tee.kyber]
                    /\ Spec.isActive (Core.world inOrder (Core.now start)) p = true
                    /\ Core.getName p = "kyber"%string) as Hknown
    by (exists Tee.kyber; repeat split; right; now left).
  split; [exact Hunknown |]. split; [| split; [exact Hknown |]].
  - destruct (Orchestration.swapTokensByProvider_checks_the_name World Tee.Tx
                Tee.RequestDto inOrder [Tee.okx; Tee.kyber]
                (Tee.createSwapParams (World:=World) newBigNumber)
                (Tee._swapTokens inOrder etherService toBigInt)
                "uniswap" (Tee.request "1000") start) as [H _].
    exact (H Hunknown).
  - destruct (Orchestration.swapTokensByProvider_checks_the_name World Tee.Tx
                Tee.RequestDto inOrder [Tee.okx; Tee.kyber]
                (Tee.createSwapParams (World:=World) newBigNumber)
                (Tee._swapTokens inOrder etherService toBigInt)
                "kyber" (Tee.request "1000") start) as [_ H].
    destruct (H Hknown) as (target & _ & _ & Hname & Hrun).
    exists target. split; [exact Hname | exact Hrun].
Defined.

(** C6 as stated fails: the only provider is down during the round, so
    that the round considers no provider and has no quote, and up when
    [getActiveProviders] is called again for the payload; the payload
    lists it. *)
Lemma no_quotes_payload_counterexample :
  fst (Tee.createSwapParams (World:=World) newBigNumber (Tee.request "1000") start)
  = Ok (Tee.built (BigNumber.Finite 1000%Q))
  /\ fst (Tee.getActiveProviders inOrder [Tee.openOcean]
            (snd (Tee.createSwapParams (World:=World) newBigNumber (Tee.request "1000") start)))
     = Ok []
  /\ fst (Tee.getQuotesFromProviders inOrder [Tee.openOcean] (Tee.built (BigNumber.Finite 1000%Q))
            (snd (Tee.createSwapParams (World:=World) newBigNumber (Tee.request "1000") start)))
     = Ok []
  /\ fst (Tee.swapTokens inOrder [Tee.openOcean] etherService toBigInt newBigNumber
             (Tee.request "1000") start)
     = Throws (Core.NoValidQuote (Core.ProvidersListed [Tee.openOcean]))
  /\ fst (Tee.getQuote inOrder [Tee.openOcean] toString newBigNumber (Tee.request "1000") start)
     = Throws (Core.NoValidQuote (Core.ProviderNamesListed ["openocean"%string]))
  /\ [Tee.openOcean] <> [].
Proof.
  split; [vm_compute; reflexivity |].
  split; [reflexivity |]. split; [reflexivity |].
  split; [reflexivity |]. split; [reflexivity |]. discriminate.
Qed.

(** C6, amended, on the same request. *)
Lemma no_quotes_lists_rechecked_providers_witness :
  exists params h1 rechecked,
    Tee.createSwapParams (World:=World) newBigNumber (Tee.request "1000") start = (Ok params, h1)
    /\ filter (Spec.isActive (Core.world inOrder (Core.now h1))) [Tee.openOcean] = []
    /\ fst (Tee.getQuotesFromProviders inOrder [Tee.openOcean] params h1) = Ok []
    /\ Permutation rechecked
         (filter (Spec.isActive (Core.world inOrder (S (S (Core.now h1)))))
                 [Tee.openOcean])
    /\ fst (Tee.swapTokens inOrder [Tee.openOcean] etherService toBigInt newBigNumber
               (Tee.request "1000") start)
       = Throws (Core.NoValidQuote (Core.ProvidersListed rechecked))
    /\ Core.signerLog (snd (Tee.swapTokens inOrder [Tee.openOcean] etherService toBigInt newBigNumber
                              (Tee.request "1000") start))
       = [].
Proof.
  destruct (Variants.no_quotes_lists_rechecked_providers World inOrder etherService
              toBigInt newBigNumber toString [Tee.openOcean] (Tee.request "1000") start
              _ _ eq_refl) as [Hzero Hempty].
  destruct (Hempty (Hzero eq_refl))
    as (rechecked & _ & Hperm & Hswap & _ & Hlog & _).
  eexists _, _, rechecked. split; [reflexivity |]. split; [reflexivity |].
  split; [exact (Hzero eq_refl) |].
  split; [exact Hperm |]. split; [exact Hswap | exact Hlog].
Defined.

(** C9 as stated fails: the execution step of a swap assigns the
    wallet address of the signer to the [recipient] of the parameters
    the normalizer has built. *)
Lemma params_recipient_counterexample :
  fst (Tee.createSwapParams (World:=World) newBigNumber (Tee.request "1000") start)
  = Ok (Tee.built (BigNumber.Finite 1000%Q))
  /\ Core.paramsObj (snd (Tee.swapTokens inOrder [Tee.okx] etherService toBigInt newBigNumber
                            (Tee.request "1000") start))
     = Some (setRecipient (Tee.built (BigNumber.Finite 1000%Q)) walletAddress)
  /\ recipient (Tee.built (BigNumber.Finite 1000%Q)) = None
  /\ recipient (setRecipient (Tee.built (BigNumber.Finite 1000%Q)) walletAddress) = Some walletAddress
  /\ setRecipient (Tee.built (BigNumber.Finite 1000%Q)) walletAddress <> Tee.built (BigNumber.Finite 1000%Q).
Proof.
  split; [vm_compute; reflexivity |]. split; [vm_compute; reflexivity |].
  split; [reflexivity |]. split; [reflexivity |].
  intro H. apply (f_equal recipient) in H. discriminate H.
Qed.

(** C9, amended, on the same swap. *)
Lemma params_change_in_recipient_only_witness :
  exists params h1 final,
    Tee.createSwapParams (World:=World) newBigNumber (Tee.request "1000") start
    = (Ok params, h1)
    /\ recipient params = None
    /\ Core.paramsObj (snd (Tee.getQuotesFromProviders inOrder [Tee.okx] params h1))
       = Some params
    /\ Core.paramsObj (snd (Tee.swapTokens inOrder [Tee.okx] etherService toBigInt
                              newBigNumber (Tee.request "1000") start))
       = Some final
    /\ Spec.sameButRecipient params final
    /\ Core.getWallet etherService (Core.world inOrder (2 + Core.now h1))
       = Ok walletAddress
    /\ recipient final = Some walletAddress.
Proof.
  destruct (Variants.params_change_in_recipient_only World inOrder etherService toBigInt
              newBigNumber Meta.getDecimals [Tee.okx] [Meta.kyber]) as [Htee _].
  destruct (Htee (Tee.request "1000") start _ _ eq_refl)
    as (_ & Hunset & Hagg & quotes & final & Hq & Hfinal & Hsame & Hrecipient).
  inversion Hq; subst quotes. cbn in Hrecipient.
  eexists _, _, final. split; [reflexivity |]. split; [exact Hunset |].
  split; [exact Hagg |]. split; [exact Hfinal |]. split; [exact Hsame |].
  split; [reflexivity | exact Hrecipient].
Defined.

(** *** Token search *)

(** One token address on two chains: the first pair with enough
    liquidity decides, and the decimals are 18. *)
Example getTokenInfos_one_entry_per_address :
  fst (Core.getTokenInfos Tee.Tx inOrder dexScreenerSearch "pepe" start) = Ok [pepe].
Proof. vm_compute. reflexivity. Qed.

(** C10 on that response. *)
Lemma getTokenInfos_decimals_18_unique_address_witness :
  fst (Core.getTokenInfos Tee.Tx inOrder dexScreenerSearch "pepe" start) = Ok [pepe]
  /\ Forall (fun token => decimals token = 18%nat) [pepe]
  /\ NoDup (map (fun token => address token) [pepe]).
Proof.
  assert (fst (Core.getTokenInfos Tee.Tx inOrder dexScreenerSearch "pepe" start)
          = Ok [pepe]) as Hrun by (vm_compute; reflexivity).
  destruct (TokenSearch.getTokenInfos_decimals_18_unique_address World Tee.Tx inOrder
              dexScreenerSearch "pepe" start [pepe] Hrun)
    as (_ & _ & _ & _ & Hdec & Hnodup & _).
  split; [exact Hrun |]. split; [exact Hdec | exact Hnodup].
Defined.

End Scenarios.

(** * Further scenarios *)

Module Checks.

Import Example.

Local Open Scope string_scope.

(** *** Selection and rounds *)

Lemma getBestQuote_order_independent_witness :
  Permutation [Tee.okxQuote; Tee.kyberQuote] [Tee.kyberQuote; Tee.okxQuote]
  /\ Spec.sameOffer (Core.getBestQuote [Tee.okxQuote; Tee.kyberQuote])
                    (Core.getBestQuote [Tee.kyberQuote; Tee.okxQuote]).
Proof.
  assert (Permutation [Tee.okxQuote; Tee.kyberQuote] [Tee.kyberQuote; Tee.okxQuote])
    as H by apply perm_swap.
  split; [exact H |].
  exact (SelectionOrder.getBestQuote_order_independent World Tee.Tx _ _ H).
Defined.

Lemma getBestQuote_later_quotes_witness :
  Core.getBestQuote [Tee.kyberQuote] = Some Tee.kyberQuote
  /\ Forall (Spec.noBetter Tee.kyberQuote) [Tee.okxQuote]
  /\ Core.getBestQuote ([Tee.kyberQuote] ++ [Tee.okxQuote]) = Some Tee.kyberQuote.
Proof.
  assert (Forall (Spec.noBetter Tee.kyberQuote) [Tee.okxQuote]) as Hmore.
  { apply Forall_cons; [| apply Forall_nil].
    right. split; [reflexivity | vm_compute; discriminate]. }
  split; [reflexivity |]. split; [exact Hmore |].
  destruct (SelectionOrder.getBestQuote_later_quotes World Tee.Tx
              [Tee.kyberQuote] [Tee.okxQuote] Tee.kyberQuote eq_refl)
    as (best' & Hbest & _ & Hkeep).
  rewrite (Hkeep Hmore) in Hbest. exact Hbest.
Defined.

Lemma round_bounds_witness :
  NoDup [Tee.okx; Tee.oneInchV6; Tee.kyber]
  /\ exists quotes,
       fst (Core.getQuotesFromProviders inOrder [Tee.okx; Tee.oneInchV6; Tee.kyber]
              params start) = Ok quotes
       /\ (List.length quotes <= 3)%nat
       /\ NoDup (map (fun q : Core.ProviderQuote World Tee.Tx => provider q) quotes).
Proof.
  assert (NoDup [Tee.okx; Tee.oneInchV6; Tee.kyber]) as Hnodup.
  { repeat constructor.
    - intros [H | [H | []]]; apply (f_equal (fun p => Core.getName p)) in H; discriminate.
    - intros [H | []]; apply (f_equal (fun p => Core.getName p)) in H; discriminate.
    - intros []. }
  split; [exact Hnodup |].
  destruct (Rounds.round_bounds World Tee.Tx inOrder [Tee.okx; Tee.oneInchV6; Tee.kyber]
              params start)
    as (active & quotes & _ & Hrun & Hq & Ha & _ & Hone).
  exists quotes. rewrite Hrun. split; [reflexivity |].
  split; [exact (Nat.le_trans _ _ _ Hq Ha) | exact (Hone Hnodup)].
Defined.

Lemma getProviders_lists_the_active_witness :
  Core.schedule inOrder (Core.now start) = []
  /\ fst (Core.getProviders inOrder [Tee.okx; Tee.openOcean; Tee.kyber] start)
     = Ok [ {| ProviderInfo.name := "okx"; ProviderInfo.supportedChains := [ETHEREUM] |};
            {| ProviderInfo.name := "kyber"; ProviderInfo.supportedChains := [ETHEREUM] |} ].
Proof.
  split; [reflexivity |].
  destruct (Rounds.getProviders_lists_the_active World Tee.Tx inOrder
              [Tee.okx; Tee.openOcean; Tee.kyber] start)
    as (infos & Hrun & _ & _ & Horder).
  rewrite Hrun, (Horder eq_refl). reflexivity.
Defined.

Lemma round_schedule_independent_witness :
  (forall n, Core.world inOrder n = Core.world secondFirst n)
  /\ exists quotes quotes',
       fst (Core.getQuotesFromProviders inOrder [Tee.okx; Tee.kyber] params start)
       = Ok quotes
       /\ fst (Core.getQuotesFromProviders secondFirst [Tee.okx; Tee.kyber] params start)
          = Ok quotes'
       /\ Permutation quotes quotes'
       /\ Spec.sameOffer (Core.getBestQuote quotes) (Core.getBestQuote quotes').
Proof.
  split; [reflexivity |].
  exact (Rounds.round_schedule_independent World Tee.Tx inOrder secondFirst
           [Tee.okx; Tee.kyber] params start (fun n => eq_refl)).
Defined.

(** *** Execution *)

Lemma _swapTokens_returns_after_every_step_witness :
  exists result h',
    Tee._swapTokens inOrder revertedService toBigInt Tee.okx params start = (Ok result, h')
    /\ swapStatus result = "failed"
    /\ providerName result = "okx"
    /\ exists tx unsignedTx txHash,
         Spec.signed toBigInt tx unsignedTx
         /\ Core.signerLog h'
            = [GetWallet; ApproveERC20IfNot (Spec.approvalOf params tx);
               BuildAndSendTransaction unsignedTx; WaitForTransaction txHash].
Proof.
  destruct (Protocol._swapTokens_returns_after_every_step World inOrder revertedService
              toBigInt) as [Htee _].
  destruct (Htee Tee.okx params start _ _ eq_refl)
    as (wallet & tx & unsignedTx & txHash & receipt
        & _ & _ & Hsigned & _ & _ & Hwait & Hresult & Hheap).
  eexists _, _. split; [exact eq_refl |]. split; [reflexivity |]. split; [reflexivity |].
  exists tx, unsignedTx, txHash. split; [exact Hsigned |].
  exact (f_equal Core.signerLog Hheap).
Defined.

Lemma _swapTokens_errors_witness :
  fst (Tee._swapTokens inOrder droppingService toBigInt Tee.okx params start)
  = Throws (Core.HttpException "Cannot send transaction" 404)
  /\ exists approval unsignedTx,
       Core.signerLog
         (snd (Tee._swapTokens inOrder droppingService toBigInt Tee.okx params start))
       = [GetWallet; ApproveERC20IfNot approval; BuildAndSendTransaction unsignedTx].
Proof.
  split; [reflexivity |].
  destruct (Protocol._swapTokens_errors World inOrder droppingService toBigInt)
    as [Htee _].
  destruct (Htee Tee.okx params start _ eq_refl)
    as [(x & Hx) | [(_ & approval & unsignedTx & _ & Hlog) | (Hx & _)]];
    [discriminate Hx | | discriminate Hx].
  exists approval, unsignedTx. exact Hlog.
Defined.

Lemma _swapTokens_stops_at_the_failing_step_witness :
  Core.getWallet refusingService (Core.world inOrder (Core.now start)) = Ok walletAddress
  /\ Core.getUnsignedTransaction Tee.okx (Core.world inOrder (Core.now start))
       (setRecipient params walletAddress) = Ok routerTx
  /\ Core.approveERC20IfNot refusingService (Core.world inOrder 1)
       (Spec.approvalOf params routerTx) = Throws "insufficient funds for gas"
  /\ fst (Tee._swapTokens inOrder refusingService toBigInt Tee.okx params start)
     = Throws (Core.Rethrown "insufficient funds for gas")
  /\ Core.signerLog
       (snd (Tee._swapTokens inOrder refusingService toBigInt Tee.okx params start))
     = [GetWallet; ApproveERC20IfNot (Spec.approvalOf params routerTx)].
Proof.
  split; [reflexivity |]. split; [reflexivity |]. split; [reflexivity |].
  destruct (Protocol._swapTokens_stops_at_the_failing_step World inOrder refusingService
              toBigInt Tee.okx Meta.kyber params start walletAddress
              "insufficient funds for gas" eq_refl) as (_ & _ & Htee & _).
  rewrite (Htee routerTx eq_refl eq_refl). split; reflexivity.
Defined.

Lemma _swapTokens_variants_agree_witness :
  Core.getName Meta.kyber = Core.getName Tee.kyber
  /\ Spec.sameOutcome
       (fst (Tee._swapTokens inOrder etherService toBigInt Tee.kyber params start))
       (fst (Meta._swapTokens inOrder etherService toBigInt Meta.kyber params start))
  /\ snd (Tee._swapTokens inOrder etherService toBigInt Tee.kyber params start)
     = snd (Meta._swapTokens inOrder etherService toBigInt Meta.kyber params start).
Proof.
  split; [reflexivity |].
  exact (Protocol._swapTokens_variants_agree World inOrder etherService toBigInt
           Tee.kyber Meta.kyber params start eq_refl (fun p => eq_refl)).
Defined.

(** *** From a request to its answer *)

Lemma swapTokens_executes_the_best_quote_witness :
  exists result params h1 quotes best,
    fst (Tee.swapTokens inOrder [Tee.okx; Tee.kyber] etherService toBigInt newBigNumber
           (Tee.request "1000") start) = Ok result
    /\ Spec.bestOfRound inOrder [Tee.okx; Tee.kyber] params h1 quotes best
    /\ providerName result = Core.getName (provider best).
Proof.
  destruct (Pipeline.swapTokens_executes_the_best_quote World inOrder etherService
              toBigInt newBigNumber Meta.getDecimals [Tee.okx; Tee.kyber] [Meta.kyber]) as [Htee _].
  destruct (Htee (Tee.request "1000") start _ eq_refl)
    as (params & h1 & quotes & best & _ & Hbest & Hname).
  eexists _, params, h1, quotes, best. split; [exact eq_refl |].
  split; [exact Hbest | exact Hname].
Defined.

Lemma swapTokens_no_valid_quote_iff_no_quote_witness :
  exists params h1 cause,
    Tee.createSwapParams (World:=World) newBigNumber (Tee.request "1000") start = (Ok params, h1)
    /\ fst (Tee.getQuotesFromProviders inOrder [Tee.openOcean] params h1) = Ok []
    /\ fst (Tee.swapTokens inOrder [Tee.openOcean] etherService toBigInt newBigNumber
              (Tee.request "1000") start)
       = Throws (Core.NoValidQuote cause).
Proof.
  destruct (Pipeline.swapTokens_no_valid_quote_iff_no_quote World inOrder etherService
              toBigInt newBigNumber Meta.getDecimals [Tee.openOcean] [Meta.kyber]) as [Htee _].
  destruct (Htee (Tee.request "1000") start _ _ eq_refl) as [[_ Hthrows] _].
  destruct (Hthrows eq_refl) as [cause Hcause].
  eexists _, _, cause. split; [exact eq_refl |]. split; [exact eq_refl | exact Hcause].
Defined.

Lemma swapTokensByProvider_names_the_requested_provider_witness :
  exists result,
    fst (Tee.swapTokensByProvider inOrder [Tee.okx; Tee.kyber] etherService toBigInt newBigNumber
           "okx" (Tee.request "1000") start) = Ok result
    /\ providerName result = "okx".
Proof.
  destruct (Pipeline.swapTokensByProvider_names_the_requested_provider World inOrder
              etherService toBigInt newBigNumber Meta.getDecimals [Tee.okx; Tee.kyber] [Meta.kyber])
    as [Htee _].
  destruct (Htee "okx" (Tee.request "1000") start _ eq_refl) as [Hname _].
  eexists. split; [exact eq_refl | exact Hname].
Defined.

Lemma getQuote_answers_with_the_best_quote_witness :
  exists response params h1 quotes best,
    fst (Tee.getQuote inOrder [Tee.okx; Tee.kyber] toString newBigNumber (Tee.request "1000") start)
    = Ok response
    /\ Spec.bestOfRound inOrder [Tee.okx; Tee.kyber] params h1 quotes best
    /\ quoteProvider response = Core.getName (provider best).
Proof.
  destruct (Pipeline.getQuote_answers_with_the_best_quote World inOrder
              newBigNumber Meta.getDecimals toString toString formatUnits
              [Tee.okx; Tee.kyber] [Meta.kyber]) as [Htee _].
  destruct (Htee (Tee.request "1000") start _ eq_refl)
    as (params & h1 & quotes & best & _ & Hbest & Hresponse).
  eexists _, params, h1, quotes, best. split; [exact eq_refl |].
  split; [exact Hbest |]. now rewrite Hresponse.
Defined.


(** *** A request from end to end *)

Lemma swapTokens_end_to_end_witness :
  exists result h' tx unsignedTx,
    Tee.swapTokens inOrder [Tee.okx; Tee.kyber] etherService toBigInt newBigNumber
      (Tee.request "1000") start = (Ok result, h')
    /\ providerName result = "kyber"
    /\ transactionHash result = "0x7a11"
    /\ Core.paramsObj h' = Some (setRecipient (Tee.built (newBigNumber "1000")) walletAddress)
    /\ Core.signerLog h'
       = [GetWallet;
          ApproveERC20IfNot
            {| Approve.tokenAddress := Tee.tokenIn (Tee.request "1000");
               Approve.spenderAddress := to tx;
               Approve.amount := approvalAmount |};
          BuildAndSendTransaction unsignedTx;
          WaitForTransaction "0x7a11"].
Proof.
  destruct (EndToEnd.swapTokens_end_to_end World inOrder etherService toBigInt
              newBigNumber Meta.getDecimals [Tee.okx; Tee.kyber] [Meta.kyber]) as [Htee _].
  destruct (Htee (Tee.request "1000") start _ _ eq_refl)
    as (params & h1 & quotes & best & wallet & tx & unsignedTx & txHash & receipt
        & Hc & _ & Hwallet & _ & _ & _ & Hsend & _ & _ & Hlog & Hparams).
  inversion Hc; subst params h1. inversion Hwallet; subst wallet.
  inversion Hsend; subst txHash.
  eexists _, _, tx, unsignedTx. split; [exact eq_refl |].
  split; [reflexivity |]. split; [reflexivity |].
  split; [exact Hparams | exact Hlog].
Defined.

Lemma getQuote_and_swapTokens_agree_witness :
  (forall n, Core.world inOrder n = Core.world secondFirst n)
  /\ exists response result,
       fst (Tee.getQuote inOrder [Tee.okx; Tee.kyber] toString newBigNumber
              (Tee.request "1000") start) = Ok response
       /\ fst (Tee.swapTokens secondFirst [Tee.okx; Tee.kyber] etherService toBigInt
                 newBigNumber (Tee.request "1000") start) = Ok result
       /\ exists (quotes quotes' : list (Core.ProviderQuote World Tee.Tx)) best best',
            Permutation quotes quotes'
            /\ In best quotes /\ In best' quotes'
            /\ quoteProvider response = Core.getName (provider best)
            /\ providerName result = Core.getName (provider best')
            /\ (outputAmount best == outputAmount best')%Q
            /\ (fee best == fee best')%Q.
Proof.
  split; [reflexivity |].
  destruct (EndToEnd.getQuote_and_swapTokens_agree World inOrder etherService toBigInt
              newBigNumber Meta.getDecimals toString toString formatUnits
              [Tee.okx; Tee.kyber] [Meta.kyber] secondFirst (fun n => eq_refl))
    as [Htee _].
  destruct (Htee (Tee.request "1000") start) as [Hsame _].
  eexists _, _. split; [exact eq_refl |]. split; [exact eq_refl |].
  destruct (Hsame _ _ eq_refl eq_refl)
    as (params & h1 & quotes & quotes' & best & best'
        & _ & Hbest & Hbest' & Hperm & Hquote & Hswap & Hout & Hfee & _).
  destruct Hbest as (_ & _ & Hin & _). destruct Hbest' as (_ & _ & Hin' & _).
  exists quotes, quotes', best, best'. repeat split; assumption.
Defined.

(** Two providers whose quotes tie on output and fee: the quote names
    the one whose call completes first in its round, the swap the one
    whose call completes first in its own. *)
Example getQuote_and_swapTokens_on_a_tie :
  (exists response,
     fst (Tee.getQuote inOrder [Tee.quoting "a" 1000 5; Tee.quoting "b" 1000 5]
            toString newBigNumber (Tee.request "1000") start) = Ok response
     /\ quoteProvider response = "a")
  /\ (exists result,
        fst (Tee.swapTokens secondFirst [Tee.quoting "a" 1000 5; Tee.quoting "b" 1000 5]
               etherService toBigInt newBigNumber (Tee.request "1000") start) = Ok result
        /\ providerName result = "b").
Proof. split; eexists; (split; [exact eq_refl | reflexivity]). Qed.

(** *** The token list *)

Lemma getTokenInfos_failures_witness :
  rateLimited (Core.world inOrder (Core.now start)) "pepe"
  = Ok {| DexScreener.ok := false;
          DexScreener.statusText := "Too Many Requests";
          DexScreener.json := Ok (Some [pepeOnEthereum]) |}
  /\ Core.getTokenInfos Tee.Tx inOrder rateLimited "pepe" start
     = (Throws (Core.Error_ "DexScreener API error: Too Many Requests"), Core.tick start).
Proof.
  split; [reflexivity |].
  destruct (TokenList.getTokenInfos_failures World Tee.Tx inOrder rateLimited "pepe" start)
    as (_ & Hfails & _).
  exact (Hfails _ eq_refl eq_refl).
Defined.

End Checks.
